(** * Molecular-dynamics runs and their post-processing:
      [create_files.py], [post_proc.py] and [rdf.py]

    A shallow embedding of the parsing and aggregation code of the
    repository, with the properties of its specification stated and proved
    against it.

    Conventions of the embedding.
    - A Python [str] is a [string]; each [ascii] is read as one code point in
      U+0000..U+00FF.
    - A text file is the list of lines that iterating over the open file
      yields (each line keeps its line terminator).
    - A Python [float] is an IEEE 754 binary64 number, [spec_float] with
      precision 53 and maximal exponent 1024, with round-to-nearest-even
      arithmetic.
    - A raised exception is the [Raise] outcome of the [result] type. *)

From Stdlib Require Import ZArith Ascii String List Bool Lia.
From Stdlib Require Import Floats.SpecFloat.
From stdpp Require Import base option list strings gmap sorting pretty.

Local Open Scope string_scope.
Local Open Scope list_scope.

(** ** Exceptions and results *)

Inductive exn : Type :=
| ValueError (msg : string)
| KeyError (key : string)
| IndexError (msg : string)
| AttributeError (msg : string).

Inductive result (A : Type) : Type :=
| Ok (a : A)
| Raise (e : exn).
Arguments Ok {A} a.
Arguments Raise {A} e.

Global Instance result_ret : MRet result := fun A a => Ok a.
Global Instance result_bind : MBind result := fun A B k r =>
  match r with
  | Ok a => k a
  | Raise e => Raise e
  end.

Definition is_ok {A : Type} (r : result A) : bool :=
  match r with Ok _ => true | Raise _ => false end.

(** ** Python string builtins *)

Module Py.

Definition nl : string := String (ascii_of_nat 10) EmptyString.

(** [str.isspace] on one character; the code points below 256 that Python
    counts as whitespace are 9..13, 28..32, 133 and 160. *)
Definition is_space (c : ascii) : bool :=
  let n := nat_of_ascii c in
  (((9 <=? n) && (n <=? 13)) || ((28 <=? n) && (n <=? 32))
   || (n =? 133) || (n =? 160))%nat.

Definition is_digit (c : ascii) : bool :=
  let n := nat_of_ascii c in ((48 <=? n) && (n <=? 57))%nat.

Definition is_empty (s : string) : bool :=
  match s with EmptyString => true | String _ _ => false end.

Fixpoint lstrip (s : string) : string :=
  match s with
  | EmptyString => EmptyString
  | String c s' => if is_space c then lstrip s' else s
  end.

Fixpoint rstrip (s : string) : string :=
  match s with
  | EmptyString => EmptyString
  | String c s' =>
      let r := rstrip s' in
      if is_space c && is_empty r then EmptyString else String c r
  end.

(** [s.strip()] *)
Definition strip (s : string) : string := rstrip (lstrip s).

(** [s.startswith(p)] *)
Fixpoint startswith (p s : string) : bool :=
  match p, s with
  | EmptyString, _ => true
  | String a p', String b s' => if Ascii.eqb a b then startswith p' s' else false
  | String _ _, EmptyString => false
  end.

(** [strip_prefix p s] is the rest of [s] after the literal [p]. *)
Fixpoint strip_prefix (p s : string) : option string :=
  match p, s with
  | EmptyString, _ => Some s
  | String a p', String b s' => if Ascii.eqb a b then strip_prefix p' s' else None
  | String _ _, EmptyString => None
  end.

Definition cons_token (w : string) (ts : list string) : list string :=
  if is_empty w then ts else w :: ts.

(** The run of non-blank characters that [s] starts with, and the tokens
    that follow it. *)
Fixpoint split_go (s : string) : string * list string :=
  match s with
  | EmptyString => (EmptyString, [])
  | String c s' =>
      let '(w, ts) := split_go s' in
      if is_space c then (EmptyString, cons_token w ts) else (String c w, ts)
  end.

(** [s.split()]: the maximal runs of non-whitespace characters. *)
Definition split (s : string) : list string :=
  let '(w, ts) := split_go s in cons_token w ts.

Fixpoint split_on_go (sep : ascii) (s : string) : string * list string :=
  match s with
  | EmptyString => (EmptyString, [])
  | String c s' =>
      let '(w, ts) := split_on_go sep s' in
      if Ascii.eqb c sep then (EmptyString, w :: ts) else (String c w, ts)
  end.

(** [s.split(sep)] for a one-character separator: never empty. *)
Definition split_on (sep : ascii) (s : string) : list string :=
  let '(w, ts) := split_on_go sep s in w :: ts.

(** [sep in s] for a one-character [sep]. *)
Fixpoint contains (sep : ascii) (s : string) : bool :=
  match s with
  | EmptyString => false
  | String c s' => Ascii.eqb c sep || contains sep s'
  end.

(** [s.split(sep, 1)]: cut at the first separator, if there is one. *)
Fixpoint split_once (sep : ascii) (s : string) : list string :=
  match s with
  | EmptyString => [EmptyString]
  | String c s' =>
      if Ascii.eqb c sep then [EmptyString; s']
      else match split_once sep s' with
           | w :: rest => String c w :: rest
           | [] => [String c EmptyString]
           end
  end.

(** The longest prefix of decimal digits, and the rest. *)
Fixpoint span_digits (s : string) : string * string :=
  match s with
  | EmptyString => (EmptyString, EmptyString)
  | String c s' =>
      if is_digit c then let '(d, r) := span_digits s' in (String c d, r)
      else (EmptyString, s)
  end.

Definition digit_val (c : ascii) : N := N.of_nat (nat_of_ascii c - 48)%nat.

Fixpoint int_go (acc : N) (s : string) : N :=
  match s with
  | EmptyString => acc
  | String c s' => int_go (10 * acc + digit_val c)%N s'
  end.

(** [int(s)] on a string of decimal digits. *)
Definition int (s : string) : N := int_go 0%N s.

(** [parts[-1]] *)
Definition last_item (parts : list string) : result string :=
  match last parts with
  | Some t => Ok t
  | None => Raise (IndexError "list index out of range")
  end.

(** [f"{s:>w}"]: right-align in a field of width [w]. *)
Definition rjust (w : nat) (s : string) : string :=
  String.concat ""%string (replicate (w - String.length s)%nat " ") +:+ s.

End Py.

(** ** Python floats: IEEE 754 binary64 *)

Module Float.

Definition prec : Z := 53.
Definition emax : Z := 1024.

Definition float : Type := spec_float.

Global Instance float_eq_dec : EqDecision float.
Proof. solve_decision. Defined.

Definition add : float → float → float := SFadd prec emax.
Definition div : float → float → float := SFdiv prec emax.

(** The float of a Python [int]. *)
Definition of_Z (z : Z) : float := binary_normalize prec emax z 0 false.
Definition of_nat (n : nat) : float := of_Z (Z.of_nat n).

(** The literal [0.0]. *)
Definition zero : float := S754_zero false.

(** *** [float(s)]

    The grammar is CPython's: surrounding whitespace is ignored; an
    underscore may stand between two digits; the rest is an optional sign
    followed by [inf], [infinity] or [nan] in any case, or by a decimal
    number with an optional exponent. The value is the decimal number
    rounded once, to nearest even. *)

Definition lower (c : ascii) : ascii :=
  let n := nat_of_ascii c in
  if ((65 <=? n) && (n <=? 90))%nat then ascii_of_nat (n + 32) else c.

Fixpoint lowercase (s : string) : string :=
  match s with
  | EmptyString => EmptyString
  | String c s' => String (lower c) (lowercase s')
  end.

(** Drop the underscores of a numeric literal; [prev] is the character
    before [s]. An underscore must follow a digit and precede a digit. *)
Fixpoint drop_underscores (prev : option ascii) (s : string) : option string :=
  match s with
  | EmptyString =>
      if bool_decide (prev = Some "_"%char) then None else Some EmptyString
  | String c s' =>
      if Ascii.eqb c "_" then
        match prev with
        | Some d => if Py.is_digit d then drop_underscores (Some c) s' else None
        | None => None
        end
      else if bool_decide (prev = Some "_"%char) && negb (Py.is_digit c) then None
      else String c <$> drop_underscores (Some c) s'
  end.

Definition take_sign (s : string) : bool * string :=
  match s with
  | String "-" s' => (true, s')
  | String "+" s' => (false, s')
  | _ => (false, s)
  end.

(** The exponent part: empty, or [e] or [E], an optional sign and digits. *)
Definition exponent (s : string) : option Z :=
  match s with
  | EmptyString => Some 0%Z
  | String c s' =>
      if Ascii.eqb (lower c) "e" then
        let '(neg, s'') := take_sign s' in
        let '(ds, rest) := Py.span_digits s'' in
        if Py.is_empty ds || negb (Py.is_empty rest) then None
        else Some (if neg then - Z.of_N (Py.int ds) else Z.of_N (Py.int ds))%Z
      else None
  end.

(** [(m, e)] with the number read being [m * 10 ^ e]. *)
Definition decimal (s : string) : option (N * Z) :=
  let '(ip, r1) := Py.span_digits s in
  let '(fp, r2) :=
    match r1 with
    | String "." r => Py.span_digits r
    | _ => (EmptyString, r1)
    end in
  if Py.is_empty ip && Py.is_empty fp then None
  else
    ex ← exponent r2;
    Some (Py.int (ip +:+ fp), (ex - Z.of_nat (String.length fp))%Z).

(** [m * 10 ^ e], rounded to nearest even. *)
Definition of_decimal (neg : bool) (m : N) (e : Z) : float :=
  match m with
  | N0 => S754_zero neg
  | Npos p =>
      match e with
      | Zneg k => div (S754_finite neg p 0) (S754_finite false (10 ^ k) 0)
      | _ => of_Z (cond_Zopp neg (Zpos p * 10 ^ e))
      end
  end.

Definition of_string (s : string) : result float :=
  let bad := Raise (ValueError "could not convert string to float") in
  match
    t ← drop_underscores None (Py.strip s);
    let '(neg, body) := take_sign t in
    let w := lowercase body in
    if bool_decide (w = "inf") || bool_decide (w = "infinity")
    then Some (S754_infinity neg)
    else if bool_decide (w = "nan") then Some S754_nan
    else '(m, e) ← decimal body; Some (of_decimal neg m e)
  with
  | Some x => Ok x
  | None => bad
  end.

(** *** Formatting *)

(** [a / b] rounded to the nearest integer, ties to even ([0 < b]). *)
Definition div_half_even (a b : Z) : Z :=
  let q := (a / b)%Z in
  match (2 * (a mod b) ?= b)%Z with
  | Lt => q
  | Gt => (q + 1)%Z
  | Eq => if Z.even q then q else (q + 1)%Z
  end.

(** [m * 2 ^ e] as a fraction. *)
Definition fraction (m : positive) (e : Z) : Z * Z :=
  match e with
  | Zneg k => (Zpos m, 2 ^ Zpos k)%Z
  | _ => (Zpos m * 2 ^ e, 1)%Z
  end.

Definition sign_str (neg : bool) : string := if neg then "-" else "".

Definition zfill (w : nat) (s : string) : string :=
  String.concat "" (replicate (w - String.length s)%nat "0") +:+ s.

Definition dec (z : Z) : string := pretty (Z.to_N z).

(** [format(x, ".6f")] *)
Definition fixed6 (x : float) : string :=
  match x with
  | S754_nan => "nan"
  | S754_infinity s => sign_str s +:+ "inf"
  | S754_zero s => sign_str s +:+ "0.000000"
  | S754_finite s m e =>
      let '(num, den) := fraction m e in
      let n := div_half_even (num * 10 ^ 6) den in
      sign_str s +:+ dec (n / 10 ^ 6) +:+ "." +:+ zfill 6 (dec (n mod 10 ^ 6))
  end.

(** [format(x, ".6e")] *)
Definition sci6 (x : float) : string :=
  match x with
  | S754_nan => "nan"
  | S754_infinity s => sign_str s +:+ "inf"
  | S754_zero s => sign_str s +:+ "0.000000e+00"
  | S754_finite s m e =>
      let '(num, den) := fraction m e in
      (* the decimal exponent: binary64 values are at least 10^-324 *)
      let k := (Z.of_nat (String.length (dec (num * 10 ^ 324 / den))) - 1 - 324)%Z in
      let d := if (0 <=? 6 - k)%Z
               then div_half_even (num * 10 ^ (6 - k)) den
               else div_half_even num (den * 10 ^ (k - 6)) in
      let '(d, k) := if (d =? 10 ^ 7)%Z then (10 ^ 6, k + 1)%Z else (d, k) in
      sign_str s +:+ dec (d / 10 ^ 6) +:+ "." +:+ zfill 6 (dec (d mod 10 ^ 6))
      +:+ "e" +:+ (if (k <? 0)%Z then "-" else "+") +:+ zfill 2 (dec (Z.abs k))
  end.

End Float.

Abbreviation float := Float.float.

(** [for x in xs: st = step(st, x)], stopping at the first exception. *)
Fixpoint foldM {A S : Type} (step : S → A → result S) (st : S) (xs : list A)
  : result S :=
  match xs with
  | [] => Ok st
  | x :: xs' => st' ← step st x; foldM step st' xs'
  end.

(** [[f(x) for x in xs]], stopping at the first exception. *)
Fixpoint traverse {A B : Type} (f : A → result B) (xs : list A) : result (list B) :=
  match xs with
  | [] => Ok []
  | x :: xs' => y ← f x; ys ← traverse f xs'; Ok (y :: ys)
  end.

(** ** The numpy operations that [process_rdf] uses *)

Module Np.

(** The arrays [process_rdf] can build: [np.array([], float)] is
    one-dimensional and empty; a non-empty list of equally long rows is a
    two-dimensional array. *)
Inductive ndarray : Type :=
| Nd1 (xs : list float)
| Nd2 (rows : list (list float)).

(** [np.array(rows, float)]: rows of different lengths are refused. *)
Definition array (rows : list (list float)) : result ndarray :=
  match rows with
  | [] => Ok (Nd1 [])
  | r :: rs =>
      if forallb (fun r' => length r' =? length r)%nat rs then Ok (Nd2 rows)
      else Raise (ValueError "setting an array element with a sequence")
  end.

(** [b[:, k]] *)
Definition column (k : nat) (b : ndarray) : result (list float) :=
  match b with
  | Nd1 _ => Raise (IndexError "too many indices for array")
  | Nd2 rows =>
      match mapM (fun row : list float => row !! k) rows with
      | Some c => Ok c
      | None => Raise (IndexError "index is out of bounds for axis 1")
      end
  end.

(** [x + y] on one-dimensional arrays of the same length. *)
Definition add (xs ys : list float) : list float := zip_with Float.add xs ys.

(** *** Sums along the leading axis

    [np.mean] adds with [np.add.reduce] and divides by the number of
    arrays. The sum starts from [-0.0], which leaves the first array as it
    is. For arrays of two or more entries the stacked arrays are added one
    after the other. For arrays of one entry the values lie next to each
    other in memory and are added by numpy's [pairwise_sum]: in order when
    they are fewer than eight, else in eight partial sums that are added
    up as a tree, and by halves when they are more than 128. *)

(** The partial sums [r[0..7]], after [groups] groups of eight values of
    [a] have been added to them, and the values that are left. *)
Fixpoint accumulate (groups : nat) (r a : list float) : list float * list float :=
  match groups with
  | 0 => (r, a)
  | S groups' => accumulate groups' (zip_with Float.add r (take 8 a)) (drop 8 a)
  end.

(** [pairwise_sum] on 8 to 128 values. *)
Definition pairwise_block (a : list float) : float :=
  let '(r, rest) := accumulate (length a / 8 - 1) (take 8 a) (drop 8 a) in
  match r with
  | [r0; r1; r2; r3; r4; r5; r6; r7] =>
      fold_left Float.add rest
        (Float.add (Float.add (Float.add r0 r1) (Float.add r2 r3))
                   (Float.add (Float.add r4 r5) (Float.add r6 r7)))
  | _ => S754_nan
  end.

(** [pairwise_sum]; the recursion halves the values, so that [fuel] is
    enough when it is at least their number. *)
Fixpoint pairwise_sum (fuel : nat) (a : list float) : float :=
  let n := length a in
  if (n <? 8)%nat then fold_left Float.add a (S754_zero true)
  else if (n <=? 128)%nat then pairwise_block a
  else
    match fuel with
    | 0 => S754_nan
    | S fuel' =>
        let n2 := (n / 2 - (n / 2) mod 8)%nat in
        Float.add (pairwise_sum fuel' (take n2 a)) (pairwise_sum fuel' (drop n2 a))
    end.

Definition pairwise (a : list float) : float := pairwise_sum (length a) a.

(** [np.mean([c] + cs, axis=0)] for one-dimensional arrays: the arrays are
    stacked (arrays of different lengths are refused, as numpy does from
    version 1.24 on), summed along the leading axis, and the sum is divided
    by their number. Fewer than eight arrays of one entry are added in
    order by [pairwise_sum] as well. *)
Definition mean_axis0 (c : list float) (cs : list (list float))
  : result (list float) :=
  if forallb (fun c' => length c' =? length c)%nat cs then
    Ok (map (fun t => Float.div t (Float.of_nat (S (length cs))))
            (if (length c =? 1)%nat && (8 <=? S (length cs))%nat
             then [Float.add (S754_zero true) (pairwise (concat (c :: cs)))]
             else fold_left add cs c))
  else Raise (ValueError "inhomogeneous shape").

End Np.

(** ** [post_proc.py] *)

Module PostProc.

Import Np.

(** *** Paths

    A [Path] is the chain of directory entries from the path itself up to
    the root: the head is the path, the tail its [parents], nearest first. *)
Record dir_entry : Type := { name : string; is_dir : bool }.
Definition Path : Type := list dir_entry.

(** [TP_DIR_RE.match(s)] for [TP_DIR_RE = re.compile(r"^T_(\d+)_P_(\d+)$")],
    giving groups 1 and 2. Each [\d+] is followed by a character that is
    not a digit, so the greedy match is the only one; [$] matches at the
    end of the string and also just before a line feed that ends it.
    [\d] takes the decimal digits of every script; those other than [0] to
    [9] lie above U+00FF, outside the strings of this development. *)
Definition TP_DIR_RE_match (s : string) : option (string * string) :=
  r0 ← Py.strip_prefix "T_" s;
  let '(g1, r1) := Py.span_digits r0 in
  if Py.is_empty g1 then None
  else
    r2 ← Py.strip_prefix "_P_" r1;
    let '(g2, r3) := Py.span_digits r2 in
    if Py.is_empty g2 then None
    else if bool_decide (r3 = "") || bool_decide (r3 = Py.nl)
         then Some (g1, g2) else None.

Fixpoint find_tp_ancestor (p : Path) : option (N * N * Path) :=
  match p with
  | [] => None
  | parent :: parents =>
      if is_dir parent then
        match TP_DIR_RE_match (name parent) with
        | Some (g1, g2) => Some (Py.int g1, Py.int g2, p)
        | None => find_tp_ancestor parents
        end
      else find_tp_ancestor parents
  end.

(** *** [avg_density] *)

(** One turn of the loop over the lines; the state is [(total, n)]. *)
Definition density_step (st : float * nat) (line : string) : result (float * nat) :=
  let '(total, n) := st in
  let s := Py.strip line in
  if Py.is_empty s || Py.startswith "#" s then Ok st
  else
    let parts := Py.split s in
    tok ← Py.last_item parts;
    match Float.of_string tok with
    | Ok dens => Ok (Float.add total dens, S n)
    | Raise (ValueError _) => Ok st
    | Raise e => Raise e
    end.

Definition avg_density (lines : list string) : result float :=
  '(total, n) ← foldM density_step (Float.zero, 0%nat) lines;
  if (n =? 0)%nat then Raise (ValueError "No density data lines found")
  else Ok (Float.div total (Float.of_nat n)).

(** *** [last_diff_visc] *)

Definition last_step (last : option string) (line : string) : option string :=
  let s := Py.strip line in
  if negb (Py.is_empty s) && negb (Py.startswith "#" s) then Some s else last.

Definition field_step (fields : gmap string float) (item : string)
  : result (gmap string float) :=
  let item := Py.strip item in
  if negb (Py.contains ":" item) then Ok fields
  else
    match Py.split_once ":" item with
    | [key; val] =>
        x ← Float.of_string (Py.strip val);
        Ok (<[Py.strip key := x]> fields)
    | _ => Raise (ValueError "not enough values to unpack")
    end.

(** [fields[key]] *)
Definition getitem (fields : gmap string float) (key : string) : result float :=
  match fields !! key with
  | Some x => Ok x
  | None => Raise (KeyError key)
  end.

Definition parse_fields (last : string) : result (gmap string float) :=
  foldM field_step ∅ (Py.split_on "," last).

Definition last_diff_visc (lines : list string) : result (float * float) :=
  match fold_left last_step lines None with
  | None => Raise (ValueError "No data lines found")
  | Some last =>
      fields ← parse_fields last;
      d ← getitem fields "D[H2O]";
      v ← getitem fields "viscosity";
      Ok (d, v)
  end.

(** *** [process_rdf] *)

(** The loop state: the finished [blocks] and the rows of the [current]
    block, [None] before the first header line. *)
Definition rdf_state : Type := list ndarray * option (list (list float)).

Definition close_block (st : rdf_state) : result (list ndarray) :=
  let '(blocks, current) := st in
  match current with
  | Some rows => b ← Np.array rows; Ok (blocks ++ [b])
  | None => Ok blocks
  end.

Definition rdf_step (st : rdf_state) (line : string) : result rdf_state :=
  if Py.startswith "#" line || Py.is_empty (Py.strip line) then Ok st
  else
    let parts := Py.split line in
    if (length parts =? 2)%nat then
      blocks ← close_block st; Ok (blocks, Some [])
    else
      match snd st with
      | None => Raise (AttributeError "'NoneType' object has no attribute 'append'")
      | Some rows =>
          row ← traverse Float.of_string parts;
          Ok (fst st, Some (rows ++ [row]))
      end.

(** The blocks of a file: the loop and the closing of the last block. *)
Definition rdf_blocks (lines : list string) : result (list ndarray) :=
  st ← foldM rdf_step ([], None) lines; close_block st.

(** [np.mean([b[:, k] for b in blocks], axis=0)] for [blocks = b0 :: bs];
    the list of columns has an entry for each block, so its empty case
    does not arise. *)
Definition mean_of_column (k : nat) (b0 : ndarray) (bs : list ndarray)
  : result (list float) :=
  cs ← traverse (Np.column k) (b0 :: bs);
  match cs with
  | c :: cs' => Np.mean_axis0 c cs'
  | [] => Raise (ValueError "No RDF blocks found")
  end.

Definition process_rdf (lines : list string)
  : result (list float * list float * list float * list float) :=
  blocks ← rdf_blocks lines;
  match blocks with
  | [] => Raise (ValueError "No RDF blocks found")
  | b0 :: bs =>
      r ← Np.column 1 b0;
      g77 ← mean_of_column 2 b0 bs;
      g88 ← mean_of_column 4 b0 bs;
      g78 ← mean_of_column 6 b0 bs;
      Ok (r, g77, g88, g78)
  end.

(** *** [write_results_txt] *)

Definition key : Type := N * N.

(** The order of [sorted] on [(T, P)] tuples. *)
Definition key_le (a b : key) : Prop :=
  (a.1 < b.1)%N ∨ (a.1 = b.1 ∧ (a.2 ≤ b.2)%N).

Global Instance key_le_dec : RelDecision key_le.
Proof. intros a b. unfold key_le. apply _. Defined.

Definition sorted_keys (keys : gset key) : list key :=
  merge_sort key_le (elements keys).

Definition header : string :=
  Py.rjust 8 "T(K)" +:+ " " +:+ Py.rjust 8 "P(bar)" +:+ " "
  +:+ Py.rjust 12 "Density" +:+ " " +:+ Py.rjust 15 "SelfDiff" +:+ " "
  +:+ Py.rjust 15 "Viscosity".

Definition numeric_row (k : key) (dens diff visc : float) : string :=
  Py.rjust 8 (pretty k.1) +:+ " " +:+ Py.rjust 8 (pretty k.2) +:+ " "
  +:+ Py.rjust 12 (Float.fixed6 dens) +:+ " "
  +:+ Py.rjust 15 (Float.sci6 diff) +:+ " " +:+ Py.rjust 15 (Float.sci6 visc).

Definition missing_row (k : key) : string :=
  Py.rjust 8 (pretty k.1) +:+ " " +:+ Py.rjust 8 (pretty k.2) +:+ " "
  +:+ Py.rjust 12 "MISSING" +:+ " " +:+ Py.rjust 15 "" +:+ " " +:+ Py.rjust 15 "".

(** The line of one record; every stored value is a float, so the
    [isinstance] tests ask whether the three fields are present. *)
Definition row (k : key) (rec : gmap string float) : string :=
  match rec !! "density", rec !! "self_diffusion", rec !! "viscosity" with
  | Some dens, Some diff, Some visc => numeric_row k dens diff visc
  | _, _, _ => missing_row k
  end.

Definition results_lines (records : gmap key (gmap string float)) : list string :=
  header :: map (fun k => row k (records !!! k)) (sorted_keys (dom records)).

(** The text written to [results.txt]. *)
Definition write_results_txt (records : gmap key (gmap string float)) : string :=
  String.concat Py.nl (results_lines records).

(** *** [main]: scanning and aggregation

    A file found by [rglob] is given by the path of its directory and by
    its lines. Plotting and the output of the averaged RDF curves are left
    out. *)
Record found_file : Type := { parent : Path; lines : list string }.

(** [d.setdefault(k, v)] *)
Definition setdefault {V : Type} (k : key) (v : V) (d : gmap key V) : gmap key V :=
  match d !! k with
  | Some _ => d
  | None => <[k := v]> d
  end.

Definition scan_step (paths : gmap key found_file) (f : found_file)
  : gmap key found_file :=
  match find_tp_ancestor (parent f) with
  | Some (T, P, _) => setdefault (T, P) f paths
  | None => paths
  end.

(** [for f in root.rglob(NAME): ...] over the files in the order found. *)
Definition scan (found : list found_file) : gmap key found_file :=
  fold_left scan_step found ∅.

(** [records[k][field] = x] *)
Definition set_field (k : key) (field : string) (x : float)
    (records : gmap key (gmap string float)) : gmap key (gmap string float) :=
  alter (insert field x) k records.

(** The body of the loop over [all_keys]. *)
Definition aggregate_step (dens_paths calc_paths : gmap key found_file)
    (records : gmap key (gmap string float)) (k : key)
  : gmap key (gmap string float) :=
  let records := setdefault k ∅ records in
  match dens_paths !! k, calc_paths !! k with
  | Some dfile, Some cfile =>
      match avg_density (lines dfile) with
      | Raise _ => records
      | Ok dens =>
          let records := set_field k "density" dens records in
          match last_diff_visc (lines cfile) with
          | Raise _ => records
          | Ok (diff, visc) =>
              set_field k "viscosity" visc
                (set_field k "self_diffusion" diff records)
          end
      end
  | _, _ => records
  end.

Definition all_keys (dens_paths calc_paths : gmap key found_file) : list key :=
  sorted_keys (dom dens_paths ∪ dom calc_paths).

Definition aggregate (dens_paths calc_paths : gmap key found_file)
  : gmap key (gmap string float) :=
  fold_left (aggregate_step dens_paths calc_paths)
            (all_keys dens_paths calc_paths) ∅.

(** The records of a run and the text of its report, from the density
    files and the key/value files found under the root. *)
Definition main (dens_found calc_found : list found_file)
  : gmap key (gmap string float) * string :=
  let records := aggregate (scan dens_found) (scan calc_found) in
  (records, write_results_txt records).

End PostProc.

(** ** Output arrays *)

Module NpOut.

(** [np.column_stack(cols)] for one-dimensional arrays: the arrays become
    the columns of a table; arrays of different lengths are refused. *)
Definition column_stack (cols : list (list float)) : result (list (list float)) :=
  match cols with
  | [] => Raise (ValueError "need at least one array to concatenate")
  | c :: cs =>
      if forallb (fun c' => length c' =? length c)%nat cs
      then Ok (foldr (zip_with cons) (replicate (length c) []) cols)
      else Raise (ValueError "all the input array dimensions must match exactly")
  end.

End NpOut.

(** ** [rdf.py]

    The script reads [rdf_all.rdf] with the loop of [process_rdf], takes
    the three means first and the radii after them, and saves the table of
    the four columns as [rdf_average.dat] with the header [r g77 g88 g78].
    The figure and the number format of [np.savetxt] are left out.

    The script opens the file with [open(fname)]: the bytes are decoded in
    the encoding of the locale, and bytes that cannot be decoded raise
    [UnicodeDecodeError], where [process_rdf] decodes as UTF-8 and replaces
    them. The argument of [script] is the list of the lines that the script
    gets from its file; a file that it cannot decode is outside this
    model. *)

Module RdfScript.
Import Np PostProc NpOut.

Definition fname : string := "rdf_all.rdf".

Record saved : Type := { file : string; header : string; out : list (list float) }.

(** With no block the three means of an empty list are [nan], with a
    warning, and [blocks[0]] raises. *)
Definition script (lines : list string) : result saved :=
  blocks ← rdf_blocks lines;
  match blocks with
  | [] => Raise (IndexError "list index out of range")
  | b0 :: bs =>
      g77_all ← mean_of_column 2 b0 bs;
      g88_all ← mean_of_column 4 b0 bs;
      g78_all ← mean_of_column 6 b0 bs;
      r ← Np.column 1 b0;
      out ← column_stack [r; g77_all; g88_all; g78_all];
      Ok {| file := "rdf_average.dat"; header := "r g77 g88 g78"; out := out |}
  end.

End RdfScript.

(** ** [post_proc.py]: the figures and the RDF files *)

Module Outputs.
Import Np PostProc NpOut.

(** *** [plot_vs_temperature] *)

(** A point [(T, dens, diff, visc)] of a curve. *)
Definition point : Type := N * float * float * float.

Definition temperature (x : point) : N := x.1.1.1.
Definition dens_of (x : point) : float := x.1.1.2.
Definition diff_of (x : point) : float := x.1.2.
Definition visc_of (x : point) : float := x.2.

(** The body of the loop over [records.items()]; [by_p] is a
    [defaultdict(list)]. *)
Definition by_p_step (by_p : gmap N (list point))
    (item : key * gmap string float) : gmap N (list point) :=
  let '((T, P), rec) := item in
  match rec !! "density", rec !! "self_diffusion", rec !! "viscosity" with
  | Some dens, Some diff, Some visc =>
      <[P := by_p !!! P ++ [(T, dens, diff, visc)]]> by_p
  | _, _, _ => by_p
  end.

(** The order of [sorted(..., key=lambda x: x[0])]. *)
Definition point_le (a b : point) : Prop := (temperature a ≤ temperature b)%N.

Global Instance point_le_dec : RelDecision point_le.
Proof. intros a b. unfold point_le. apply _. Defined.

(** One call of [plt.plot(Ts, Ys, marker="o", label=...)]. *)
Record curve : Type := { label : string; Ts : list N; Ys : list float }.

Record figure : Type :=
  { fig_name : string; xlabel : string; ylabel : string; curves : list curve }.

(** [save_plot]; the index [y_index] of the plotted quantity is 1, 2 or 3
    at the three calls, and is given here as the projection [y]. *)
Definition save_plot (by_p : gmap N (list point)) (y : point → float)
    (ylabel fname : string) : figure :=
  {| fig_name := fname;
     xlabel := "Temperature (K)";
     ylabel := ylabel;
     curves :=
       map (fun P =>
              let pts := merge_sort point_le (by_p !!! P) in
              {| label := "P=" +:+ pretty P +:+ " bar";
                 Ts := map temperature pts;
                 Ys := map y pts |})
           (merge_sort N.le (elements (dom by_p))) |}.

(** The three figures, from the items of [records] in the order of the
    dictionary. *)
Definition plot_vs_temperature (items : list (key * gmap string float))
  : list figure :=
  let by_p := fold_left by_p_step items ∅ in
  [ save_plot by_p dens_of "Density" "T_vs_density.png";
    save_plot by_p diff_of "Self-diffusion (D[H2O])" "T_vs_selfdiff.png";
    save_plot by_p visc_of "Viscosity" "T_vs_viscosity.png" ].

(** [records.items()] in [main]: the keys were inserted in the order of
    [all_keys], which is sorted. *)
Definition items (records : gmap key (gmap string float))
  : list (key * gmap string float) :=
  map (fun k => (k, records !!! k)) (sorted_keys (dom records)).

(** *** [main]: the RDF files *)

(** What the loop writes to the results directory: a figure of the four
    arrays, and the table of the four columns with its header. *)
Inductive written : Type :=
| Figure (name : string) (r g77 g88 g78 : list float)
| Data (name : string) (header : string) (out : list (list float)).

Definition png_name (T P idx : N) : string :=
  "rdf_T_" +:+ pretty T +:+ "_P_" +:+ pretty P +:+ "_" +:+ pretty idx +:+ ".png".

Definition dat_name (T P idx : N) : string :=
  "rdf_average_T_" +:+ pretty T +:+ "_P_" +:+ pretty P +:+ "_" +:+ pretty idx
  +:+ ".dat".

(** The state of the loop: [rdf_counter], a [defaultdict(int)], and the
    files written so far. *)
Definition rdf_loop_state : Type := gmap key N * list written.

(** The body of the loop over the RDF files found; an exception anywhere
    in the [try] block ends the turn. *)
Definition rdf_file_step (st : rdf_loop_state) (rdf : found_file) : rdf_loop_state :=
  let '(rdf_counter, files) := st in
  match find_tp_ancestor (parent rdf) with
  | None => st
  | Some (T, P, _) =>
      match process_rdf (lines rdf) with
      | Raise _ => st
      | Ok (r, g77, g88, g78) =>
          let idx := (default 0 (rdf_counter !! (T, P)) + 1)%N in
          let rdf_counter := <[(T, P) := idx]> rdf_counter in
          let files := files ++ [Figure (png_name T P idx) r g77 g88 g78] in
          match column_stack [r; g77; g88; g78] with
          | Raise _ => (rdf_counter, files)
          | Ok out =>
              (rdf_counter,
               files ++ [Data (dat_name T P idx) "r g77 g88 g78" out])
          end
      end
  end.

Definition rdf_files (found : list found_file) : rdf_loop_state :=
  fold_left rdf_file_step found (∅, []).

End Outputs.

(** ** [create_files.py]

    The directories that [create_directories_with_files] makes, with the
    two values that it writes at the head of each [run.lmp]. The rest of
    the input script does not depend on the arguments; it and the copies
    of the auxiliary files are left out. *)

Module CreateFiles.

(** *** [str] of a float: the shortest decimal that reads back *)

(** [s[:n]] and [s[n:]] *)
Fixpoint take (n : nat) (s : string) : string :=
  match n, s with
  | S n', String c s' => String c (take n' s')
  | _, _ => EmptyString
  end.

Fixpoint drop (n : nat) (s : string) : string :=
  match n, s with
  | S n', String _ s' => drop n' s'
  | _, _ => s
  end.

(** The decimal exponent of [m * 2 ^ e]: the [k] with
    [10 ^ k <= m * 2 ^ e < 10 ^ (k + 1)]; binary64 numbers are at least
    [10 ^ -324]. *)
Definition decimal_exponent (m : positive) (e : Z) : Z :=
  let '(num, den) := Float.fraction m e in
  (Z.of_nat (String.length (Float.dec (num * 10 ^ 324 / den))) - 1 - 324)%Z.

(** The decimal [d * 10 ^ p] with [nd] digits that is nearest to
    [m * 2 ^ e] among those that [float] reads back as that number, if
    there is one. Of the decimals with [nd] digits only the two around
    the number can read back as it. *)
Definition candidate (m : positive) (e : Z) (k : Z) (nd : nat) : option (Z * Z) :=
  let '(num, den) := Float.fraction m e in
  let p := (k + 1 - Z.of_nat nd)%Z in
  let '(a, b) := if (0 <=? p)%Z then (num, den * 10 ^ p)%Z
                 else (num * 10 ^ (- p), den)%Z in
  let q := (a / b)%Z in
  let reads_back d :=
    bool_decide (Float.of_decimal false (Z.to_N d) p = S754_finite false m e) in
  match reads_back q, reads_back (q + 1)%Z with
  | true, true =>
      match (2 * a ?= (2 * q + 1) * b)%Z with
      | Lt => Some (q, p)
      | Gt => Some (q + 1, p)%Z
      | Eq => Some (if Z.even q then q else q + 1, p)%Z
      end
  | true, false => Some (q, p)
  | false, true => Some (q + 1, p)%Z
  | false, false => None
  end.

(** The search for the shortest such decimal, from [nd] digits on. *)
Fixpoint search (m : positive) (e : Z) (k : Z) (nd fuel : nat) : Z * Z :=
  match fuel with
  | 0 => (Zpos m, e)
  | S fuel' =>
      match candidate m e k nd with
      | Some r => r
      | None => search m e k (S nd) fuel'
      end
  end.

(** Seventeen digits always suffice for a binary64 number. *)
Definition shortest (m : positive) (e : Z) : Z * Z :=
  search m e (decimal_exponent m e) 1 17.

(** [repr(x)], which is also [str(x)] and [f"{x}"]: the digits of the
    shortest decimal, with an exponent when the decimal point would lie
    more than three places before them or more than sixteen places after
    their first digit. *)
Definition repr (x : float) : string :=
  match x with
  | S754_nan => "nan"
  | S754_infinity s => Float.sign_str s +:+ "inf"
  | S754_zero s => Float.sign_str s +:+ "0.0"
  | S754_finite s m e =>
      let '(d, p) := shortest m e in
      (* 9.5 and above rounds to 10 when one digit is asked for *)
      let '(d, p) := if (d =? 10)%Z then (1, p + 1)%Z else (d, p) in
      let digits := Float.dec d in
      let n := String.length digits in
      let decpt := (Z.of_nat n + p)%Z in
      Float.sign_str s +:+
      (if (decpt <=? -4)%Z || (16 <? decpt)%Z then
         take 1 digits +:+ (if (1 <? n)%nat then "." +:+ drop 1 digits else "")
         +:+ "e" +:+ (if (decpt - 1 <? 0)%Z then "-" else "+")
         +:+ Float.zfill 2 (Float.dec (Z.abs (decpt - 1)))
       else if (decpt <=? 0)%Z
            then "0." +:+ Float.zfill (Z.to_nat (- decpt)) "" +:+ digits
       else if (Z.of_nat n <=? decpt)%Z
            then digits +:+ Float.zfill (Z.to_nat decpt - n) "" +:+ ".0"
       else take (Z.to_nat decpt) digits +:+ "." +:+ drop (Z.to_nat decpt) digits)
  end.

(** *** [create_directories_with_files] *)

(** The values of the ranges: Python [int]s and [float]s. *)
Inductive number : Type :=
| Int (z : Z)
| Flt (x : float).

Global Instance number_eq_dec : EqDecision number.
Proof. solve_decision. Defined.

(** [f"{v}"] *)
Definition str (v : number) : string :=
  match v with
  | Int z => pretty z
  | Flt x => repr x
  end.

(** [p * 0.986923]; an [int] is converted to a float first, and [None]
    stands for the [OverflowError] of an [int] too large for that. *)
Definition to_atm (p : number) : option float :=
  let factor := Float.of_decimal false 986923 (-6) in
  match p with
  | Int z =>
      match Float.of_Z z with
      | S754_infinity _ => None
      | x => Some (SFmul Float.prec Float.emax x factor)
      end
  | Flt x => Some (SFmul Float.prec Float.emax x factor)
  end.

(** [f"T_{temp}_P_{pressure_bar}"] *)
Definition folder_name (temp pressure_bar : number) : string :=
  "T_" +:+ str temp +:+ "_P_" +:+ str pressure_bar.

(** A directory made by the loop: its name under [base_dir], and the
    values of [temp] and [press] at the head of its [run.lmp]. *)
Record job : Type := { folder : string; temp : number; press : float }.

Definition create_directories_with_files
    (temp_range : list number) (pressure_range : option (list number))
    (constant_temp constant_pressure : option number) : option (list job) :=
  let temp_range :=
    match constant_temp with Some t => [t] | None => temp_range end in
  let pressure_range :=
    match constant_pressure with Some p => Some [p] | None => pressure_range end in
  let pressure_range :=
    match pressure_range with
    | None => [Flt (Float.of_decimal false 101325 (-5))]
    | Some ps => ps
    end in
  pressure_range_atm ← mapM to_atm pressure_range;
  Some (temp ← temp_range;
        '(pressure_bar, pressure_atm) ← zip pressure_range pressure_range_atm;
        [ {| folder := folder_name temp pressure_bar;
             temp := temp;
             press := pressure_atm |} ]).

(** The call at the end of the file. *)
Definition example : option (list job) :=
  create_directories_with_files
    (Int <$> [313; 323; 333; 343; 353; 363; 373]%Z)
    (Some (Int <$> [1; 10; 20]%Z)) None None.

End CreateFiles.

(** * Vocabulary of the properties *)

Import PostProc.
Import Np.

(** [text_file ls]: the lines of a text file whose lines, without their
    terminators, are [ls]. *)
Definition text_file (ls : list string) : list string :=
  map (fun l => l +:+ Py.nl) ls.

(** A line that the value parsers keep: not blank and not a comment. *)
Definition retained (line : string) : bool :=
  negb (Py.is_empty (Py.strip line)) && negb (Py.startswith "#" (Py.strip line)).

(** The sample of a line: the float of its last token, when the line is
    kept and the token is a float. *)
Definition sample (line : string) : option float :=
  if retained line then
    tok ← last (Py.split (Py.strip line));
    match Float.of_string tok with
    | Ok x => Some x
    | Raise _ => None
    end
  else None.

Definition samples (lines : list string) : list float := omap sample lines.

(** The arithmetic mean, in floating point: the running sum from [0.0],
    divided by the number of samples. *)
Definition mean (xs : list float) : float :=
  Float.div (fold_left Float.add xs Float.zero) (Float.of_nat (length xs)).

(** What [last_diff_visc] does with the final kept line. *)
Definition parse_last (last : string) : result (float * float) :=
  fields ← parse_fields last;
  d ← getitem fields "D[H2O]";
  v ← getitem fields "viscosity";
  Ok (d, v).

(** The final kept line of a file, stripped. *)
Definition final_line (lines : list string) : option string :=
  Py.strip <$> last (filter (fun l => retained l = true) lines).

(** The key that a comma-separated segment defines, if it has a colon. *)
Definition field_key (item : string) : option string :=
  let item := Py.strip item in
  if Py.contains ":" item then Some (Py.strip (hd "" (Py.split_once ":" item)))
  else None.

Definition field_keys (last : string) : list string :=
  omap field_key (Py.split_on "," last).

(** A segment with a colon whose text after the first colon is no float. *)
Definition malformed_value (item : string) : bool :=
  let item := Py.strip item in
  Py.contains ":" item &&
  match Py.split_once ":" item with
  | [_; val] => negb (is_ok (Float.of_string (Py.strip val)))
  | _ => false
  end.

(** A line that [process_rdf] passes over: a comment or a blank line. *)
Definition rdf_skipped (line : string) : bool :=
  Py.startswith "#" line || Py.is_empty (Py.strip line).

(** A header line: kept, with exactly two tokens. *)
Definition is_header (line : string) : bool :=
  negb (rdf_skipped line) && (length (Py.split line) =? 2)%nat.

(** A data row: kept, with any other number of tokens. *)
Definition is_data (line : string) : bool :=
  negb (rdf_skipped line) && negb (length (Py.split line) =? 2)%nat.

(** The numeric rows of the lines of one block. *)
Definition rows_of (lines : list string) : result (list (list float)) :=
  traverse (fun l => traverse Float.of_string (Py.split l))
           (filter (fun l => rdf_skipped l = false) lines).

Definition nrows (b : ndarray) : nat :=
  match b with
  | Nd1 xs => length xs
  | Nd2 rows => length rows
  end.




(** The sum of the values [x :: xs] that the blocks have at one place of a
    column, for blocks of [rows] rows: the values are added in the order of
    the blocks, except that numpy adds the values of eight or more blocks
    of one row by its pairwise scheme. *)
Definition sum_over_blocks (rows : nat) (x : float) (xs : list float) : float :=
  if (rows =? 1)%nat && (8 <=? S (length xs))%nat
  then Np.pairwise (x :: xs)
  else fold_left Float.add xs x.

(** The mean of [x :: xs]: the sum divided by the number of the blocks. *)
Definition mean_from (rows : nat) (x : float) (xs : list float) : float :=
  Float.div (sum_over_blocks rows x xs) (Float.of_nat (S (length xs))).


(** A float literal, for the examples. *)
Definition lit (s : string) : float :=
  match Float.of_string s with
  | Ok x => x
  | Raise _ => S754_nan
  end.

(** Doubling and halving [x] gives the float that dividing [x] by one
    gives. *)
Definition halving_exact (x : float) : Prop :=
  Float.div (Float.add x x) (Float.of_nat 2) = Float.div x (Float.of_nat 1).

(** A well-formed binary64 number. *)
Definition well_formed (x : float) : bool :=
  valid_binary Float.prec Float.emax x.

(** A float whose double does not overflow: not a finite number of
    magnitude [2 ^ 1023] or more. *)
Definition below_half_max (x : float) : bool :=
  match x with
  | S754_finite _ m e => (Zpos (digits2_pos m) + e <? 1024)%Z
  | _ => true
  end.

Definition doubling_safe (x : float) : bool :=
  well_formed x && below_half_max x.

(** A block all of whose entries are well-formed floats. *)
Definition block_well_formed (b : ndarray) : Prop :=
  match b with
  | Nd1 xs => Forall (fun x => well_formed x = true) xs
  | Nd2 rows => Forall (Forall (fun x => well_formed x = true)) rows
  end.

(** A string of decimal digits. *)
Fixpoint all_digits (s : string) : bool :=
  match s with
  | EmptyString => true
  | String c s' => Py.is_digit c && all_digits s'
  end.

(** A string that does not start with a decimal digit. *)
Definition no_leading_digit (s : string) : Prop :=
  match s with
  | EmptyString => True
  | String c _ => Py.is_digit c = false
  end.

(** The values of the three columns that are averaged. *)
Definition designated (b : ndarray) : list float :=
  match Np.column 2 b, Np.column 4 b, Np.column 6 b with
  | Ok c2, Ok c4, Ok c6 => c2 ++ c4 ++ c6
  | _, _, _ => []
  end.

(** The condition key of a found file: that of the nearest ancestor
    directory named after a condition. *)
Definition key_of (f : found_file) : option key :=
  match find_tp_ancestor (parent f) with
  | Some (T, P, _) => Some (T, P)
  | None => None
  end.

(** The record that the loop builds for a key. *)
Definition expected_record (dens_paths calc_paths : gmap key found_file) k
  : gmap string float :=
  match dens_paths !! k, calc_paths !! k with
  | Some dfile, Some cfile =>
      match avg_density (lines dfile) with
      | Raise _ => ∅
      | Ok dens =>
          match last_diff_visc (lines cfile) with
          | Raise _ => {[ "density" := dens ]}
          | Ok (diff, visc) =>
              <["viscosity" := visc]>
                (<["self_diffusion" := diff]> {[ "density" := dens ]})
          end
      end
  | _, _ => ∅
  end.

(** The directory [sims/<name>] under the root. *)
Definition condition_dir (name : string) : Path :=
  [ {| name := name; is_dir := true |};
    {| name := "sims"; is_dir := true |};
    {| name := ""; is_dir := true |} ].

Definition density_313 : found_file :=
  {| parent := condition_dir "T_313_P_1";
     lines := text_file ["1 2 3 1000.0"; "1 2 3 1002.0"; "# comment"] |}.

Definition calc_313 : found_file :=
  {| parent := condition_dir "T_313_P_1";
     lines := text_file ["time:0, D[H2O]:1e-9, viscosity:0.5";
                         "time:1, D[H2O]:2e-9, viscosity:0.6"] |}.

Definition density_350 : found_file :=
  {| parent := condition_dir "T_350_P_1";
     lines := text_file ["1 2 3 998.5"] |}.

Definition density_400_empty : found_file :=
  {| parent := condition_dir "T_400_P_1";
     lines := text_file ["# no data yet"] |}.

Definition calc_400 : found_file :=
  {| parent := condition_dir "T_400_P_1";
     lines := text_file ["time:1, D[H2O]:3e-9, viscosity:0.4"] |}.



(** ** Vocabulary of the further properties *)

(** A directory entry at which [find_tp_ancestor] stops: a directory whose
    name the pattern takes. *)
Definition accepted (d : dir_entry) : bool :=
  is_dir d && bool_decide (is_Some (TP_DIR_RE_match (name d))).

(** The float that a segment with a colon gives to its key. *)
Definition field_value (item : string) : option float :=
  match Py.split_once ":" (Py.strip item) with
  | [_; val] =>
      match Float.of_string (Py.strip val) with
      | Ok x => Some x
      | Raise _ => None
      end
  | _ => None
  end.

(** The value of the last segment of [line] that defines the key [k]. *)
Definition last_value (k : string) (line : string) : option float :=
  last (filter (fun item => field_key item = Some k) (Py.split_on "," line))
    ≫= field_value.

(** The strict order of the keys: by temperature, then by pressure. *)
Definition key_lt (a b : key) : Prop :=
  (a.1 < b.1)%N ∨ (a.1 = b.1 ∧ (a.2 < b.2)%N).

(** The blocks begun so far: the finished ones and the current one. *)
Definition begun (st : rdf_state) : nat :=
  length (fst st) + match snd st with Some _ => 1 | None => 0 end.

(** What [np.array] builds from the rows of a block: a table with at least
    one row, or the empty one-dimensional array. *)
Definition from_rows (b : ndarray) : Prop :=
  match b with
  | Nd1 xs => xs = []
  | Nd2 rows => rows ≠ []
  end.


(** [n] zeros. *)
Fixpoint zeros (n : nat) : string :=
  match n with
  | 0 => ""
  | S n' => String "0" (zeros n')
  end.

(** A directory with the given name. *)
Definition directory (name : string) : dir_entry :=
  {| name := name; is_dir := true |}.

(** Row [i] of the table with the columns [r], [g77], [g88] and [g78]. *)
Definition table_row (r g77 g88 g78 : list float) (i : nat) : option (list float) :=
  a ← r !! i; b ← g77 !! i; c ← g88 !! i; d ← g78 !! i; Some [a; b; c; d].

(** An RDF file that gets output: it lies under a condition directory and
    [process_rdf] returns for it. *)
Definition rdf_good (f : found_file) : bool :=
  match key_of f with
  | Some _ => is_ok (process_rdf (lines f))
  | None => false
  end.

(** The number of the files of [fs] with the key [k] that get output. *)
Definition rank (k : key) (fs : list found_file) : N :=
  N.of_nat (length (filter (fun f => key_of f = Some k ∧ rdf_good f = true) fs)).

Definition written_name (w : Outputs.written) : string :=
  match w with
  | Outputs.Figure name _ _ _ _ => name
  | Outputs.Data name _ _ => name
  end.

(** What the names written so far look like: each is the name of a figure
    or of a table for an index that the counter of its key has reached. *)
Definition names_counted (c : gmap key N) (files : list Outputs.written) : Prop :=
  Forall (fun w =>
            ∃ T P idx, (1 ≤ idx ≤ default 0%N (c !! (T, P)))%N
                       ∧ (written_name w = Outputs.png_name T P idx
                          ∨ written_name w = Outputs.dat_name T P idx))
         files.


(** Examples of RDF files: two of one condition, the second in a
    directory below the condition directory, and one whose first kept line
    is a data row. *)
Definition rdf_313 : found_file :=
  {| parent := condition_dir "T_313_P_1";
     lines := text_file ["# g(r)"; "100 2"; "1 0.5 1 2 3 4 5"; "2 1.5 1 2 3 4 5"] |}.

Definition rdf_313_rerun : found_file :=
  {| parent := directory "rerun" :: condition_dir "T_313_P_1";
     lines := text_file ["100 1"; "1 0.5 2 2 4 4 6"] |}.

Definition rdf_313_broken : found_file :=
  {| parent := condition_dir "T_313_P_1";
     lines := text_file ["1 0.5 1 2 3 4 5"; "100 2"] |}.

(** The point of an item of [records] that has its three fields. *)
Definition complete_point (item : key * gmap string float) : option Outputs.point :=
  dens ← item.2 !! "density";
  diff ← item.2 !! "self_diffusion";
  visc ← item.2 !! "viscosity";
  Some (item.1.1, dens, diff, visc).

(** The points of the items with the pressure [P], in the order of the
    items. *)
Definition points_at (P : N) (items : list (key * gmap string float))
  : list Outputs.point :=
  omap complete_point (filter (fun item => item.1.2 = P) items).

(** The curve of the pressure [P] in a figure of the quantity [y]: its
    label, and the points [pts] of that pressure by increasing temperature. *)
Definition is_curve (items : list (key * gmap string float))
    (y : Outputs.point → float) (P : N) (c : Outputs.curve) : Prop :=
  Outputs.label c = "P=" +:+ pretty P +:+ " bar"
  ∧ ∃ pts, pts ≡ₚ points_at P items
           ∧ StronglySorted N.lt (map Outputs.temperature pts)
           ∧ Outputs.Ts c = map Outputs.temperature pts
           ∧ Outputs.Ys c = map y pts.

(** Examples of records: one with its three fields, one with the density
    only. *)
Definition record_complete : gmap string float :=
  <["viscosity" := lit "0.6"]>
    (<["self_diffusion" := lit "2e-9"]> {["density" := lit "1001.0"]}).

Definition record_density_only : gmap string float :=
  {["density" := lit "998.5"]}.

(** A string without an underscore and without a line feed. *)
Definition plain_char (c : ascii) : bool :=
  negb (Ascii.eqb c "_") && negb (Ascii.eqb c (ascii_of_nat 10)).

Fixpoint plain (s : string) : bool :=
  match s with
  | EmptyString => true
  | String c s' => plain_char c && plain s'
  end.

(** A Python [int] that is not negative. *)
Definition natural (v : CreateFiles.number) : Prop :=
  ∃ n : N, v = CreateFiles.Int (Z.of_N n).

(** The ranges that the loop of [create_directories_with_files] runs over. *)
Definition temps_of (temp_range : list CreateFiles.number)
    (constant_temp : option CreateFiles.number) : list CreateFiles.number :=
  match constant_temp with Some t => [t] | None => temp_range end.

Definition pressures_of (pressure_range : option (list CreateFiles.number))
    (constant_pressure : option CreateFiles.number) : list CreateFiles.number :=
  match constant_pressure with
  | Some p => [p]
  | None => default [CreateFiles.Flt (lit "1.01325")] pressure_range
  end.

(** A Python [int]. *)
Definition is_int (v : CreateFiles.number) : bool :=
  match v with
  | CreateFiles.Int _ => true
  | CreateFiles.Flt _ => false
  end.

(** * Lemmas *)

Global Arguments Py.strip : simpl never.
Global Arguments Py.startswith : simpl never.
Global Arguments Py.split : simpl never.
Global Arguments Py.split_on : simpl never.
Global Arguments Py.split_once : simpl never.
Global Arguments Py.contains : simpl never.
Global Arguments Py.is_space : simpl never.
Global Arguments Float.of_string : simpl never.
Global Arguments Float.add : simpl never.
Global Arguments Float.div : simpl never.
Global Arguments Float.of_nat : simpl never.
Global Arguments density_step : simpl never.
Global Arguments field_step : simpl never.
Global Arguments rdf_step : simpl never.
Global Arguments scan_step : simpl never.
Global Arguments aggregate_step : simpl never.
Global Arguments mean_of_column : simpl never.

(** Decide a closed decidable proposition by evaluation. *)
Ltac by_evaluation :=
  match goal with
  | |- ?P => apply (bool_decide_unpack P); vm_compute; exact I
  end.

(** ** Strings *)

Section StringFacts.

Lemma lstrip_head s c r : Py.lstrip s = String c r → Py.is_space c = false.
Proof.
  induction s as [|a s IH]; simpl; [discriminate|].
  destruct (Py.is_space a) eqn:Ha; [exact IH|].
  intros [= -> _]. exact Ha.
Qed.

Lemma strip_head s c r : Py.strip s = String c r → Py.is_space c = false.
Proof.
  unfold Py.strip. destruct (Py.lstrip s) as [|a t] eqn:Hl; simpl; [discriminate|].
  apply lstrip_head in Hl. rewrite Hl. simpl. by intros [= <- _].
Qed.

Lemma split_head c s :
  Py.is_space c = false → ∃ w ts, Py.split (String c s) = w :: ts.
Proof.
  intros Hc. unfold Py.split. simpl. destruct (Py.split_go s) as [w ts].
  rewrite Hc. simpl. eauto.
Qed.

(** A line that is not blank has a last token. *)
Lemma last_item_strip s :
  Py.is_empty (Py.strip s) = false →
  ∃ tok, last (Py.split (Py.strip s)) = Some tok.
Proof.
  destruct (Py.strip s) as [|c r] eqn:Hs; [discriminate|]. intros _.
  destruct (split_head c r (strip_head _ _ _ Hs)) as (w & ts & ->).
  destruct (last (w :: ts)) eqn:Hlast; [eauto|].
  by apply last_None in Hlast.
Qed.

Lemma of_string_raise s e :
  Float.of_string s = Raise e → ∃ msg, e = ValueError msg.
Proof.
  unfold Float.of_string.
  destruct (_ ≫= _); [discriminate|]. intros [= <-]. eauto.
Qed.

End StringFacts.

(** ** Floats: well-formed results, doubling and halving *)

Section Doubling.

Local Open Scope Z_scope.

Lemma fexp_binary64 z : fexp Float.prec Float.emax z = Z.max (z - 53) (-1074).
Proof. reflexivity. Qed.

Lemma digits2_log2 p : Zpos (digits2_pos p) = Z.log2 (Zpos p) + 1.
Proof.
  induction p as [p IH|p IH|].
  - change (digits2_pos p~1) with (Pos.succ (digits2_pos p)).
    rewrite Pos2Z.inj_succ, IH.
    change (Z.pos p~1) with (2 * Z.pos p + 1).
    rewrite Z.log2_succ_double by lia. lia.
  - change (digits2_pos p~0) with (Pos.succ (digits2_pos p)).
    rewrite Pos2Z.inj_succ, IH.
    change (Z.pos p~0) with (2 * Z.pos p).
    rewrite Z.log2_double by lia. lia.
  - reflexivity.
Qed.

(** The number of binary digits, through its bounds. *)
Lemma Zdigits2_bounds m :
  0 < m → 2 ^ (Zdigits2 m - 1) <= m < 2 ^ Zdigits2 m.
Proof.
  intros Hm. destruct m as [|p|p]; try lia.
  cbn [Zdigits2]. rewrite digits2_log2.
  replace (Z.log2 (Z.pos p) + 1 - 1) with (Z.log2 (Z.pos p)) by lia.
  replace (Z.log2 (Z.pos p) + 1) with (Z.succ (Z.log2 (Z.pos p))) by lia.
  apply Z.log2_spec. lia.
Qed.

Lemma Zdigits2_unique m d :
  0 < d → 2 ^ (d - 1) <= m < 2 ^ d → Zdigits2 m = d.
Proof.
  intros Hd Hm. assert (0 < m) by (pose proof (Z.pow_pos_nonneg 2 (d - 1)); lia).
  destruct m as [|p|p]; try lia.
  cbn [Zdigits2]. rewrite digits2_log2.
  rewrite (Z.log2_unique (Z.pos p) (d - 1)); [lia|lia|].
  replace (Z.succ (d - 1)) with d by lia. exact Hm.
Qed.

Lemma Zdigits2_nonneg m : 0 <= Zdigits2 m.
Proof. destruct m; cbn [Zdigits2]; lia. Qed.

Lemma Zdigits2_pos m : 0 < m → 0 < Zdigits2 m.
Proof. destruct m; cbn [Zdigits2]; lia. Qed.

Lemma shr_1_m mrs : 0 <= shr_m mrs → shr_m (shr_1 mrs) = shr_m mrs / 2.
Proof.
  destruct mrs as [m r s]. cbn [shr_m]. intros Hm.
  destruct m as [|[p|p|]|p]; cbn [shr_1 shr_m]; try lia.
  - reflexivity.
  - change (Z.pos p~1) with (2 * Z.pos p + 1). 
    rewrite Z.mul_comm, Z.div_add_l by lia. change (1 / 2) with 0. lia.
  - change (Z.pos p~0) with (2 * Z.pos p). 
    rewrite Z.mul_comm, Z.div_mul by lia. reflexivity.
  - reflexivity.
Qed.

Lemma iter_shr_m n : forall mrs,
  0 <= shr_m mrs → shr_m (SpecFloat.iter_pos shr_1 n mrs) = shr_m mrs / 2 ^ Zpos n.
Proof.
  induction n as [n IH|n IH|]; intros mrs Hm; cbn [SpecFloat.iter_pos].
  - assert (0 <= shr_m (shr_1 mrs)) as H1 by (rewrite shr_1_m by lia; apply Z.div_pos; lia).
    assert (0 <= shr_m (SpecFloat.iter_pos shr_1 n (shr_1 mrs))) as H2
      by (rewrite IH by lia; apply Z.div_pos; [lia|apply Z.pow_pos_nonneg; lia]).
    rewrite IH, IH, shr_1_m by lia.
    rewrite !Z.div_div by (try apply Z.pow_pos_nonneg; lia).
    replace (Z.pos n~1) with (1 + Z.pos n + Z.pos n) by lia.
    rewrite !Z.pow_add_r by lia. rewrite Z.pow_1_r, Z.mul_assoc. reflexivity.
  - assert (0 <= shr_m (SpecFloat.iter_pos shr_1 n mrs)) as H2
      by (rewrite IH by lia; apply Z.div_pos; [lia|apply Z.pow_pos_nonneg; lia]).
    rewrite IH, IH by lia.
    rewrite !Z.div_div by (try apply Z.pow_pos_nonneg; lia).
    replace (Z.pos n~0) with (Z.pos n + Z.pos n) by lia.
    rewrite !Z.pow_add_r by lia. reflexivity.
  - rewrite shr_1_m by lia. reflexivity.
Qed.

(** What [shr] does to the mantissa and to the exponent. *)
Lemma shr_spec mrs e n :
  0 <= shr_m mrs →
  shr_m (fst (shr mrs e n)) = shr_m mrs / 2 ^ Z.max n 0
  ∧ snd (shr mrs e n) = e + Z.max n 0.
Proof.
  intros Hm. unfold shr. destruct n as [|p|p]; cbn [fst snd].
  - change (Z.max 0 0) with 0. rewrite Z.div_1_r. lia.
  - rewrite iter_shr_m by lia. replace (Z.max (Z.pos p) 0) with (Z.pos p) by lia. lia.
  - replace (Z.max (Z.neg p) 0) with 0 by lia. rewrite Z.div_1_r. lia.
Qed.

Lemma shr_record_of_loc_m m l : shr_m (shr_record_of_loc m l) = m.
Proof. destruct l as [|[| |]]; reflexivity. Qed.

Lemma round_nearest_even_cases m l :
  round_nearest_even m l = m ∨ round_nearest_even m l = m + 1.
Proof.
  destruct l as [|[| |]]; cbn [round_nearest_even]; try (left; reflexivity).
  - destruct (Z.even m); [left|right]; reflexivity.
  - right; reflexivity.
Qed.

Lemma Zdigits2_shift m n :
  0 <= m → 0 <= n → Zdigits2 (m / 2 ^ n) = Z.max (Zdigits2 m - n) 0.
Proof.
  intros Hm Hn. destruct (Z.eq_dec m 0) as [->|Hne].
  - rewrite Z.div_0_l by (apply Z.pow_nonzero; lia). cbn [Zdigits2]. lia.
  - pose proof (Zdigits2_bounds m ltac:(lia)) as [Hlo Hhi].
    pose proof (Zdigits2_pos m ltac:(lia)) as Hd.
    assert (0 < 2 ^ n) as Hp by (apply Z.pow_pos_nonneg; lia).
    destruct (Z.le_gt_cases (Zdigits2 m) n) as [Hge|Hlt].
    + rewrite Z.div_small; [cbn [Zdigits2]; lia|].
      split; [lia|]. eapply Z.lt_le_trans; [exact Hhi|].
      apply Z.pow_le_mono_r; lia.
    + replace (Z.max (Zdigits2 m - n) 0) with (Zdigits2 m - n) by lia.
      apply Zdigits2_unique; [lia|]. split.
      * apply Z.div_le_lower_bound; [lia|].
        rewrite <- Z.pow_add_r by lia.
        replace (n + (Zdigits2 m - n - 1)) with (Zdigits2 m - 1) by lia. exact Hlo.
      * apply Z.div_lt_upper_bound; [lia|].
        rewrite <- Z.pow_add_r by lia.
        replace (n + (Zdigits2 m - n)) with (Zdigits2 m) by lia. exact Hhi.
Qed.

Lemma Zdigits2_succ m :
  0 <= m →
  Zdigits2 (m + 1) = Zdigits2 m
  ∨ (Zdigits2 (m + 1) = Zdigits2 m + 1 ∧ m + 1 = 2 ^ Zdigits2 m).
Proof.
  intros Hm. destruct (Z.eq_dec m 0) as [->|Hne]; [right; split; reflexivity|].
  pose proof (Zdigits2_bounds m ltac:(lia)) as [Hlo Hhi].
  pose proof (Zdigits2_pos m ltac:(lia)) as Hd.
  destruct (Z.eq_dec (m + 1) (2 ^ Zdigits2 m)) as [Heq|Hneq].
  - right. split; [|exact Heq]. apply Zdigits2_unique; [lia|].
    replace (Zdigits2 m + 1 - 1) with (Zdigits2 m) by lia.
    rewrite Heq. split; [lia|]. apply Z.pow_lt_mono_r; lia.
  - left. apply Zdigits2_unique; [lia|]. lia.
Qed.

Lemma round_aux_valid s mx ex lx :
  0 <= mx → ex <= fexp Float.prec Float.emax (Zdigits2 mx + ex) →
  valid_binary Float.prec Float.emax (binary_round_aux Float.prec Float.emax s mx ex lx) = true.
Proof.
  intros Hmx Hpre. unfold binary_round_aux, shr_fexp.
  destruct (shr (shr_record_of_loc mx lx) ex _) as [mrs' e'] eqn:H1.
  pose proof (shr_spec (shr_record_of_loc mx lx) ex
                (fexp Float.prec Float.emax (Zdigits2 mx + ex) - ex)) as S1.
  rewrite H1, shr_record_of_loc_m in S1. cbn [fst snd] in S1.
  destruct (S1 Hmx) as [Hm' He']. clear S1 H1.
  replace (Z.max (fexp Float.prec Float.emax (Zdigits2 mx + ex) - ex) 0)
    with (fexp Float.prec Float.emax (Zdigits2 mx + ex) - ex) in Hm', He' by lia.
  assert (0 <= shr_m mrs') as Hm'0
    by (rewrite Hm'; apply Z.div_pos; [lia|apply Z.pow_pos_nonneg; lia]).
  pose proof (Zdigits2_shift mx (fexp Float.prec Float.emax (Zdigits2 mx + ex) - ex) Hmx
                ltac:(lia)) as Hd'.
  rewrite <- Hm' in Hd'.
  set (m1 := round_nearest_even (shr_m mrs') (loc_of_shr_record mrs')).
  assert (0 <= m1) as Hm1
    by (destruct (round_nearest_even_cases (shr_m mrs') (loc_of_shr_record mrs'));
        unfold m1; lia).
  destruct (shr (shr_record_of_loc m1 loc_Exact) e' _) as [mrs'' e''] eqn:H2.
  pose proof (shr_spec (shr_record_of_loc m1 loc_Exact) e'
                (fexp Float.prec Float.emax (Zdigits2 m1 + e') - e')) as S2.
  rewrite H2, shr_record_of_loc_m in S2. cbn [fst snd] in S2.
  destruct (S2 Hm1) as [Hm'' He'']. clear S2 H2.
  destruct (shr_m mrs'') as [|m|m] eqn:Hres; try reflexivity.
  destruct (Z.leb_spec e'' (Float.emax - Float.prec)) as [Hle|Hgt]; [|reflexivity].
  cbn [valid_binary]. unfold bounded, canonical_mantissa.
  apply andb_true_iff. split; [|apply Z.leb_le; exact Hle].
  apply Z.eqb_eq. change (Z.pos (digits2_pos m)) with (Zdigits2 (Z.pos m)).
  rewrite Hm'', He''.
  pose proof (Zdigits2_nonneg mx) as Hdmx.
  rewrite !fexp_binary64 in *.
  assert (Zdigits2 m1 = Zdigits2 (shr_m mrs')
          ∨ (Zdigits2 m1 = Zdigits2 (shr_m mrs') + 1
              ∧ m1 = 2 ^ Zdigits2 (shr_m mrs'))) as Hd1.
  { destruct (round_nearest_even_cases (shr_m mrs') (loc_of_shr_record mrs')) as [E|E];
      fold m1 in E; rewrite E; [left; reflexivity|].
    apply Zdigits2_succ. exact Hm'0. }
  destruct Hd1 as [Hd1|[Hd1 Hpow]].
  - replace (Z.max (Z.max (Zdigits2 m1 + e' - 53) (-1074) - e') 0) with 0 by lia.
    rewrite Z.div_1_r. lia.
  - destruct (Z.eq_dec (Z.max (Zdigits2 m1 + e' - 53) (-1074) - e') 1) as [Hn2|Hn2].
    + rewrite Hn2. change (Z.max 1 0) with 1.
      assert (1 <= Zdigits2 (shr_m mrs')) as Hd'1 by lia.
      rewrite Hpow.
      replace (2 ^ Zdigits2 (shr_m mrs')) with (2 ^ (Zdigits2 (shr_m mrs') - 1) * 2 ^ 1)
        by (rewrite <- Z.pow_add_r by lia; f_equal; lia).
      rewrite Z.div_mul by lia.
      rewrite (Zdigits2_unique (2 ^ (Zdigits2 (shr_m mrs') - 1)) (Zdigits2 (shr_m mrs')));
        [lia|lia|].
      split; [lia|]. apply Z.pow_lt_mono_r; lia.
    + replace (Z.max (Z.max (Zdigits2 m1 + e' - 53) (-1074) - e') 0) with 0 by lia.
      rewrite Z.div_1_r. lia.
Qed.

Lemma iter_xO m d : Zpos (Pos.iter xO m d) = Zpos m * 2 ^ Zpos d.
Proof.
  induction d as [|d IH] using Pos.peano_ind.
  - cbn [Pos.iter]. lia.
  - rewrite Pos.iter_succ, Pos2Z.inj_xO, IH, Pos2Z.inj_succ, Z.pow_succ_r; lia.
Qed.

Lemma Zdigits2_mul_pow2 m d :
  0 < m → 0 <= d → Zdigits2 (m * 2 ^ d) = Zdigits2 m + d.
Proof.
  intros Hm Hd. pose proof (Zdigits2_bounds m Hm) as [Hlo Hhi].
  pose proof (Zdigits2_pos m Hm).
  assert (0 < 2 ^ d) by (apply Z.pow_pos_nonneg; lia).
  apply Zdigits2_unique; [lia|]. split.
  - replace (Zdigits2 m + d - 1) with (Zdigits2 m - 1 + d) by lia.
    rewrite Z.pow_add_r by lia. apply Z.mul_le_mono_nonneg_r; lia.
  - rewrite Z.pow_add_r by lia. apply Z.mul_lt_mono_pos_r; lia.
Qed.

Lemma binary_round_valid s mx ex :
  valid_binary Float.prec Float.emax (binary_round Float.prec Float.emax s mx ex) = true.
Proof.
  unfold binary_round, shl_align.
  destruct (fexp Float.prec Float.emax (Z.pos (digits2_pos mx) + ex) - ex) as [|d|d] eqn:Hd;
    apply round_aux_valid; try lia.
  - cbn [Zdigits2]. lia.
  - cbn [Zdigits2]. lia.
  - rewrite iter_xO, Zdigits2_mul_pow2 by lia. cbn [Zdigits2].
    replace (Z.pos (digits2_pos mx) + Z.pos d +
             fexp Float.prec Float.emax (Z.pos (digits2_pos mx) + ex))
      with (Z.pos (digits2_pos mx) + ex) by lia.
    lia.
Qed.

Lemma div_core_spec m1 e1 m2 e2 q e' l :
  SFdiv_core_binary Float.prec Float.emax (Zpos m1) e1 (Zpos m2) e2 = (q, e', l) →
  0 <= q ∧ e' <= fexp Float.prec Float.emax (Zdigits2 q + e').
Proof.
  unfold SFdiv_core_binary.
  set (d1 := Zdigits2 (Z.pos m1)). set (d2 := Zdigits2 (Z.pos m2)).
  set (x := fexp Float.prec Float.emax (d1 + e1 - (d2 + e2))).
  set (e0 := Z.min x (e1 - e2)). set (sh := e1 - e2 - e0).
  assert (0 <= sh) as Hsh by (unfold sh, e0; lia).
  set (m' := match sh with Z.pos _ => Z.shiftl (Z.pos m1) sh | 0 => Z.pos m1 | Z.neg _ => 0 end).
  assert (m' = Z.pos m1 * 2 ^ sh) as Hm'.
  { unfold m'. destruct sh as [|p|p] eqn:E; [lia| |lia].
    rewrite Z.shiftl_mul_pow2 by lia. reflexivity. }
  clearbody m'.
  pose proof (Z_div_mod m' (Z.pos m2) ltac:(lia)) as Hdiv.
  destruct (Z.div_eucl m' (Z.pos m2)) as [q0 r0] eqn:Hqr.
  intros [= <- <- _]. destruct Hdiv as [Heq Hr0].
  assert (0 < 2 ^ sh) as Hp by (apply Z.pow_pos_nonneg; lia).
  assert (0 <= q0) as Hq by nia.
  split; [exact Hq|].
  rewrite fexp_binary64. destruct (Z.le_gt_cases e0 (-1074)) as [Hsmall|Hbig]; [lia|].
  assert (53 - d1 + d2 <= sh) as Hs
    by (unfold sh, e0, x in *; rewrite fexp_binary64 in *; lia).
  pose proof (Zdigits2_bounds (Z.pos m1) ltac:(lia)) as [Hlo1 _]. fold d1 in Hlo1.
  pose proof (Zdigits2_bounds (Z.pos m2) ltac:(lia)) as [_ Hhi2]. fold d2 in Hhi2.
  pose proof (Zdigits2_pos (Z.pos m1) ltac:(lia)) as Hd1. fold d1 in Hd1.
  pose proof (Zdigits2_pos (Z.pos m2) ltac:(lia)) as Hd2. fold d2 in Hd2.
  assert (2 ^ 52 * 2 ^ d2 <= m') as Hbound.
  { rewrite Hm', <- Z.pow_add_r by lia.
    apply Z.le_trans with (2 ^ (d1 - 1) * 2 ^ sh).
    - rewrite <- Z.pow_add_r by lia. apply Z.pow_le_mono_r; lia.
    - apply Z.mul_le_mono_nonneg_r; lia. }
  assert (2 ^ 52 <= q0) as Hq52.
  { assert (2 ^ 52 * Z.pos m2 < (q0 + 1) * Z.pos m2); [|nia].
    assert (0 < 2 ^ 52) by reflexivity. nia. }
  assert (53 <= Zdigits2 q0) as Hdq.
  { pose proof (Zdigits2_bounds q0 ltac:(lia)) as [_ Hhi].
    destruct (Z.le_gt_cases 53 (Zdigits2 q0)); [assumption|exfalso].
    assert (2 ^ Zdigits2 q0 <= 2 ^ 52) by (apply Z.pow_le_mono_r; lia). lia. }
  lia.
Qed.

Lemma div_valid x y : valid_binary Float.prec Float.emax (SFdiv Float.prec Float.emax x y) = true.
Proof.
  destruct x as [sx|sx| |sx mx ex], y as [sy|sy| |sy my ey]; try reflexivity.
  unfold SFdiv.
  destruct (SFdiv_core_binary Float.prec Float.emax (Z.pos mx) ex (Z.pos my) ey) as [[q e'] l] eqn:Hcore.
  destruct (div_core_spec _ _ _ _ _ _ _ Hcore) as [Hq He].
  apply round_aux_valid; assumption.
Qed.

Lemma normalize_valid z e sz :
  valid_binary Float.prec Float.emax (binary_normalize Float.prec Float.emax z e sz) = true.
Proof. destruct z; [reflexivity|apply binary_round_valid..]. Qed.

Lemma of_decimal_valid neg m e :
  valid_binary Float.prec Float.emax (Float.of_decimal neg m e) = true.
Proof.
  unfold Float.of_decimal, Float.of_Z. destruct m as [|p]; [reflexivity|].
  destruct e; try apply normalize_valid. apply div_valid.
Qed.

(** Every float that [float(s)] returns is a well-formed binary64 number. *)
Lemma of_string_valid s x :
  Float.of_string s = Ok x → valid_binary Float.prec Float.emax x = true.
Proof.
  unfold Float.of_string.
  destruct (Float.drop_underscores None (Py.strip s)) as [t|]; cbn [mbind option_bind];
    [|discriminate].
  destruct (Float.take_sign t) as [neg body].
  destruct (_ || _); [by intros [= <-]|].
  destruct (bool_decide _); [by intros [= <-]|].
  destruct (Float.decimal body) as [[m e]|]; cbn [mbind option_bind]; [|discriminate].
  intros [= <-]. apply of_decimal_valid.
Qed.


Lemma digits2_double m : Zpos (digits2_pos (xO m)) = Zpos (digits2_pos m) + 1.
Proof. simpl. lia. Qed.

Lemma shl_align_id m e e' : e <= e' → shl_align m e e' = (m, e).
Proof.
  intros H. unfold shl_align. destruct (e' - e) eqn:Hd; try reflexivity. lia.
Qed.

(** Rounding leaves a mantissa that is already in place as it is. *)
Lemma round_in_place s m e :
  fexp Float.prec Float.emax (Zpos (digits2_pos m) + e) = e → e <= 971 →
  binary_round_aux Float.prec Float.emax s (Zpos m) e loc_Exact = S754_finite s m e.
Proof.
  intros Hc He. unfold binary_round_aux, shr_fexp.
  cbn [Zdigits2]. rewrite Hc, Z.sub_diag.
  cbn [shr shr_record_of_loc shr_m loc_of_shr_record round_nearest_even Zdigits2].
  rewrite Hc, Z.sub_diag. cbn [shr shr_m].
  unfold Float.prec, Float.emax.
  destruct (Z.leb_spec e (1024 - 53)); [reflexivity|lia].
Qed.

(** Rounding an even mantissa that is one bit too long drops the bit. *)
Lemma round_one_bit s m e :
  fexp Float.prec Float.emax (Zpos (digits2_pos m) + 1 + e) = e + 1 → e + 1 <= 971 →
  binary_round_aux Float.prec Float.emax s (Zpos (xO m)) e loc_Exact
  = S754_finite s m (e + 1).
Proof.
  intros Hc He. unfold binary_round_aux, shr_fexp.
  cbn [Zdigits2]. rewrite digits2_double, Hc.
  replace (e + 1 - e) with 1 by lia.
  cbn [shr SpecFloat.iter_pos shr_record_of_loc shr_1 orb shr_m loc_of_shr_record
       round_nearest_even Zdigits2].
  replace (Zpos (digits2_pos m) + (e + 1)) with (Zpos (digits2_pos m) + 1 + e) by lia.
  rewrite Hc, Z.sub_diag. cbn [shr shr_m].
  unfold Float.prec, Float.emax.
  destruct (Z.leb_spec (e + 1) (1024 - 53)); [reflexivity|lia].
Qed.

(** A well-formed finite float is normal, with 53 bits, or subnormal, with
    the least exponent. *)
Lemma bounded_cases m e :
  bounded Float.prec Float.emax m e = true →
  e <= 971 ∧
  ((Zpos (digits2_pos m) = 53 ∧ -1074 <= e)
   ∨ (Zpos (digits2_pos m) < 53 ∧ e = -1074)).
Proof.
  unfold bounded, canonical_mantissa.
  rewrite andb_true_iff, Z.eqb_eq, Z.leb_le, fexp_binary64.
  unfold Float.prec, Float.emax. lia.
Qed.

Lemma add_self s m e :
  bounded Float.prec Float.emax m e = true → Zpos (digits2_pos m) + e < 1024 →
  Float.add (S754_finite s m e) (S754_finite s m e) =
  if (Zpos (digits2_pos m) =? 53) then S754_finite s m (e + 1)
  else S754_finite s (xO m) e.
Proof.
  intros Hb Hmag. destruct (bounded_cases m e Hb) as [He Hcase].
  unfold Float.add, SFadd. rewrite Z.min_id, shl_align_id by lia. cbn [fst].
  assert (binary_normalize Float.prec Float.emax
            (cond_Zopp s (Z.pos m) + cond_Zopp s (Z.pos m)) e false
          = binary_round Float.prec Float.emax s (xO m) e) as ->.
  { replace (cond_Zopp s (Z.pos m) + cond_Zopp s (Z.pos m))
      with (cond_Zopp s (Z.pos (xO m))) by (destruct s; simpl; lia).
    destruct s; reflexivity. }
  unfold binary_round. rewrite digits2_double.
  rewrite shl_align_id by (rewrite fexp_binary64; lia).
  destruct Hcase as [[Hd Hmin]|[Hd ->]].
  - rewrite Hd. cbn [Z.eqb Pos.eqb].
    apply round_one_bit; [rewrite fexp_binary64|]; lia.
  - destruct (Z.eqb_spec (Zpos (digits2_pos m)) 53); [lia|].
    apply round_in_place; [rewrite digits2_double, fexp_binary64|]; lia.
Qed.

Lemma div_core_normal m e M :
  SFdiv_core_binary Float.prec Float.emax (Zpos m) (e + 1) (Zpos M) (-51)
  = SFdiv_core_binary Float.prec Float.emax (Zpos m) e (Zpos M) (-52).
Proof.
  unfold SFdiv_core_binary.
  replace (Zdigits2 (Z.pos m) + (e + 1) - (Zdigits2 (Z.pos M) + -51))
    with (Zdigits2 (Z.pos m) + e - (Zdigits2 (Z.pos M) + -52)) by lia.
  replace (e + 1 - -51) with (e - -52) by lia. reflexivity.
Qed.

Lemma div_core_subnormal m M :
  Zpos (digits2_pos m) < 53 → Zpos (digits2_pos M) = 53 →
  SFdiv_core_binary Float.prec Float.emax (Zpos (xO m)) (-1074) (Zpos M) (-51)
  = SFdiv_core_binary Float.prec Float.emax (Zpos m) (-1074) (Zpos M) (-52).
Proof.
  intros Hd HM. unfold SFdiv_core_binary. cbn [Zdigits2].
  rewrite digits2_double, HM, !fexp_binary64.
  replace (Z.min _ (-1074 - -51)) with (-1074) by lia.
  replace (Z.min _ (-1074 - -52)) with (-1074) by lia.
  change (-1074 - -51 - -1074) with 51. change (-1074 - -52 - -1074) with 52.
  cbv iota beta.
  replace (Z.shiftl (Z.pos m~0) 51) with (Z.shiftl (Z.pos m) 52); [reflexivity|].
  rewrite !Z.shiftl_mul_pow2 by lia. change (2 ^ 52) with (2 * 2 ^ 51). lia.
Qed.

Lemma of_nat_2 : Float.of_nat 2 = S754_finite false 4503599627370496 (-51).
Proof. vm_compute. reflexivity. Qed.

Lemma of_nat_1 : Float.of_nat 1 = S754_finite false 4503599627370496 (-52).
Proof. vm_compute. reflexivity. Qed.

(** [(x + x) / 2 = x / 1] for every well-formed float whose double does
    not overflow. *)
Lemma doubling_safe_halving_exact x : doubling_safe x = true → halving_exact x.
Proof.
  unfold halving_exact. rewrite of_nat_2, of_nat_1.
  destruct x as [s|s| |s m e];
    unfold doubling_safe, well_formed; cbn [valid_binary below_half_max].
  - intros _. destruct s; reflexivity.
  - intros _. destruct s; reflexivity.
  - reflexivity.
  - rewrite andb_true_iff, Z.ltb_lt. intros [Hb Hmag].
    rewrite add_self by assumption.
    destruct (bounded_cases m e Hb) as [He [[Hd Hmin]|[Hd ->]]].
    + rewrite Hd. cbn [Z.eqb Pos.eqb]. unfold Float.div, SFdiv.
      rewrite div_core_normal. reflexivity.
    + destruct (Z.eqb_spec (Zpos (digits2_pos m)) 53); [lia|].
      unfold Float.div, SFdiv.
      rewrite div_core_subnormal by (assumption || reflexivity). reflexivity.
Qed.

End Doubling.

(** ** The directory pattern *)

Section Pattern.

Lemma append_empty_l s : "" +:+ s = s.
Proof. reflexivity. Qed.

Lemma append_cons c s t : String c s +:+ t = String c (s +:+ t).
Proof. reflexivity. Qed.

Lemma append_empty_r s : s +:+ "" = s.
Proof. induction s as [|c s IH]; [done|]. by rewrite append_cons, IH. Qed.

Lemma strip_prefix_Some p s r : Py.strip_prefix p s = Some r ↔ s = p +:+ r.
Proof.
  revert s. induction p as [|a p IH]; intros s; cbn [Py.strip_prefix].
  - rewrite append_empty_l. split; [by intros [= ->]|by intros ->].
  - rewrite append_cons. destruct s as [|b s]; [split; discriminate|].
    destruct (Ascii.eqb_spec a b) as [->|Hne].
    + rewrite IH. split; [by intros ->|by intros [= ->]].
    + split; [discriminate|]. intros [= ? ?]. done.
Qed.

Lemma span_digits_split s d r :
  Py.span_digits s = (d, r) →
  s = d +:+ r ∧ all_digits d = true ∧ no_leading_digit r.
Proof.
  revert d r. induction s as [|c s IH]; intros d r; cbn [Py.span_digits].
  - intros [= <- <-]. done.
  - destruct (Py.is_digit c) eqn:Hc.
    + destruct (Py.span_digits s) as [d' r'] eqn:Hs. intros [= <- <-].
      destruct (IH _ _ eq_refl) as (-> & Hd & Hr).
      rewrite append_cons. cbn [all_digits]. by rewrite Hc, Hd.
    + intros [= <- <-]. rewrite append_empty_l. cbn [all_digits no_leading_digit]. done.
Qed.

Lemma span_digits_app d r :
  all_digits d = true → no_leading_digit r → Py.span_digits (d +:+ r) = (d, r).
Proof.
  intros Hd Hr. induction d as [|c d IH].
  - rewrite append_empty_l. destruct r as [|c r]; [done|].
    cbn [no_leading_digit Py.span_digits] in *. by rewrite Hr.
  - rewrite append_cons. cbn [all_digits Py.span_digits] in *.
    apply andb_true_iff in Hd as [-> Hd]. by rewrite IH.
Qed.

Lemma is_empty_false s : Py.is_empty s = false ↔ s ≠ "".
Proof. destruct s; simpl; split; done. Qed.

(** The names that the pattern takes: [T_], digits, [_P_], digits, and
    then the end of the name or one line feed that ends it. *)
Lemma TP_DIR_RE_match_Some s g1 g2 :
  TP_DIR_RE_match s = Some (g1, g2) ↔
  g1 ≠ "" ∧ g2 ≠ "" ∧ all_digits g1 = true ∧ all_digits g2 = true
  ∧ (s = "T_" +:+ g1 +:+ "_P_" +:+ g2 ∨ s = "T_" +:+ g1 +:+ "_P_" +:+ g2 +:+ Py.nl).
Proof.
  unfold TP_DIR_RE_match. split.
  - destruct (Py.strip_prefix "T_" s) as [r0|] eqn:H0; [|discriminate].
    apply strip_prefix_Some in H0 as ->. cbn [mbind option_bind].
    destruct (Py.span_digits r0) as [d1 r1] eqn:H1.
    apply span_digits_split in H1 as (-> & Hd1 & _).
    destruct (Py.is_empty d1) eqn:He1; [discriminate|].
    destruct (Py.strip_prefix "_P_" r1) as [r2|] eqn:H2; [|discriminate].
    apply strip_prefix_Some in H2 as ->. cbn [mbind option_bind].
    destruct (Py.span_digits r2) as [d2 r3] eqn:H3.
    apply span_digits_split in H3 as (-> & Hd2 & _).
    destruct (Py.is_empty d2) eqn:He2; [discriminate|].
    destruct (_ || _) eqn:Hend; [|discriminate]. intros [= <- <-].
    apply is_empty_false in He1, He2. repeat (split; [done|]).
    apply orb_true_iff in Hend as [Hend|Hend]; apply bool_decide_eq_true in Hend;
      subst r3; [left|right]; [by rewrite append_empty_r|done].
  - intros (Hg1 & Hg2 & Hd1 & Hd2 & Hs).
    apply is_empty_false in Hg1, Hg2.
    assert (∀ tail, tail = "" ∨ tail = Py.nl →
              (r0 ← Py.strip_prefix "T_" ("T_" +:+ g1 +:+ "_P_" +:+ g2 +:+ tail);
               let '(g1', r1) := Py.span_digits r0 in
               if Py.is_empty g1' then None
               else
                 r2 ← Py.strip_prefix "_P_" r1;
                 let '(g2', r3) := Py.span_digits r2 in
                 if Py.is_empty g2' then None
                 else if bool_decide (r3 = "") || bool_decide (r3 = Py.nl)
                      then Some (g1', g2') else None) = Some (g1, g2)) as Hrun.
    { intros tail Htail.
      rewrite (proj2 (strip_prefix_Some "T_" _ _) eq_refl). cbn [mbind option_bind].
      rewrite span_digits_app by done. rewrite Hg1.
      rewrite (proj2 (strip_prefix_Some "_P_" _ _) eq_refl). cbn [mbind option_bind].
      rewrite span_digits_app by (destruct Htail as [-> | ->]; done).
      rewrite Hg2. by destruct Htail as [-> | ->]. }
    destruct Hs as [-> | ->].
    + rewrite <- (append_empty_r g2) at 1. apply Hrun. by left.
    + apply Hrun. by right.
Qed.

End Pattern.

(** ** The density parser *)

Section Density.

Lemma density_step_sample total n line :
  density_step (total, n) line =
  Ok (match sample line with
      | Some x => (Float.add total x, S n)
      | None => (total, n)
      end).
Proof.
  unfold density_step, sample, retained.
  destruct (Py.is_empty (Py.strip line)) eqn:He; simpl; [done|].
  destruct (Py.startswith "#" (Py.strip line)); simpl; [done|].
  destruct (last_item_strip _ He) as [tok Htok].
  unfold Py.last_item. rewrite Htok. simpl.
  destruct (Float.of_string tok) as [x|e] eqn:Hf; [done|].
  destruct (of_string_raise _ _ Hf) as [msg ->]. done.
Qed.

Lemma density_loop lines total n :
  foldM density_step (total, n) lines =
  Ok (fold_left Float.add (samples lines) total, (n + length (samples lines))%nat).
Proof.
  revert total n. induction lines as [|line lines IH]; intros total n; simpl.
  - by rewrite Nat.add_0_r.
  - rewrite density_step_sample. unfold samples. simpl.
    destruct (sample line) as [x|]; simpl; rewrite IH; [|done].
    unfold samples. by rewrite Nat.add_succ_r.
Qed.

Lemma avg_density_samples lines :
  avg_density lines =
  match samples lines with
  | [] => Raise (ValueError "No density data lines found")
  | _ :: _ => Ok (mean (samples lines))
  end.
Proof.
  unfold avg_density. rewrite density_loop. simpl.
  destruct (samples lines); done.
Qed.

End Density.

(** ** The key/value parser *)

Section KeyValue.

Lemma last_step_fold lines init :
  fold_left last_step lines init =
  match final_line lines with
  | Some s => Some s
  | None => init
  end.
Proof.
  unfold final_line.
  induction lines as [|line lines IH] using rev_ind; [done|].
  rewrite fold_left_app, filter_app. simpl. rewrite IH.
  unfold last_step at 1. fold (retained line).
  rewrite filter_cons, filter_nil. destruct (retained line) eqn:Hr.
  - rewrite decide_True by done. by rewrite last_snoc.
  - rewrite decide_False by (by intros [=]). by rewrite app_nil_r.
Qed.

Lemma last_diff_visc_final lines :
  last_diff_visc lines =
  match final_line lines with
  | None => Raise (ValueError "No data lines found")
  | Some s => parse_last s
  end.
Proof.
  unfold last_diff_visc. rewrite last_step_fold.
  destruct (final_line lines); done.
Qed.

Lemma final_line_singleton line :
  retained line = true → final_line [line] = Some (Py.strip line).
Proof.
  intros Hr. unfold final_line. rewrite filter_cons, filter_nil.
  by rewrite decide_True.
Qed.

Lemma split_once_contains sep s :
  Py.contains sep s = true → ∃ k v, Py.split_once sep s = [k; v].
Proof.
  unfold Py.contains, Py.split_once.
  induction s as [|c s IH]; [discriminate|].
  destruct (Ascii.eqb c sep); simpl; [eauto|].
  intros H. destruct (IH H) as (k & v & ->). eauto.
Qed.

Lemma field_step_skip fields item :
  Py.contains ":" (Py.strip item) = false → field_step fields item = Ok fields.
Proof. unfold field_step. by intros ->. Qed.

Lemma field_step_raise fields item e :
  field_step fields item = Raise e → ∃ msg, e = ValueError msg.
Proof.
  unfold field_step. destruct (Py.contains _ _); simpl; [|discriminate].
  destruct (Py.split_once _ _) as [|k [|v [|? ?]]]; try (intros [= <-]; by eauto).
  destruct (Float.of_string _) eqn:Hf; simpl; [discriminate|].
  intros [= <-]. eapply of_string_raise, Hf.
Qed.

Lemma field_step_malformed fields item :
  malformed_value item = true → ∃ msg, field_step fields item = Raise (ValueError msg).
Proof.
  unfold malformed_value, field_step.
  destruct (Py.contains _ _); simpl; [|discriminate].
  destruct (Py.split_once _ _) as [|k [|v [|? ?]]]; try discriminate.
  destruct (Float.of_string _) eqn:Hf; simpl; [discriminate|]. intros _.
  destruct (of_string_raise _ _ Hf) as [msg ->]. eauto.
Qed.

Lemma field_step_key fields item fields' k :
  field_step fields item = Ok fields' →
  is_Some (fields' !! k) → is_Some (fields !! k) ∨ field_key item = Some k.
Proof.
  unfold field_step, field_key.
  destruct (Py.contains _ _); simpl; [|intros [= <-]; by left].
  destruct (Py.split_once _ _) as [|key [|v [|? ?]]]; try discriminate.
  destruct (Float.of_string _); simpl; [|discriminate]. intros [= <-].
  destruct (decide (Py.strip key = k)) as [->|Hne]; [by right|].
  rewrite lookup_insert_ne by done. by left.
Qed.

Lemma fields_loop_malformed items item fields :
  item ∈ items → malformed_value item = true →
  ∃ msg, foldM field_step fields items = Raise (ValueError msg).
Proof.
  intros Hin Hbad. revert fields.
  induction items as [|a items IH]; intros fields; [by apply elem_of_nil in Hin|].
  simpl. destruct (field_step fields a) as [fields'|e] eqn:Hstep; simpl.
  - apply elem_of_cons in Hin as [->|Hin]; [|by apply IH].
    destruct (field_step_malformed fields a Hbad) as [msg Hmsg]. congruence.
  - destruct (field_step_raise _ _ _ Hstep) as [msg ->]. eauto.
Qed.

Lemma fields_loop_keys items fields fields' k :
  foldM field_step fields items = Ok fields' →
  is_Some (fields' !! k) → is_Some (fields !! k) ∨ k ∈ omap field_key items.
Proof.
  revert fields. induction items as [|a items IH]; intros fields; simpl.
  - intros [= <-]. by left.
  - destruct (field_step fields a) as [fields1|] eqn:Hstep; simpl; [|discriminate].
    intros Hloop Hk. destruct (IH _ Hloop Hk) as [Hk1|Hin].
    + destruct (field_step_key _ _ _ _ Hstep Hk1) as [?|Ha]; [by left|right].
      rewrite Ha. apply elem_of_cons. by left.
    + right. destruct (field_key a); [apply elem_of_cons; by right|done].
Qed.

Lemma fields_loop_skip items1 item items2 fields :
  Py.contains ":" (Py.strip item) = false →
  foldM field_step fields (items1 ++ item :: items2) =
  foldM field_step fields (items1 ++ items2).
Proof.
  intros Hskip. revert fields. induction items1 as [|a items1 IH]; intros fields; simpl.
  - by rewrite field_step_skip.
  - destruct (field_step fields a); simpl; [apply IH|done].
Qed.

Lemma parse_last_missing last k :
  k ∈ ["D[H2O]"; "viscosity"] → k ∉ field_keys last →
  ∃ e, parse_last last = Raise e.
Proof.
  intros Hk Hmiss. unfold parse_last, parse_fields.
  destruct (foldM _ _ _) as [fields|e] eqn:Hloop; simpl; [|by eauto].
  assert (fields !! k = None) as Hnone.
  { destruct (fields !! k) eqn:Hl; [|done]. exfalso.
    destruct (fields_loop_keys _ _ _ k Hloop) as [Hempty|Hin]; [by eauto| |done].
    rewrite lookup_empty in Hempty. by destruct Hempty. }
  unfold getitem.
  apply elem_of_cons in Hk as [->|Hk].
  - rewrite Hnone. simpl. eauto.
  - apply list_elem_of_singleton in Hk as ->.
    destruct (fields !! "D[H2O]"); simpl; [|by eauto].
    rewrite Hnone. simpl. eauto.
Qed.

End KeyValue.

(** ** The RDF parser *)

Section Rdf.

Lemma foldM_app {A S : Type} (step : S → A → result S) st xs ys :
  foldM step st (xs ++ ys) = (st' ← foldM step st xs; foldM step st' ys).
Proof.
  revert st. induction xs as [|x xs IH]; intros st; simpl; [done|].
  destruct (step st x); simpl; [apply IH|done].
Qed.

Lemma traverse_Ok {A B : Type} (f : A → result B) xs ys :
  traverse f xs = Ok ys ↔ Forall2 (fun x y => f x = Ok y) xs ys.
Proof.
  revert ys. induction xs as [|x xs IH]; intros ys; simpl.
  - split; [intros [= <-]; constructor|by inversion 1].
  - split.
    + destruct (f x) as [y|] eqn:Hx; simpl; [|discriminate].
      destruct (traverse f xs) as [ys'|] eqn:Hxs; simpl; [|discriminate].
      intros [= <-]. constructor; [done|]. by apply IH.
    + inversion 1 as [|? y ? ys' Hx Hxs]; subst. rewrite Hx. simpl.
      apply IH in Hxs. rewrite Hxs. done.
Qed.

Lemma rdf_step_skipped st line :
  rdf_skipped line = true → rdf_step st line = Ok st.
Proof. unfold rdf_skipped, rdf_step. by intros ->. Qed.

Lemma rdf_step_header st line :
  is_header line = true →
  rdf_step st line = (blocks ← close_block st; Ok (blocks, Some [])).
Proof.
  unfold is_header, rdf_skipped, rdf_step.
  destruct (_ || _); simpl; [discriminate|]. by intros ->.
Qed.

Lemma rdf_step_data blocks current line :
  is_data line = true →
  rdf_step (blocks, current) line =
  match current with
  | None => Raise (AttributeError "'NoneType' object has no attribute 'append'")
  | Some rows =>
      row ← traverse Float.of_string (Py.split line);
      Ok (blocks, Some (rows ++ [row]))
  end.
Proof.
  unfold is_data, rdf_skipped, rdf_step.
  destruct (_ || _); simpl; [discriminate|].
  destruct (_ =? _)%nat; simpl; [discriminate|]. done.
Qed.

Lemma rdf_loop_skipped st lines :
  Forall (fun l => rdf_skipped l = true) lines → foldM rdf_step st lines = Ok st.
Proof.
  induction 1 as [|l lines Hl _ IH]; simpl; [done|].
  by rewrite rdf_step_skipped.
Qed.

Lemma line_kinds line :
  is_header line = false →
  rdf_skipped line = true ∨ (rdf_skipped line = false ∧ is_data line = true).
Proof.
  unfold is_header, is_data. destruct (rdf_skipped line); simpl; [by left|].
  intros ->. by right.
Qed.

(** The lines after a header, up to the next one, add their rows to the
    current block. *)
Lemma rdf_loop_rows blocks rows lines :
  Forall (fun l => is_header l = false) lines →
  foldM rdf_step (blocks, Some rows) lines =
  (rs ← rows_of lines; Ok (blocks, Some (rows ++ rs))).
Proof.
  intros Hlines. revert rows. unfold rows_of.
  induction Hlines as [|l lines Hl _ IH]; intros rows; simpl.
  - by rewrite app_nil_r.
  - rewrite filter_cons. destruct (line_kinds l Hl) as [Hs|[Hs Hd]].
    + rewrite rdf_step_skipped by done. simpl. rewrite IH.
      rewrite decide_False by congruence. done.
    + rewrite rdf_step_data by done. rewrite decide_True by done. simpl.
      destruct (traverse Float.of_string (Py.split l)) as [row|]; simpl; [|done].
      rewrite IH. destruct (traverse _ (filter _ lines)); simpl; [|done].
      by rewrite <- app_assoc.
Qed.

(** The blocks of a file that is one block. *)
Lemma rdf_blocks_single header lines :
  is_header header = true → Forall (fun l => is_header l = false) lines →
  rdf_blocks (header :: lines) = (rs ← rows_of lines; b ← Np.array rs; Ok [b]).
Proof.
  intros Hh Hl. unfold rdf_blocks. simpl. rewrite rdf_step_header by done. simpl.
  rewrite rdf_loop_rows by done.
  destruct (rows_of lines); simpl; [|done]. destruct (Np.array _); done.
Qed.

(** The blocks of a file that is the same block twice. *)
Lemma rdf_blocks_double header lines :
  is_header header = true → Forall (fun l => is_header l = false) lines →
  rdf_blocks ((header :: lines) ++ header :: lines) =
  (rs ← rows_of lines; b ← Np.array rs; Ok [b; b]).
Proof.
  intros Hh Hl. unfold rdf_blocks. rewrite foldM_app. simpl.
  rewrite rdf_step_header by done. simpl. rewrite rdf_loop_rows by done.
  destruct (rows_of lines) as [rs|] eqn:Hrs; simpl; [|done].
  rewrite rdf_step_header by done. simpl.
  destruct (Np.array rs) as [b|] eqn:Hb; simpl; [|done].
  rewrite rdf_loop_rows by done. rewrite Hrs. simpl. by rewrite Hb.
Qed.

(** A data row before any header line raises at once. *)
Lemma rdf_blocks_no_header pre line post :
  Forall (fun l => rdf_skipped l = true) pre → is_data line = true →
  rdf_blocks (pre ++ line :: post) =
  Raise (AttributeError "'NoneType' object has no attribute 'append'").
Proof.
  intros Hpre Hdata. unfold rdf_blocks. rewrite foldM_app.
  rewrite rdf_loop_skipped by done. simpl. by rewrite rdf_step_data.
Qed.


End Rdf.

(** ** Columns and their means *)

Section RdfMeans.

Lemma forallb_same_length {A : Type} (c : list A) (cs : list (list A)) :
  forallb (fun c' => length c' =? length c)%nat cs = true
  ↔ Forall (fun c' => length c' = length c) cs.
Proof.
  induction cs as [|c' cs IH]; simpl.
  - split; [constructor|done].
  - rewrite andb_true_iff, Nat.eqb_eq, IH, Forall_cons. done.
Qed.

Lemma column_length k b c : Np.column k b = Ok c → length c = nrows b.
Proof.
  destruct b as [xs|rows]; simpl; [discriminate|].
  destruct (mapM _ rows) as [c'|] eqn:Hm; [|discriminate].
  intros [= <-]. symmetry. by eapply length_mapM.
Qed.



Lemma add_columns_lookup cs :
  ∀ c i x,
    Forall (fun c' => length c' = length c) cs → c !! i = Some x →
    ∃ xs, Forall2 (fun c' x' => c' !! i = Some x') cs xs
          ∧ fold_left Np.add cs c !! i = Some (fold_left Float.add xs x).
Proof.
  induction cs as [|c' cs IH]; intros c i x Hlen Hx; simpl.
  - exists []. split; [constructor|done].
  - apply Forall_cons in Hlen as [Hc' Hlen].
    destruct (lookup_lt_is_Some_2 c' i) as [x' Hx'].
    { rewrite Hc'. by eapply lookup_lt_Some. }
    destruct (IH (Np.add c c') i (Float.add x x')) as (xs & Hxs & Hsum).
    + unfold Np.add. rewrite length_zip_with_l_eq by done. done.
    + unfold Np.add. rewrite lookup_zip_with, Hx, Hx'. done.
    + exists (x' :: xs). split; [by constructor|done].
Qed.

Lemma add_columns_length cs :
  ∀ c, Forall (fun c' => length c' = length c) cs →
       length (fold_left Np.add cs c) = length c.
Proof.
  induction cs as [|c' cs IH]; intros c Hlen; simpl; [done|].
  apply Forall_cons in Hlen as [Hc' Hlen].
  assert (length (Np.add c c') = length c) as Hadd.
  { unfold Np.add. by rewrite length_zip_with_l_eq. }
  rewrite IH; [done|]. by rewrite Hadd.
Qed.

Lemma add_neg_zero_l x : Float.add (S754_zero true) x = x.
Proof. by destruct x as [[]|[]| |]. Qed.

(** Columns of one entry, one after the other, are their entries. *)
Lemma concat_singletons cs xs :
  Forall (fun c' : list float => length c' = 1) cs →
  Forall2 (fun c' x' => c' !! 0 = Some x') cs xs →
  concat cs = xs.
Proof.
  intros Hlen Hxs. induction Hxs as [|c' x' cs xs Hx _ IH]; [done|].
  apply Forall_cons in Hlen as [Hc' Hlen].
  destruct c' as [|y [|? ?]]; try discriminate. injection Hx as ->.
  simpl. by rewrite IH.
Qed.

(** Each entry of [mean_axis0 c cs] is the mean of the entries of the
    columns at the same place. *)
Lemma mean_axis0_lookup c cs g :
  Np.mean_axis0 c cs = Ok g →
  Forall (fun c' => length c' = length c) cs
  ∧ length g = length c
  ∧ ∀ i x, c !! i = Some x →
      ∃ xs, Forall2 (fun c' x' => c' !! i = Some x') cs xs
            ∧ g !! i = Some (mean_from (length c) x xs).
Proof.
  unfold Np.mean_axis0.
  destruct (forallb _ cs) eqn:Hlen; [|discriminate].
  apply forallb_same_length in Hlen.
  destruct ((length c =? 1)%nat && (8 <=? S (length cs))%nat) eqn:Hpw;
    intros [= <-]; (split; [done|]).
  - apply andb_true_iff in Hpw as [Hone Hmany]. apply Nat.eqb_eq in Hone.
    split; [by rewrite Hone|]. intros i x Hx.
    assert (i = 0) as -> by (apply lookup_lt_Some in Hx; lia).
    destruct (add_columns_lookup cs c 0 x Hlen Hx) as (xs & Hxs & _).
    exists xs. split; [done|]. unfold mean_from, sum_over_blocks.
    rewrite Hone, <- (Forall2_length _ _ _ Hxs), Hmany. simpl.
    rewrite add_neg_zero_l. do 3 f_equal.
    destruct c as [|y [|? ?]]; try discriminate. injection Hx as ->. simpl.
    f_equal. apply concat_singletons; [|done].
    eapply Forall_impl; [exact Hlen|]. simpl. intros c' Hc'. by rewrite Hc'.
  - split; [by rewrite length_map, add_columns_length|].
    intros i x Hx. destruct (add_columns_lookup cs c i x Hlen Hx) as (xs & Hxs & Hsum).
    exists xs. split; [done|]. rewrite list_lookup_fmap, Hsum. simpl.
    unfold mean_from, sum_over_blocks.
    by rewrite <- (Forall2_length _ _ _ Hxs), Hpw.
Qed.




(** The fuel of [pairwise_sum] is enough when it is at least the number
    of the values. *)
Lemma pairwise_halves (n : nat) :
  (128 < n)%nat →
  (0 < n / 2 - (n / 2) mod 8 ∧ n / 2 - (n / 2) mod 8 < n)%nat.
Proof.
  intros Hn.
  assert (64 ≤ n / 2)%nat as Hhalf by (apply Nat.div_le_lower_bound; lia).
  pose proof (Nat.mod_upper_bound (n / 2) 8).
  pose proof (Nat.div_lt n 2). lia.
Qed.

Lemma pairwise_sum_fuel (fuel fuel' : nat) (a : list float) :
  (length a ≤ fuel)%nat → (length a ≤ fuel')%nat →
  Np.pairwise_sum fuel a = Np.pairwise_sum fuel' a.
Proof.
  revert fuel' a. induction fuel as [|fuel IH]; intros fuel' a Hf Hf'.
  - destruct a; [|simpl in Hf; lia]. by destruct fuel'.
  - destruct fuel' as [|fuel']; [destruct a; [done|simpl in Hf'; lia]|].
    cbn [Np.pairwise_sum]. destruct (length a <? 8)%nat; [done|].
    destruct (length a <=? 128)%nat eqn:Hsmall; [done|].
    apply Nat.leb_gt in Hsmall. destruct (pairwise_halves _ Hsmall) as [Hpos Hlt].
    f_equal; apply IH; rewrite ?length_take, ?length_drop; lia.
Qed.

(** The equation of [pairwise_sum] in numpy. *)
Lemma pairwise_unfold a :
  Np.pairwise a =
  let n := length a in
  if (n <? 8)%nat then fold_left Float.add a (S754_zero true)
  else if (n <=? 128)%nat then Np.pairwise_block a
  else
    let n2 := (n / 2 - (n / 2) mod 8)%nat in
    Float.add (Np.pairwise (take n2 a)) (Np.pairwise (drop n2 a)).
Proof.
  unfold Np.pairwise at 1. destruct a as [|x a]; [done|].
  cbn [length Np.pairwise_sum]. cbv zeta.
  destruct (S (length a) <? 8)%nat; [done|].
  destruct (S (length a) <=? 128)%nat eqn:Hsmall; [done|].
  apply Nat.leb_gt in Hsmall. destruct (pairwise_halves _ Hsmall) as [Hpos Hlt].
  unfold Np.pairwise.
  f_equal; apply pairwise_sum_fuel; rewrite ?length_take, ?length_drop;
    simpl in *; lia.
Qed.

(** Eight blocks of one row are added pairwise: the mean of [1e16] and
    seven times [1.0] is [(1e16 + 6) / 8], where adding them in order
    would give [1e16 / 8]. *)
Lemma mean_of_eight_single_rows :
  Np.mean_axis0 [lit "1e16"] (replicate 7 [lit "1.0"])
  = Ok [lit "1250000000000000.75"]
  ∧ Float.div (fold_left Float.add (replicate 7 (lit "1.0")) (lit "1e16"))
              (Float.of_nat 8)
    = lit "1.25e15".
Proof. split; vm_compute; reflexivity. Qed.

End RdfMeans.

(** ** Validation and duplication of blocks *)

Section RdfBlocks.

Lemma foldM_invariant {A S : Type} (step : S → A → result S) (P : S → Prop) :
  (∀ st x st', P st → step st x = Ok st' → P st') →
  ∀ xs st st', P st → foldM step st xs = Ok st' → P st'.
Proof.
  intros Hstep. induction xs as [|x xs IH]; intros st st' Hst; simpl.
  - by intros [= <-].
  - destruct (step st x) as [st1|] eqn:Hx; simpl; [|discriminate].
    apply IH. by eapply Hstep.
Qed.






Lemma mean_of_column_single k b :
  mean_of_column k b [] =
  (c ← Np.column k b; Ok (map (fun t => Float.div t (Float.of_nat 1)) c)).
Proof.
  unfold mean_of_column. simpl. destruct (Np.column k b) as [c|]; simpl; [|done].
  unfold Np.mean_axis0. simpl. by rewrite andb_false_r.
Qed.

Lemma mean_of_column_double k b :
  mean_of_column k b [b] =
  (c ← Np.column k b;
   Ok (map (fun t => Float.div t (Float.of_nat 2)) (Np.add c c))).
Proof.
  unfold mean_of_column. simpl. destruct (Np.column k b) as [c|]; simpl; [|done].
  unfold Np.mean_axis0. simpl. by rewrite Nat.eqb_refl, andb_false_r.
Qed.

Lemma halve_doubled c :
  Forall halving_exact c →
  map (fun t => Float.div t (Float.of_nat 2)) (Np.add c c) =
  map (fun t => Float.div t (Float.of_nat 1)) c.
Proof.
  unfold Np.add. induction 1 as [|x c Hx _ IH]; simpl; [done|].
  by rewrite Hx, IH.
Qed.

Lemma traverse_Forall {A B : Type} (f : A → result B) (P : B → Prop) xs ys :
  (∀ x y, f x = Ok y → P y) → traverse f xs = Ok ys → Forall P ys.
Proof.
  intros Hf Hxs. apply traverse_Ok in Hxs.
  induction Hxs; constructor; eauto.
Qed.

Lemma rows_of_well_formed lines rs :
  rows_of lines = Ok rs → Forall (Forall (fun x => well_formed x = true)) rs.
Proof.
  unfold rows_of. apply traverse_Forall. intros l row.
  apply traverse_Forall. intros tok x. apply of_string_valid.
Qed.

Lemma array_well_formed rs b :
  Forall (Forall (fun x => well_formed x = true)) rs →
  Np.array rs = Ok b → block_well_formed b.
Proof.
  intros Hrs. unfold Np.array. destruct rs as [|r rs']; [by intros [= <-]; constructor|].
  destruct (forallb _ rs'); [|discriminate]. by intros [= <-].
Qed.

Lemma column_well_formed k b c :
  block_well_formed b → Np.column k b = Ok c →
  Forall (fun x => well_formed x = true) c.
Proof.
  destruct b as [xs|rows]; simpl; [discriminate|]. intros Hrows.
  destruct (mapM _ rows) as [c'|] eqn:Hm; [|discriminate]. intros [= <-].
  apply mapM_Some in Hm. induction Hm as [|row x rows' c' Hx _ IH]; [constructor|].
  apply Forall_cons in Hrows as [Hrow Hrows]. constructor; [|by apply IH].
  apply (proj1 (Forall_forall _ _) Hrow). by eapply list_elem_of_lookup_2.
Qed.

Lemma designated_well_formed b :
  block_well_formed b → Forall (fun x => well_formed x = true) (designated b).
Proof.
  intros Hb. unfold designated.
  destruct (Np.column 2 b) eqn:H2; [|constructor].
  destruct (Np.column 4 b) eqn:H4; [|constructor].
  destruct (Np.column 6 b) eqn:H6; [|constructor].
  rewrite !Forall_app. repeat split; by eapply column_well_formed.
Qed.

(** The values of a block read from a file are well-formed floats. *)
Lemma single_block_well_formed header rows b :
  is_header header = true → Forall (fun l => is_header l = false) rows →
  rdf_blocks (header :: rows) = Ok [b] → block_well_formed b.
Proof.
  intros Hh Hrows Hblocks. rewrite (rdf_blocks_single header rows Hh Hrows) in Hblocks.
  destruct (rows_of rows) as [rs|] eqn:Hrs; simpl in Hblocks; [|discriminate].
  destruct (Np.array rs) as [b'|] eqn:Hb; simpl in Hblocks; [|discriminate].
  injection Hblocks as <-. eapply array_well_formed; [|exact Hb].
  by apply (rows_of_well_formed rows).
Qed.

End RdfBlocks.

(** ** Scanning and aggregation *)

Section Aggregation.

Implicit Types (paths : gmap key found_file) (k : key).
Implicit Types (records : gmap key (gmap string float)).

Lemma setdefault_keeps {V : Type} k k' (v v' : V) (d : gmap key V) :
  d !! k' = Some v' → setdefault k v d !! k' = Some v'.
Proof.
  intros Hk'. unfold setdefault. destruct (d !! k) eqn:Hk; [done|].
  rewrite lookup_insert_ne; [done|]. intros ->. congruence.
Qed.

Lemma setdefault_lookup {V : Type} k k' (v : V) (d : gmap key V) :
  setdefault k v d !! k' =
  match d !! k' with
  | Some v' => Some v'
  | None => if decide (k = k') then Some v else None
  end.
Proof.
  unfold setdefault. destruct (decide (k = k')) as [->|Hne].
  - destruct (d !! k') eqn:Hk'; [done|]. by rewrite lookup_insert_eq.
  - destruct (d !! k) eqn:Hk; [by destruct (d !! k')|].
    rewrite lookup_insert_ne by done. by destruct (d !! k').
Qed.

Lemma scan_step_key paths f :
  scan_step paths f =
  match key_of f with
  | Some k => setdefault k f paths
  | None => paths
  end.
Proof.
  unfold scan_step, key_of.
  destruct (find_tp_ancestor (parent f)) as [[[T P] ?]|]; done.
Qed.

(** The scan keeps, for each key, the first file found with that key. *)
Lemma scan_loop_first found paths k :
  fold_left scan_step found paths !! k =
  match paths !! k with
  | Some f => Some f
  | None => head (filter (fun f => key_of f = Some k) found)
  end.
Proof.
  revert paths. induction found as [|f found IH]; intros paths; simpl.
  - by destruct (paths !! k).
  - rewrite IH, scan_step_key, filter_cons.
    destruct (key_of f) as [k'|] eqn:Hf.
    + rewrite setdefault_lookup. destruct (paths !! k); [done|].
      destruct (decide (k' = k)) as [->|Hne].
      * by rewrite decide_True.
      * rewrite decide_False by congruence. done.
    + rewrite decide_False by done. done.
Qed.

Lemma scan_loop_keeps found paths k f :
  paths !! k = Some f → fold_left scan_step found paths !! k = Some f.
Proof. intros Hk. by rewrite scan_loop_first, Hk. Qed.

Variables dens_paths calc_paths : gmap key found_file.

Local Abbreviation step := (aggregate_step dens_paths calc_paths).

Lemma set_field_other k k' field x records :
  k ≠ k' → set_field k field x records !! k' = records !! k'.
Proof. intros Hne. unfold set_field. by rewrite lookup_alter_ne. Qed.

Lemma set_field_same k field x records :
  set_field k field x records !! k = insert field x <$> records !! k.
Proof. unfold set_field. by rewrite lookup_alter_eq. Qed.

Lemma aggregate_step_other records k k' :
  k ≠ k' → step records k !! k' = records !! k'.
Proof.
  intros Hne. unfold aggregate_step.
  assert (setdefault k ∅ records !! k' = records !! k') as Hset.
  { rewrite setdefault_lookup. rewrite decide_False by done.
    by destruct (records !! k'). }
  destruct (dens_paths !! k) as [dfile|]; [|done].
  destruct (calc_paths !! k) as [cfile|]; [|done].
  destruct (avg_density _); [|done].
  destruct (last_diff_visc _) as [[diff visc]|];
    by rewrite ?set_field_other.
Qed.

Lemma aggregate_step_fresh records k :
  records !! k = None →
  step records k !! k = Some (expected_record dens_paths calc_paths k).
Proof.
  intros Hk. unfold aggregate_step, expected_record.
  assert (setdefault k ∅ records !! k = Some ∅) as Hset.
  { rewrite setdefault_lookup, Hk. by rewrite decide_True. }
  destruct (dens_paths !! k) as [dfile|]; [|done].
  destruct (calc_paths !! k) as [cfile|]; [|done].
  destruct (avg_density _); [|done].
  destruct (last_diff_visc _) as [[diff visc]|];
    rewrite !set_field_same, Hset; done.
Qed.

Lemma aggregate_loop_other ks records k :
  k ∉ ks → fold_left step ks records !! k = records !! k.
Proof.
  revert records. induction ks as [|a ks IH]; intros records Hk; simpl; [done|].
  apply not_elem_of_cons in Hk as [Hne Hk].
  rewrite IH by done. by apply aggregate_step_other.
Qed.

Lemma aggregate_loop_expected ks records k :
  NoDup ks → k ∈ ks → records !! k = None →
  fold_left step ks records !! k
  = Some (expected_record dens_paths calc_paths k).
Proof.
  intros Hnd. revert records.
  induction Hnd as [|a ks Ha Hnd IH]; intros records Hin Hk; simpl.
  - by apply elem_of_nil in Hin.
  - apply elem_of_cons in Hin as [->|Hin].
    + rewrite aggregate_loop_other by done. by apply aggregate_step_fresh.
    + apply IH; [done|]. rewrite aggregate_step_other; [done|]. by intros ->.
Qed.

Lemma aggregate_loop_None ks records k :
  k ∉ ks → records !! k = None → fold_left step ks records !! k = None.
Proof. intros. by rewrite aggregate_loop_other. Qed.

Lemma all_keys_NoDup : NoDup (all_keys dens_paths calc_paths).
Proof.
  unfold all_keys, sorted_keys. rewrite merge_sort_Permutation.
  apply NoDup_elements.
Qed.

Lemma elem_of_all_keys k :
  k ∈ all_keys dens_paths calc_paths ↔ k ∈ dom dens_paths ∪ dom calc_paths.
Proof.
  unfold all_keys, sorted_keys. rewrite merge_sort_Permutation.
  apply elem_of_elements.
Qed.

(** The records of a run: one for each key of either search. *)
Lemma aggregate_lookup k :
  aggregate dens_paths calc_paths !! k =
  if decide (k ∈ dom dens_paths ∪ dom calc_paths)
  then Some (expected_record dens_paths calc_paths k)
  else None.
Proof.
  unfold aggregate. destruct (decide _) as [Hin|Hout].
  - apply aggregate_loop_expected;
      [apply all_keys_NoDup|by apply elem_of_all_keys|apply lookup_empty].
  - apply aggregate_loop_None; [by rewrite elem_of_all_keys|apply lookup_empty].
Qed.



(** A field that is set after some of the keys have been processed is
    still set, to the same value, after any further keys. *)
Lemma aggregate_loop_monotone pre post k field x :
  NoDup (pre ++ post) →
  (fold_left step pre ∅ !! k ≫= (.!! field)) = Some x →
  (fold_left step (pre ++ post) ∅ !! k ≫= (.!! field)) = Some x.
Proof.
  intros Hnd Hset. rewrite fold_left_app.
  destruct (decide (k ∈ pre)) as [Hin|Hout].
  - apply NoDup_app in Hnd as (_ & Hdisj & _).
    rewrite aggregate_loop_other; [done|]. by apply Hdisj.
  - rewrite aggregate_loop_other, lookup_empty in Hset by done. done.
Qed.

End Aggregation.

(** ** Ancestors *)

Section Ancestors.

Lemma accepted_false d :
  accepted d = false →
  is_dir d = false ∨ TP_DIR_RE_match (name d) = None.
Proof.
  unfold accepted. destruct (is_dir d); [|by left]. simpl.
  intros H. right. apply bool_decide_eq_false in H.
  destruct (TP_DIR_RE_match (name d)); [|done]. destruct H. eauto.
Qed.

Lemma find_tp_ancestor_skip d p :
  accepted d = false → find_tp_ancestor (d :: p) = find_tp_ancestor p.
Proof.
  intros [Hd|Hm]%accepted_false; cbn [find_tp_ancestor]; rewrite ?Hd, ?Hm; [done|].
  by destruct (is_dir d).
Qed.

Lemma find_tp_ancestor_none p :
  Forall (fun d => accepted d = false) p → find_tp_ancestor p = None.
Proof.
  induction 1 as [|d p Hd _ IH]; [done|]. by rewrite find_tp_ancestor_skip.
Qed.

Lemma find_tp_ancestor_first pre d rest g1 g2 :
  Forall (fun x => accepted x = false) pre →
  is_dir d = true → TP_DIR_RE_match (name d) = Some (g1, g2) →
  find_tp_ancestor (pre ++ d :: rest) = Some (Py.int g1, Py.int g2, d :: rest).
Proof.
  intros Hpre Hd Hm. induction Hpre as [|x pre Hx _ IH]; simpl.
  - by rewrite Hd, Hm.
  - change (find_tp_ancestor (x :: pre ++ d :: rest) = Some (Py.int g1, Py.int g2, d :: rest)).
    by rewrite find_tp_ancestor_skip.
Qed.

Lemma find_tp_ancestor_Some p T P q :
  find_tp_ancestor p = Some (T, P, q) →
  ∃ pre d rest g1 g2,
    p = pre ++ q ∧ q = d :: rest
    ∧ Forall (fun x => accepted x = false) pre
    ∧ is_dir d = true ∧ TP_DIR_RE_match (name d) = Some (g1, g2)
    ∧ T = Py.int g1 ∧ P = Py.int g2.
Proof.
  induction p as [|x p IH]; [discriminate|].
  destruct (accepted x) eqn:Hx.
  - unfold accepted in Hx. apply andb_true_iff in Hx as [Hd Hm].
    apply bool_decide_eq_true in Hm as [[g1 g2] Hm].
    cbn [find_tp_ancestor]. rewrite Hd, Hm. intros [= <- <- <-].
    exists [], x, p, g1, g2. repeat split; done.
  - rewrite find_tp_ancestor_skip by done. intros H.
    destruct (IH H) as (pre & d & rest & g1 & g2 & -> & -> & Hpre & ?).
    exists (x :: pre), d, rest, g1, g2. repeat split; try tauto.
    by constructor.
Qed.

End Ancestors.

(** ** Not-a-number samples *)

Section NotANumber.

Lemma add_nan_l x : Float.add S754_nan x = S754_nan.
Proof. reflexivity. Qed.

Lemma add_nan_r x : Float.add x S754_nan = S754_nan.
Proof. by destruct x. Qed.

Lemma div_nan_l y : Float.div S754_nan y = S754_nan.
Proof. reflexivity. Qed.

Lemma sum_nan_acc xs : fold_left Float.add xs S754_nan = S754_nan.
Proof. induction xs as [|x xs IH]; simpl; [done|]. by rewrite add_nan_l. Qed.

Lemma sum_nan xs acc :
  S754_nan ∈ xs → fold_left Float.add xs acc = S754_nan.
Proof.
  revert acc. induction xs as [|x xs IH]; intros acc Hin; [by apply elem_of_nil in Hin|].
  simpl. apply elem_of_cons in Hin as [<-|Hin]; [|by apply IH].
  by rewrite add_nan_r, sum_nan_acc.
Qed.

End NotANumber.

(** ** Repeated keys *)

Section RepeatedKeys.

Lemma field_step_lookup fields item fields' k :
  field_step fields item = Ok fields' →
  fields' !! k =
  if bool_decide (field_key item = Some k) then field_value item else fields !! k.
Proof.
  unfold field_step, field_key, field_value.
  destruct (Py.contains ":" (Py.strip item)) eqn:Hc; simpl.
  - destruct (Py.split_once ":" (Py.strip item)) as [|key [|v [|? ?]]]; try discriminate.
    destruct (Float.of_string (Py.strip v)) as [x|]; simpl; [|discriminate].
    intros [= <-]. simpl. case_bool_decide as Hk.
    + injection Hk as <-. by rewrite lookup_insert_eq.
    + rewrite lookup_insert_ne; [done|]. congruence.
  - by intros [= <-].
Qed.

Lemma fields_loop_lookup items fields fields' k :
  foldM field_step fields items = Ok fields' →
  fields' !! k =
  match last (filter (fun item => field_key item = Some k) items) with
  | Some item => field_value item
  | None => fields !! k
  end.
Proof.
  revert fields'. induction items as [|item items IH] using rev_ind; intros fields'.
  - by intros [= <-].
  - rewrite foldM_app. destruct (foldM field_step fields items) as [fields1|] eqn:H1;
      simpl; [|discriminate].
    destruct (field_step fields1 item) as [fields2|] eqn:H2; simpl; [|discriminate].
    intros [= <-]. rewrite (field_step_lookup _ _ _ k H2), filter_app, filter_cons, filter_nil.
    case_bool_decide as Hk.
    + rewrite decide_True by done. by rewrite last_snoc.
    + rewrite decide_False by done. rewrite app_nil_r. by apply IH.
Qed.

End RepeatedKeys.

(** ** Blocks and header lines *)

Section BlockCount.

Lemma close_block_length st blocks :
  close_block st = Ok blocks → length blocks = begun st.
Proof.
  destruct st as [bs [rows|]]; unfold begun; simpl.
  - destruct (Np.array rows); simpl; [|discriminate].
    intros [= <-]. by rewrite length_app.
  - intros [= <-]. lia.
Qed.

Lemma rdf_step_begun st line st' :
  rdf_step st line = Ok st' →
  begun st' = begun st + (if is_header line then 1 else 0).
Proof.
  destruct (is_header line) eqn:Hh.
  - rewrite rdf_step_header by done.
    destruct (close_block st) as [blocks|] eqn:Hc; simpl; [|discriminate].
    intros [= <-]. apply close_block_length in Hc. unfold begun at 1. simpl. lia.
  - destruct (line_kinds line Hh) as [Hs|[_ Hd]].
    + rewrite rdf_step_skipped by done. intros [= <-]. lia.
    + destruct st as [bs current]. rewrite rdf_step_data by done.
      destruct current as [rows|]; [|discriminate].
      destruct (traverse _ _); simpl; [|discriminate].
      intros [= <-]. unfold begun. simpl. lia.
Qed.

Lemma rdf_loop_begun lines st st' :
  foldM rdf_step st lines = Ok st' →
  begun st' = begun st + length (filter (fun l => is_header l = true) lines).
Proof.
  revert st. induction lines as [|l lines IH]; intros st; simpl.
  - intros [= <-]. lia.
  - destruct (rdf_step st l) as [st1|] eqn:Hl; simpl; [|discriminate].
    intros Hrest. rewrite (IH _ Hrest), (rdf_step_begun _ _ _ Hl), filter_cons.
    destruct (is_header l).
    + rewrite decide_True by done. simpl. lia.
    + rewrite decide_False by done. lia.
Qed.

Lemma array_from_rows rows b : Np.array rows = Ok b → from_rows b.
Proof.
  destruct rows as [|r rs]; simpl; [by intros [= <-]|].
  destruct (forallb _ rs); [|discriminate]. by intros [= <-].
Qed.

Lemma close_block_Forall (Q : ndarray → Prop) st blocks :
  (∀ rows b, Np.array rows = Ok b → Q b) →
  Forall Q (fst st) → close_block st = Ok blocks → Forall Q blocks.
Proof.
  intros HQ. destruct st as [bs [rows|]]; simpl; [|by intros ? [= <-]].
  destruct (Np.array rows) as [b|] eqn:Hb; simpl; [|discriminate].
  intros Hbs [= <-]. apply Forall_app. split; [done|].
  constructor; [|constructor]. by eapply HQ.
Qed.

Lemma rdf_blocks_Forall (Q : ndarray → Prop) lines blocks :
  (∀ rows b, Np.array rows = Ok b → Q b) →
  rdf_blocks lines = Ok blocks → Forall Q blocks.
Proof.
  intros HQ. unfold rdf_blocks.
  destruct (foldM rdf_step ([], None) lines) as [st|] eqn:Hloop; simpl; [|discriminate].
  apply close_block_Forall; [done|].
  eapply (foldM_invariant rdf_step (fun st => Forall Q (fst st)));
    [| |exact Hloop]; [|constructor].
  clear -HQ. intros st line st' Hst. unfold rdf_step.
  destruct (_ || _); [by intros [= <-]|]. destruct (_ =? _)%nat.
  - destruct (close_block st) as [blocks|] eqn:Hc; simpl; [|discriminate].
    intros [= <-]. simpl. by eapply close_block_Forall.
  - destruct (snd st); [|discriminate].
    destruct (traverse _ _); simpl; [|discriminate]. by intros [= <-].
Qed.

Lemma column_from_rows k b c :
  from_rows b → Np.column k b = Ok c → 0 < length c.
Proof.
  intros Hb Hc. rewrite (column_length _ _ _ Hc).
  destruct b as [xs|[|r rs]]; simpl in *; [discriminate|done|lia].
Qed.

Lemma mean_of_column_length k b0 bs g :
  mean_of_column k b0 bs = Ok g → length g = nrows b0.
Proof.
  unfold mean_of_column.
  destruct (traverse (Np.column k) (b0 :: bs)) as [cs|] eqn:Hcs; [|discriminate].
  apply traverse_Ok in Hcs. inversion Hcs as [|? c ? cs' Hc Hcs']; subst. simpl.
  intros (_ & Hlen & _)%mean_axis0_lookup.
  by rewrite Hlen, (column_length _ _ _ Hc).
Qed.

(** A block without rows stops the averaging at its first column. *)
Lemma traverse_column_empty k blocks :
  Nd1 [] ∈ blocks →
  ∃ msg, traverse (Np.column k) blocks = Raise (IndexError msg).
Proof.
  induction blocks as [|b blocks IH]; [by intros ?%elem_of_nil|].
  intros Hin. simpl. destruct (Np.column k b) as [c|e] eqn:Hc; simpl.
  - apply elem_of_cons in Hin as [<-|Hin]; [discriminate|].
    destruct (IH Hin) as [msg ->]. eauto.
  - destruct b as [xs|rows]; simpl in Hc.
    + injection Hc as <-. eauto.
    + destruct (mapM _ rows); [discriminate|]. injection Hc as <-. eauto.
Qed.

Lemma close_block_keeps st blocks b :
  b ∈ fst st → close_block st = Ok blocks → b ∈ blocks.
Proof.
  destruct st as [bs [rows|]]; simpl; [|by intros ? [= <-]].
  destruct (Np.array rows); simpl; [|discriminate].
  intros Hb [= <-]. apply elem_of_app. by left.
Qed.

Lemma rdf_loop_keeps lines st st' b :
  b ∈ fst st → foldM rdf_step st lines = Ok st' → b ∈ fst st'.
Proof.
  apply (foldM_invariant rdf_step (fun st => b ∈ fst st)).
  clear. intros st line st' Hst. unfold rdf_step.
  destruct (_ || _); [by intros [= <-]|]. destruct (_ =? _)%nat.
  - destruct (close_block st) as [blocks|] eqn:Hc; simpl; [|discriminate].
    intros [= <-]. simpl. by eapply close_block_keeps.
  - destruct (snd st); [|discriminate].
    destruct (traverse _ _); simpl; [|discriminate]. by intros [= <-].
Qed.

(** After a header line, the current block exists. *)
Lemma rdf_step_opens st line st' :
  is_header line = true → rdf_step st line = Ok st' → snd st' = Some [].
Proof.
  intros Hh. rewrite rdf_step_header by done.
  destruct (close_block st); simpl; [|discriminate]. by intros [= <-].
Qed.

Lemma process_rdf_empty_block_raises lines blocks :
  rdf_blocks lines = Ok blocks → Nd1 [] ∈ blocks →
  ∃ msg, process_rdf lines = Raise (IndexError msg).
Proof.
  intros Hblocks Hin. unfold process_rdf. rewrite Hblocks. simpl.
  destruct blocks as [|b0 bs]; [by apply elem_of_nil in Hin|].
  destruct (Np.column 1 b0) as [r|e] eqn:Hr; simpl.
  - unfold mean_of_column.
    destruct (traverse_column_empty 2 _ Hin) as [msg ->]. eauto.
  - destruct b0 as [xs|rows]; simpl in Hr.
    + injection Hr as <-. eauto.
    + destruct (mapM _ rows); [discriminate|]. injection Hr as <-. eauto.
Qed.

End BlockCount.

(** ** The order of the report *)

Section ReportOrder.

Global Instance key_le_total : Total key_le.
Proof.
  intros [a1 a2] [b1 b2]. unfold key_le. simpl.
  destruct (N.lt_trichotomy a1 b1) as [?|[Heq|?]]; [by left; left|subst b1|by right; left].
  destruct (N.le_ge_cases a2 b2); [left|right]; right; split; done || lia.
Qed.

Global Instance key_le_trans : Transitive key_le.
Proof.
  intros [a1 a2] [b1 b2] [c1 c2]. unfold key_le. simpl.
  intros [?|[-> ?]] [?|[-> ?]]; try (left; lia). right. split; [done|lia].
Qed.

Lemma key_le_strict a b : key_le a b → a ≠ b → key_lt a b.
Proof.
  destruct a as [a1 a2], b as [b1 b2]. unfold key_le, key_lt. simpl.
  intros [?|[-> Hle]] Hne; [by left|]. right. split; [done|].
  apply N.le_lteq in Hle as [?| ->]; [done|]. by destruct Hne.
Qed.

Lemma StronglySorted_strict {A : Type} (R S : relation A) l :
  (∀ a b, R a b → a ≠ b → S a b) →
  NoDup l → StronglySorted R l → StronglySorted S l.
Proof.
  intros HRS Hnd Hs. induction Hs as [|a l Hs IH Ha]; [constructor|].
  apply NoDup_cons in Hnd as [Hnotin Hnd]. constructor; [by apply IH|].
  apply Forall_forall. intros b Hb. apply HRS.
  - by eapply Forall_forall in Ha.
  - intros ->. done.
Qed.

Lemma sorted_keys_strict keys : StronglySorted key_lt (sorted_keys keys).
Proof.
  unfold sorted_keys. apply (StronglySorted_strict key_le).
  - apply key_le_strict.
  - rewrite merge_sort_Permutation. apply NoDup_elements.
  - apply StronglySorted_merge_sort; apply _.
Qed.

Lemma elem_of_sorted_keys keys k : k ∈ sorted_keys keys ↔ k ∈ keys.
Proof. unfold sorted_keys. rewrite merge_sort_Permutation. apply elem_of_elements. Qed.

Lemma length_sorted_keys keys : length (sorted_keys keys) = size keys.
Proof. unfold sorted_keys. by rewrite merge_sort_Permutation. Qed.

End ReportOrder.

(** ** The records of a run *)

Section Records.

Lemma elem_of_dom_lookup (paths : gmap key found_file) k :
  k ∈ dom paths ↔ is_Some (paths !! k).
Proof. apply elem_of_dom. Qed.

Lemma aggregate_local dens_paths calc_paths dens_paths' calc_paths' k :
  dens_paths !! k = dens_paths' !! k → calc_paths !! k = calc_paths' !! k →
  aggregate dens_paths calc_paths !! k = aggregate dens_paths' calc_paths' !! k.
Proof.
  intros Hd Hc. rewrite !aggregate_lookup. unfold expected_record.
  rewrite <- Hd, <- Hc.
  destruct (decide (k ∈ dom dens_paths ∪ dom calc_paths)) as [Hin|Hout];
    destruct (decide (k ∈ dom dens_paths' ∪ dom calc_paths')) as [Hin'|Hout'];
    try done; exfalso.
  - apply Hout'. apply elem_of_union in Hin. apply elem_of_union.
    rewrite !elem_of_dom in *. by rewrite <- Hd, <- Hc.
  - apply Hout. apply elem_of_union in Hin'. apply elem_of_union.
    rewrite !elem_of_dom in *. by rewrite Hd, Hc.
Qed.

Lemma scan_lookup found k :
  scan found !! k = head (filter (fun f => key_of f = Some k) found).
Proof. unfold scan. by rewrite scan_loop_first, lookup_empty. Qed.

Lemma expected_record_fields dens_paths calc_paths k :
  let rec := expected_record dens_paths calc_paths k in
  (∀ field, is_Some (rec !! field) →
            field ∈ ["density"; "self_diffusion"; "viscosity"])
  ∧ (is_Some (rec !! "self_diffusion") ↔ is_Some (rec !! "viscosity"))
  ∧ (is_Some (rec !! "self_diffusion") → is_Some (rec !! "density")).
Proof.
  unfold expected_record.
  destruct (dens_paths !! k) as [dfile|], (calc_paths !! k) as [cfile|]; simpl.
  2-4: by (split; [|split]; [intros ? [? ?]|split; intros [? ?]|intros [? ?]]).
  destruct (avg_density (lines dfile)) as [dens|]; simpl.
  2: by (split; [|split]; [intros ? [? ?]|split; intros [? ?]|intros [? ?]]).
  destruct (last_diff_visc (lines cfile)) as [[diff visc]|]; simpl.
  - split; [|split].
    + intros field [x Hx].
      destruct (decide (field = "viscosity")) as [->|]; [set_solver|].
      rewrite lookup_insert_ne in Hx by done.
      destruct (decide (field = "self_diffusion")) as [->|]; [set_solver|].
      rewrite lookup_insert_ne in Hx by done.
      apply lookup_singleton_Some in Hx as [<- _]. set_solver.
    + split; intros _; eexists; by_evaluation || reflexivity.
    + intros _. eexists. reflexivity.
  - split; [|split].
    + intros field [x Hx]. apply lookup_singleton_Some in Hx as [<- _]. set_solver.
    + split; intros [x Hx]; apply lookup_singleton_Some in Hx as [? _]; done.
    + intros [x Hx]; apply lookup_singleton_Some in Hx as [? _]; done.
Qed.

End Records.

(** ** Leading zeros *)

Section LeadingZeros.

Lemma all_digits_zeros n g : all_digits g = true → all_digits (zeros n +:+ g) = true.
Proof.
  intros Hg. induction n as [|n IH]; cbn [zeros]; [by rewrite append_empty_l|].
  rewrite append_cons. cbn [all_digits]. by rewrite IH.
Qed.

Lemma zeros_nonempty n g : g ≠ "" → zeros n +:+ g ≠ "".
Proof.
  intros Hg. destruct n as [|n]; cbn [zeros]; [by rewrite append_empty_l|].
  by rewrite append_cons.
Qed.

Lemma int_zeros n g : Py.int (zeros n +:+ g) = Py.int g.
Proof.
  induction n as [|n IH]; cbn [zeros]; [by rewrite append_empty_l|].
  rewrite append_cons. exact IH.
Qed.

Lemma key_of_directory name g1 g2 rest ls :
  TP_DIR_RE_match name = Some (g1, g2) →
  key_of {| parent := directory name :: rest; lines := ls |}
  = Some (Py.int g1, Py.int g2).
Proof. intros Hm. unfold key_of. simpl. by rewrite Hm. Qed.

End LeadingZeros.

(** ** Tables of columns *)

Section Tables.
Import NpOut.

Lemma column_stack_four r g77 g88 g78 :
  length g77 = length r → length g88 = length r → length g78 = length r →
  ∃ out, column_stack [r; g77; g88; g78] = Ok out
         ∧ length out = length r
         ∧ ∀ i, out !! i = table_row r g77 g88 g78 i.
Proof.
  intros H1 H2 H3. unfold column_stack.
  assert (forallb (fun c' => length c' =? length r)%nat [g77; g88; g78] = true) as ->.
  { simpl. by rewrite H1, H2, H3, !Nat.eqb_refl. }
  eexists. split; [done|]. simpl. split.
  - rewrite !length_zip_with, length_replicate. lia.
  - intros i. unfold table_row. rewrite !lookup_zip_with.
    destruct (r !! i) as [a|] eqn:Ha; simpl; [|done].
    destruct (g77 !! i) as [b|] eqn:Hb; simpl; [|done].
    destruct (g88 !! i) as [c|] eqn:Hc; simpl; [|done].
    destruct (g78 !! i) as [d|] eqn:Hd; simpl; [|done].
    apply lookup_lt_Some in Ha. by rewrite lookup_replicate_2.
Qed.

Lemma process_rdf_table lines r g77 g88 g78 :
  process_rdf lines = Ok (r, g77, g88, g78) →
  ∃ out, column_stack [r; g77; g88; g78] = Ok out
         ∧ length out = length r
         ∧ ∀ i, out !! i = table_row r g77 g88 g78 i.
Proof.
  intros Hp. unfold process_rdf in Hp.
  destruct (rdf_blocks lines) as [[|b0 bs]|] eqn:Hblocks; simpl in Hp; try discriminate.
  destruct (Np.column 1 b0) as [r'|] eqn:Hr; simpl in Hp; [|discriminate].
  destruct (mean_of_column 2 b0 bs) as [g1|] eqn:H1; simpl in Hp; [|discriminate].
  destruct (mean_of_column 4 b0 bs) as [g2|] eqn:H2; simpl in Hp; [|discriminate].
  destruct (mean_of_column 6 b0 bs) as [g3|] eqn:H3; simpl in Hp; [|discriminate].
  injection Hp as <- <- <- <-.
  apply column_stack_four;
    rewrite (column_length _ _ _ Hr); by eapply mean_of_column_length.
Qed.

End Tables.

(** ** Decimal numerals *)

Section Numerals.

Lemma pretty_char_digit d : (d < 10)%N → Py.is_digit (pretty_N_char d) = true.
Proof.
  intros Hd.
  assert (d = 0 ∨ d = 1 ∨ d = 2 ∨ d = 3 ∨ d = 4 ∨ d = 5 ∨ d = 6 ∨ d = 7
          ∨ d = 8 ∨ d = 9)%N as Hcases by lia.
  repeat (destruct Hcases as [->|Hcases]; [reflexivity|]). by subst.
Qed.

Lemma pretty_char_value d : (d < 10)%N → Py.digit_val (pretty_N_char d) = d.
Proof.
  intros Hd.
  assert (d = 0 ∨ d = 1 ∨ d = 2 ∨ d = 3 ∨ d = 4 ∨ d = 5 ∨ d = 6 ∨ d = 7
          ∨ d = 8 ∨ d = 9)%N as Hcases by lia.
  repeat (destruct Hcases as [->|Hcases]; [reflexivity|]). by subst.
Qed.

Lemma all_digits_pretty_go x s :
  all_digits s = true → all_digits (pretty_N_go x s) = true.
Proof.
  revert s. induction (N.lt_wf_0 x) as [x _ IH]. intros s Hs.
  assert (x = 0 ∨ 0 < x)%N as [->|Hx] by lia; [by rewrite pretty_N_go_0|].
  rewrite pretty_N_go_step by done. apply IH; [by apply N.div_lt|].
  cbn [all_digits]. rewrite pretty_char_digit; [done|]. by apply N.mod_lt.
Qed.

Lemma all_digits_pretty (n : N) : all_digits (pretty n) = true.
Proof.
  unfold pretty, pretty_N. case_decide; [done|]. by apply all_digits_pretty_go.
Qed.

Lemma pretty_go_nonempty x s : s ≠ "" → pretty_N_go x s ≠ "".
Proof.
  revert s. induction (N.lt_wf_0 x) as [x _ IH]. intros s Hs.
  assert (x = 0 ∨ 0 < x)%N as [->|Hx] by lia; [by rewrite pretty_N_go_0|].
  rewrite pretty_N_go_step by done. apply IH; [by apply N.div_lt|done].
Qed.

Lemma pretty_nonempty (n : N) : pretty n ≠ "".
Proof.
  unfold pretty, pretty_N. case_decide; [done|].
  rewrite pretty_N_go_step by lia. by apply pretty_go_nonempty.
Qed.

Lemma int_pretty_go x s : Py.int_go 0 (pretty_N_go x s) = Py.int_go x s.
Proof.
  revert s. induction (N.lt_wf_0 x) as [x _ IH]. intros s.
  assert (x = 0 ∨ 0 < x)%N as [->|Hx] by lia; [by rewrite pretty_N_go_0|].
  rewrite pretty_N_go_step by done. rewrite IH by (by apply N.div_lt).
  cbn [Py.int_go]. rewrite pretty_char_value by (by apply N.mod_lt).
  f_equal. rewrite (N.div_mod x 10) at 3 by done. lia.
Qed.

(** [int(str(n)) == n] *)
Lemma int_pretty (n : N) : Py.int (pretty n) = n.
Proof.
  unfold pretty, pretty_N, Py.int. case_decide as Hn; [by subst|].
  by rewrite int_pretty_go.
Qed.

Lemma append_inj_l p s t : p +:+ s = p +:+ t → s = t.
Proof.
  induction p as [|c p IH]; [by rewrite !append_empty_l|].
  rewrite !append_cons. intros [= H]. by apply IH.
Qed.

Lemma digits_prefix_unique d d' r r' :
  all_digits d = true → all_digits d' = true →
  no_leading_digit r → no_leading_digit r' →
  d +:+ r = d' +:+ r' → d = d' ∧ r = r'.
Proof.
  intros Hd Hd' Hr Hr' Heq.
  pose proof (span_digits_app d r Hd Hr) as H1.
  pose proof (span_digits_app d' r' Hd' Hr') as H2.
  rewrite Heq, H2 in H1. by injection H1 as <- <-.
Qed.

Lemma numeral_prefix_unique (n n' : N) r r' :
  no_leading_digit r → no_leading_digit r' →
  pretty n +:+ r = pretty n' +:+ r' → n = n' ∧ r = r'.
Proof.
  intros Hr Hr' Heq.
  destruct (digits_prefix_unique _ _ _ _ (all_digits_pretty n) (all_digits_pretty n')
              Hr Hr' Heq) as [Hn ->].
  split; [|done]. by apply (inj pretty).
Qed.

End Numerals.

(** ** The names of the RDF files *)

Section RdfNames.
Import Outputs.

Lemma name_parts_unique (T P i T' P' i' : N) suf suf' :
  no_leading_digit suf → no_leading_digit suf' →
  pretty T +:+ "_P_" +:+ pretty P +:+ "_" +:+ pretty i +:+ suf
  = pretty T' +:+ "_P_" +:+ pretty P' +:+ "_" +:+ pretty i' +:+ suf' →
  T = T' ∧ P = P' ∧ i = i' ∧ suf = suf'.
Proof.
  intros Hs Hs' Heq.
  apply numeral_prefix_unique in Heq as [-> Heq]; [|by rewrite append_cons..].
  apply (append_inj_l "_P_") in Heq.
  apply numeral_prefix_unique in Heq as [-> Heq]; [|by rewrite append_cons..].
  apply (append_inj_l "_") in Heq.
  apply numeral_prefix_unique in Heq as [-> Heq]; done.
Qed.

Lemma png_name_inj T P i T' P' i' :
  png_name T P i = png_name T' P' i' → T = T' ∧ P = P' ∧ i = i'.
Proof.
  unfold png_name. intros Heq. apply (append_inj_l "rdf_T_") in Heq.
  apply name_parts_unique in Heq; [tauto|done..].
Qed.

Lemma dat_name_inj T P i T' P' i' :
  dat_name T P i = dat_name T' P' i' → T = T' ∧ P = P' ∧ i = i'.
Proof.
  unfold dat_name. intros Heq. apply (append_inj_l "rdf_average_T_") in Heq.
  apply name_parts_unique in Heq; [tauto|done..].
Qed.

Lemma png_name_dat_name T P i T' P' i' : png_name T P i ≠ dat_name T' P' i'.
Proof. unfold png_name, dat_name. rewrite !append_cons. discriminate. Qed.

End RdfNames.

(** ** The loop over the RDF files *)

Global Arguments Outputs.rdf_file_step : simpl never.
Global Arguments Outputs.by_p_step : simpl never.

Section RdfLoop.
Import Outputs.

Lemma rdf_file_step_bad st f : rdf_good f = false → rdf_file_step st f = st.
Proof.
  unfold rdf_good, key_of, rdf_file_step. destruct st as [c files].
  destruct (find_tp_ancestor (parent f)) as [[[T P] ?]|]; [|done].
  by destruct (process_rdf (lines f)).
Qed.

Lemma rdf_file_step_good c files f T P r g77 g88 g78 :
  key_of f = Some (T, P) → process_rdf (lines f) = Ok (r, g77, g88, g78) →
  ∃ out,
    rdf_file_step (c, files) f
    = (<[(T, P) := (default 0%N (c !! (T, P)) + 1)%N]> c,
       (files ++ [Figure (png_name T P (default 0%N (c !! (T, P)) + 1)) r g77 g88 g78])
       ++ [Data (dat_name T P (default 0%N (c !! (T, P)) + 1)) "r g77 g88 g78" out])
    ∧ length out = length r
    ∧ ∀ i, out !! i = table_row r g77 g88 g78 i.
Proof.
  intros Hk Hp. destruct (process_rdf_table _ _ _ _ _ Hp) as (out & Hout & Hlen & Hrows).
  exists out. split; [|done]. unfold key_of in Hk. unfold rdf_file_step.
  destruct (find_tp_ancestor (parent f)) as [[[T' P'] ?]|]; [|discriminate].
  injection Hk as -> ->. by rewrite Hp, Hout.
Qed.

Lemma rdf_good_true f :
  rdf_good f = true →
  ∃ T P r g77 g88 g78,
    key_of f = Some (T, P) ∧ process_rdf (lines f) = Ok (r, g77, g88, g78).
Proof.
  unfold rdf_good. destruct (key_of f) as [[T P]|]; [|discriminate].
  destruct (process_rdf (lines f)) as [[[[r g77] g88] g78]|]; [|discriminate].
  intros _. by exists T, P, r, g77, g88, g78.
Qed.

Lemma rdf_good_intro f k res :
  key_of f = Some k → process_rdf (lines f) = Ok res → rdf_good f = true.
Proof. unfold rdf_good. by intros -> ->. Qed.

Lemma rank_nil k : rank k [] = 0%N.
Proof. done. Qed.

Lemma rank_snoc k fs f :
  rank k (fs ++ [f]) =
  (rank k fs + if decide (key_of f = Some k ∧ rdf_good f = true) then 1 else 0)%N.
Proof.
  unfold rank. rewrite filter_app, length_app, filter_cons, filter_nil.
  destruct (decide _); simpl; lia.
Qed.

(** The counter of a key is the number of its files that got output. *)
Lemma rdf_counter_rank found k :
  (rdf_files found).1 !! k =
  if decide (rank k found = 0%N) then None else Some (rank k found).
Proof.
  unfold rdf_files. induction found as [|f found IH] using rev_ind; [done|].
  rewrite fold_left_app, rank_snoc. cbn [fold_left].
  destruct (fold_left rdf_file_step found (∅, [])) as [c files] eqn:Hloop.
  cbn [fst] in IH. destruct (rdf_good f) eqn:Hgood.
  - destruct (rdf_good_true f Hgood) as (T & P & r & g77 & g88 & g78 & Hk & Hp).
    destruct (rdf_file_step_good c files f _ _ _ _ _ _ Hk Hp) as (out & -> & _).
    cbn [fst]. rewrite Hk. destruct (decide ((T, P) = k)) as [<-|Hne].
    + rewrite lookup_insert_eq. destruct (decide (_ ∧ _)) as [_|Hn]; [|by destruct Hn].
      unfold key in *. rewrite IH.
      destruct (decide (rank (T, P) found = 0%N)) as [Hz|Hz]; [rewrite Hz|];
        simpl; (done || by rewrite decide_False by lia).
    + rewrite lookup_insert_ne by done.
      destruct (decide (_ ∧ _)) as [[[=] _]|_]; [done|]. by rewrite N.add_0_r.
  - rewrite rdf_file_step_bad by done. cbn [fst].
    destruct (decide (_ ∧ _)) as [[_ [=]]|_]. by rewrite N.add_0_r.
Qed.

Lemma rdf_loop_extends found c files :
  ∃ later, (fold_left rdf_file_step found (c, files)).2 = files ++ later.
Proof.
  revert c files. induction found as [|f found IH]; intros c files; simpl.
  - exists []. by rewrite app_nil_r.
  - destruct (rdf_good f) eqn:Hgood.
    + destruct (rdf_good_true f Hgood) as (T & P & r & g77 & g88 & g78 & Hk & Hp).
      destruct (rdf_file_step_good c files f _ _ _ _ _ _ Hk Hp) as (out & -> & _).
      destruct (IH (<[(T, P) := (default 0%N (c !! (T, P)) + 1)%N]> c)
                  ((files ++ [Figure (png_name T P (default 0%N (c !! (T, P)) + 1)) r g77 g88 g78])
                   ++ [Data (dat_name T P (default 0%N (c !! (T, P)) + 1)) "r g77 g88 g78" out]))
        as [later ->].
      eexists. by rewrite <- !app_assoc.
    + rewrite rdf_file_step_bad by done. apply IH.
Qed.

End RdfLoop.

Section RdfLoopNames.
Import Outputs.

Lemma names_counted_step c files T P r g77 g88 g78 out :
  let idx := (default 0%N (c !! (T, P)) + 1)%N in
  NoDup (map written_name files) → names_counted c files →
  NoDup (map written_name
           ((files ++ [Figure (png_name T P idx) r g77 g88 g78])
            ++ [Data (dat_name T P idx) "r g77 g88 g78" out]))
  ∧ names_counted (<[(T, P) := idx]> c)
      ((files ++ [Figure (png_name T P idx) r g77 g88 g78])
       ++ [Data (dat_name T P idx) "r g77 g88 g78" out]).
Proof.
  intros idx Hnd Hin. split.
  - rewrite <- app_assoc, map_app. apply NoDup_app. split; [done|]. split.
    + intros x Hx Hnew. apply list_elem_of_fmap in Hx as (w & -> & Hw).
      unfold names_counted in Hin. rewrite Forall_forall in Hin.
      destruct (Hin w Hw) as (T' & P' & idx' & Hidx & Hname).
      simpl in Hnew. apply elem_of_cons in Hnew as [Hnew|Hnew].
      * rewrite Hnew in Hname. destruct Hname as [Hname|Hname].
        -- apply png_name_inj in Hname as (-> & -> & Heq). unfold idx in Heq. lia.
        -- by apply png_name_dat_name in Hname.
      * apply list_elem_of_singleton in Hnew. rewrite Hnew in Hname.
        destruct Hname as [Hname|Hname].
        -- symmetry in Hname. by apply png_name_dat_name in Hname.
        -- apply dat_name_inj in Hname as (-> & -> & Heq). unfold idx in Heq. lia.
    + simpl. apply NoDup_cons. split; [|apply NoDup_singleton].
      intros Hx%list_elem_of_singleton. by apply png_name_dat_name in Hx.
  - unfold names_counted in *. rewrite !Forall_app. split; [split|].
    + eapply Forall_impl; [exact Hin|]. simpl.
      intros w (T' & P' & idx' & Hidx & Hname). exists T', P', idx'.
      split; [|done]. destruct (decide ((T, P) = (T', P'))) as [[= <- <-]|Hne].
      * rewrite lookup_insert_eq. simpl. unfold idx. lia.
      * by rewrite lookup_insert_ne.
    + constructor; [|constructor]. exists T, P, idx.
      rewrite lookup_insert_eq. simpl. split; [unfold idx; lia|by left].
    + constructor; [|constructor]. exists T, P, idx.
      rewrite lookup_insert_eq. simpl. split; [unfold idx; lia|by right].
Qed.

Lemma rdf_loop_names found c files :
  NoDup (map written_name files) → names_counted c files →
  NoDup (map written_name (fold_left rdf_file_step found (c, files)).2)
  ∧ names_counted (fold_left rdf_file_step found (c, files)).1
                  (fold_left rdf_file_step found (c, files)).2.
Proof.
  revert c files. induction found as [|f found IH]; intros c files Hnd Hin; simpl.
  - done.
  - destruct (rdf_good f) eqn:Hgood.
    + destruct (rdf_good_true f Hgood) as (T & P & r & g77 & g88 & g78 & Hk & Hp).
      destruct (rdf_file_step_good c files f _ _ _ _ _ _ Hk Hp) as (out & -> & _).
      apply IH; by apply names_counted_step.
    + rewrite rdf_file_step_bad by done. by apply IH.
Qed.

End RdfLoopNames.

(** ** The curves of the figures *)

Section Curves.
Import Outputs.

Lemma by_p_step_complete m item x :
  complete_point item = Some x →
  by_p_step m item = <[item.1.2 := m !!! item.1.2 ++ [x]]> m.
Proof.
  unfold complete_point, by_p_step. destruct item as [[T P] rec]. simpl.
  destruct (rec !! "density"); simpl; [|discriminate].
  destruct (rec !! "self_diffusion"); simpl; [|discriminate].
  destruct (rec !! "viscosity"); simpl; [|discriminate].
  by intros [= <-].
Qed.

Lemma by_p_step_incomplete m item :
  complete_point item = None → by_p_step m item = m.
Proof.
  unfold complete_point, by_p_step. destruct item as [[T P] rec]. simpl.
  destruct (rec !! "density"); simpl; [|done].
  destruct (rec !! "self_diffusion"); simpl; [|done].
  destruct (rec !! "viscosity"); simpl; [discriminate|done].
Qed.

Lemma points_at_cons P item items :
  points_at P (item :: items) =
  match complete_point item with
  | Some x => if decide (item.1.2 = P) then x :: points_at P items
              else points_at P items
  | None => points_at P items
  end.
Proof.
  unfold points_at. rewrite filter_cons.
  destruct (decide (item.1.2 = P)); [rewrite decide_True by done|rewrite decide_False by done];
    csimpl; by destruct (complete_point item).
Qed.

Lemma by_p_loop_lookup items (m : gmap N (list point)) P :
  fold_left by_p_step items m !! P =
  match points_at P items with
  | [] => m !! P
  | pts => Some (m !!! P ++ pts)
  end.
Proof.
  revert m. induction items as [|item items IH]; intros m; simpl; [done|].
  rewrite IH, points_at_cons. destruct (complete_point item) as [x|] eqn:Hx.
  - rewrite (by_p_step_complete _ _ _ Hx).
    destruct (decide (item.1.2 = P)) as [->|Hne].
    + rewrite lookup_total_insert_eq, lookup_insert_eq.
      destruct (points_at _ items); [done|]. by rewrite <- app_assoc.
    + by rewrite lookup_total_insert_ne, lookup_insert_ne.
  - by rewrite by_p_step_incomplete.
Qed.

Lemma by_p_lookup_total items P :
  fold_left by_p_step items ∅ !!! P = points_at P items.
Proof.
  rewrite lookup_total_alt, by_p_loop_lookup, lookup_total_empty, lookup_empty.
  by destruct (points_at P items).
Qed.

Lemma by_p_dom items P :
  P ∈ dom (fold_left by_p_step items ∅) ↔ points_at P items ≠ [].
Proof.
  rewrite elem_of_dom, by_p_loop_lookup, lookup_empty.
  destruct (points_at P items); split; try done; by intros [? ?].
Qed.

Lemma elem_of_points_at P items x :
  x ∈ points_at P items ↔
  ∃ item, item ∈ items ∧ item.1.2 = P ∧ complete_point item = Some x.
Proof.
  unfold points_at. rewrite list_elem_of_omap. split.
  - intros (item & [? ?]%list_elem_of_filter & ?). eauto.
  - intros (item & ? & ? & ?). exists item. by rewrite list_elem_of_filter.
Qed.

Lemma complete_point_temperature item x :
  complete_point item = Some x → temperature x = item.1.1.
Proof.
  unfold complete_point.
  destruct (item.2 !! "density"); simpl; [|discriminate].
  destruct (item.2 !! "self_diffusion"); simpl; [|discriminate].
  destruct (item.2 !! "viscosity"); simpl; [|discriminate].
  by intros [= <-].
Qed.

(** The keys of a dictionary are distinct, so the points of one pressure
    have distinct temperatures. *)
Lemma points_at_NoDup P items :
  NoDup (map fst items) → NoDup (map temperature (points_at P items)).
Proof.
  induction items as [|item items IH]; [constructor|].
  rewrite map_cons, NoDup_cons, points_at_cons. intros [Hnotin Hnd].
  destruct (complete_point item) as [x|] eqn:Hx; [|by apply IH].
  destruct (decide (item.1.2 = P)) as [HP|]; [|by apply IH].
  rewrite map_cons. apply NoDup_cons. split; [|by apply IH].
  intros (x' & HT & Hin)%list_elem_of_fmap. apply Hnotin.
  apply elem_of_points_at in Hin as (item' & Hin & HP' & Hx').
  apply list_elem_of_fmap. exists item'. split; [|done].
  apply complete_point_temperature in Hx, Hx'.
  destruct item as [[T1 P1] ?], item' as [[T2 P2] ?]. simpl in *. congruence.
Qed.

Global Instance point_le_total : Total point_le.
Proof. intros a b. unfold point_le. apply total, _. Qed.

Global Instance point_le_trans : Transitive point_le.
Proof. intros a b c. unfold point_le. apply transitivity. Qed.

Lemma N_le_strict (a b : N) : (a ≤ b)%N → a ≠ b → (a < b)%N.
Proof. lia. Qed.

Lemma sorted_points P items :
  NoDup (map fst items) →
  let pts := merge_sort point_le (points_at P items) in
  pts ≡ₚ points_at P items ∧ StronglySorted N.lt (map temperature pts).
Proof.
  intros Hnd pts. split; [apply merge_sort_Permutation|].
  apply (StronglySorted_strict N.le); [apply N_le_strict| |].
  - unfold pts. rewrite merge_sort_Permutation. by apply points_at_NoDup.
  - apply (StronglySorted_fmap temperature point_le); [done|].
    apply StronglySorted_merge_sort; apply _.
Qed.

Lemma save_plot_curves items y ylabel fname :
  NoDup (map fst items) →
  let ps := merge_sort N.le (elements (dom (fold_left by_p_step items ∅))) in
  StronglySorted N.lt ps
  ∧ (∀ P, P ∈ ps ↔ points_at P items ≠ [])
  ∧ Forall2 (is_curve items y) ps
      (curves (save_plot (fold_left by_p_step items ∅) y ylabel fname)).
Proof.
  intros Hnd ps. split; [|split].
  - apply (StronglySorted_strict N.le); [apply N_le_strict| |].
    + unfold ps. rewrite merge_sort_Permutation. apply NoDup_elements.
    + apply StronglySorted_merge_sort; apply _.
  - intros P. unfold ps. rewrite merge_sort_Permutation, elem_of_elements.
    apply by_p_dom.
  - simpl. apply Forall2_fmap_r, Forall_Forall2_diag, Forall_forall.
    intros P _. split; [done|]. simpl. rewrite by_p_lookup_total.
    exists (merge_sort point_le (points_at P items)).
    destruct (sorted_points P items Hnd) as [Hperm Hsorted]. done.
Qed.

Lemma items_NoDup records : NoDup (map fst (items records)).
Proof.
  unfold items. rewrite map_map. simpl. rewrite map_id.
  unfold sorted_keys. rewrite merge_sort_Permutation. apply NoDup_elements.
Qed.

Lemma elem_of_items records k rec :
  (k, rec) ∈ items records ↔ records !! k = Some rec.
Proof.
  unfold items. rewrite list_elem_of_fmap. split.
  - intros (k' & [= <- ->] & Hk). apply elem_of_sorted_keys, elem_of_dom in Hk as [rec Hk].
    by rewrite (lookup_total_correct _ _ _ Hk).
  - intros Hk. exists k. split.
    + by rewrite (lookup_total_correct _ _ _ Hk).
    + apply elem_of_sorted_keys, elem_of_dom. eauto.
Qed.

Lemma label_inj (P P' : N) :
  "P=" +:+ pretty P +:+ " bar" = "P=" +:+ pretty P' +:+ " bar" → P = P'.
Proof.
  intros Heq. apply (append_inj_l "P=") in Heq.
  by apply numeral_prefix_unique in Heq as [-> _].
Qed.

(** The temperatures on the curve of [P] are those of the complete items
    with the pressure [P]. *)
Lemma is_curve_temperatures items y P c T :
  is_curve items y P c →
  T ∈ Ts c ↔
  ∃ rec x, ((T, P), rec) ∈ items ∧ complete_point ((T, P), rec) = Some x.
Proof.
  intros (_ & pts & Hperm & _ & -> & _). rewrite list_elem_of_fmap. split.
  - intros (x & -> & Hx). rewrite Hperm in Hx.
    apply elem_of_points_at in Hx as ([[T' P'] rec] & Hin & HP & Hx).
    simpl in HP. subst P'. rewrite (complete_point_temperature _ _ Hx). simpl.
    by exists rec, x.
  - intros (rec & x & Hin & Hx). exists x.
    split; [by rewrite (complete_point_temperature _ _ Hx)|].
    rewrite Hperm. apply elem_of_points_at. by exists ((T, P), rec).
Qed.

End Curves.

Section MainPlots.
Import Outputs.

Lemma complete_point_Some T P rec :
  is_Some (complete_point ((T, P), rec)) ↔
  is_Some (rec !! "density") ∧ is_Some (rec !! "self_diffusion")
  ∧ is_Some (rec !! "viscosity").
Proof.
  unfold complete_point. simpl.
  destruct (rec !! "density"), (rec !! "self_diffusion"), (rec !! "viscosity");
    simpl; split; intros H; try (by eauto); try (by destruct H as [? [=]]).
  all: destruct H as ([? ?] & [? ?] & [? ?]); discriminate.
Qed.

(** A curve of a figure with the label of [P] is the curve of [P]. *)
Lemma curve_of_label items y ps cs c P :
  Forall2 (is_curve items y) ps cs → c ∈ cs →
  label c = "P=" +:+ pretty P +:+ " bar" → is_curve items y P c.
Proof.
  intros Hcs [i Hi]%list_elem_of_lookup_1 Hlabel.
  destruct (Forall2_lookup_r _ _ _ _ _ Hcs Hi) as (P' & _ & Hc).
  destruct Hc as [Hl Hpts]. rewrite Hl in Hlabel. apply label_inj in Hlabel as ->.
  by split.
Qed.

Lemma curve_of_pressure items y ps cs P :
  Forall2 (is_curve items y) ps cs → P ∈ ps →
  ∃ c, c ∈ cs ∧ is_curve items y P c.
Proof.
  intros Hcs [i Hi]%list_elem_of_lookup_1.
  destruct (Forall2_lookup_l _ _ _ _ _ Hcs Hi) as (c & Hc & Hcurve).
  exists c. split; [by eapply list_elem_of_lookup_2|done].
Qed.

Lemma figure_curves items y ps cs T P :
  Forall2 (is_curve items y) ps cs →
  (∀ P, P ∈ ps ↔ points_at P items ≠ []) →
  (∃ c, c ∈ cs ∧ label c = "P=" +:+ pretty P +:+ " bar" ∧ T ∈ Ts c)
  ↔ ∃ rec, ((T, P), rec) ∈ items ∧ is_Some (complete_point ((T, P), rec)).
Proof.
  intros Hcs Hps. split.
  - intros (c & Hc & Hlabel & HT).
    pose proof (curve_of_label _ _ _ _ _ _ Hcs Hc Hlabel) as Hcurve.
    apply (is_curve_temperatures _ _ _ _ T Hcurve) in HT as (rec & x & Hin & Hx).
    exists rec. split; [done|]. by exists x.
  - intros (rec & Hin & [x Hx]).
    assert (P ∈ ps) as HP.
    { apply Hps. intros Hnil.
      assert (x ∈ points_at P items) as Hin'
        by (apply elem_of_points_at; by exists ((T, P), rec)).
      rewrite Hnil in Hin'. by apply elem_of_nil in Hin'. }
    destruct (curve_of_pressure _ _ _ _ _ Hcs HP) as (c & Hc & Hcurve).
    exists c. split; [done|]. split; [apply Hcurve|].
    apply (is_curve_temperatures _ _ _ _ T Hcurve). by exists rec, x.
Qed.

End MainPlots.

(** ** The characters of numerals *)

Section NumeralCharacters.
Import CreateFiles.

Lemma all_digits_app a b : all_digits (a +:+ b) = all_digits a && all_digits b.
Proof.
  induction a as [|c a IH]; [by rewrite append_empty_l|].
  rewrite append_cons. cbn [all_digits]. by rewrite IH, andb_assoc.
Qed.

Lemma plain_app a b : plain (a +:+ b) = plain a && plain b.
Proof.
  induction a as [|c a IH]; [by rewrite append_empty_l|].
  rewrite append_cons. cbn [plain]. by rewrite IH, andb_assoc.
Qed.

Lemma digit_plain c : Py.is_digit c = true → plain_char c = true.
Proof. by destruct c as [[] [] [] [] [] [] [] []]. Qed.

Lemma all_digits_plain s : all_digits s = true → plain s = true.
Proof.
  induction s as [|c s IH]; [done|]. cbn [all_digits plain].
  intros [Hc Hs]%andb_true_iff. by rewrite digit_plain, IH.
Qed.

Lemma all_digits_take n s : all_digits s = true → all_digits (take n s) = true.
Proof.
  revert n. induction s as [|c s IH]; intros [|n]; try done.
  cbn [all_digits take]. intros [-> Hs]%andb_true_iff. by apply IH.
Qed.

Lemma all_digits_drop n s : all_digits s = true → all_digits (drop n s) = true.
Proof.
  revert n. induction s as [|c s IH]; intros [|n]; try done.
  cbn [all_digits drop]. intros [_ Hs]%andb_true_iff. by apply IH.
Qed.

Lemma all_digits_dec z : all_digits (Float.dec z) = true.
Proof. apply all_digits_pretty. Qed.

Lemma all_digits_zfill w s : all_digits s = true → all_digits (Float.zfill w s) = true.
Proof.
  intros Hs. unfold Float.zfill. rewrite all_digits_app, Hs, andb_true_r.
  induction (w - String.length s)%nat as [|k IH]; [done|].
  cbn [replicate String.concat]. destruct (replicate k "0") eqn:Hk.
  - done.
  - rewrite all_digits_app, append_empty_l. exact IH.
Qed.

(** The first underscore of a string splits it in one way. *)
Lemma plain_prefix_unique a a' r r' :
  plain a = true → plain a' = true →
  a +:+ String "_" r = a' +:+ String "_" r' → a = a' ∧ r = r'.
Proof.
  revert a'. induction a as [|c a IH]; intros [|c' a']; rewrite ?append_empty_l, ?append_cons;
    cbn [plain]; intros Ha Ha' Heq.
  - by injection Heq as ->.
  - injection Heq as <- _. apply andb_true_iff in Ha' as [Hc _]. done.
  - injection Heq as -> _. apply andb_true_iff in Ha as [Hc _]. done.
  - injection Heq as -> Heq. apply andb_true_iff in Ha as [_ Ha].
    apply andb_true_iff in Ha' as [_ Ha'].
    destruct (IH _ Ha Ha' Heq) as [-> ->]. done.
Qed.

(** A name [T_<a>_P_<b>] that the pattern takes, when neither [a] nor [b]
    has an underscore or a line feed: the groups are [a] and [b]. *)
Lemma TP_DIR_RE_match_plain a b g1 g2 :
  plain a = true → plain b = true →
  TP_DIR_RE_match ("T_" +:+ a +:+ "_P_" +:+ b) = Some (g1, g2) →
  a = g1 ∧ b = g2.
Proof.
  intros Ha Hb (Hn1 & Hn2 & Hd1 & Hd2 & Hs)%TP_DIR_RE_match_Some.
  assert (∀ tail, "T_" +:+ a +:+ "_P_" +:+ b = "T_" +:+ g1 +:+ "_P_" +:+ g2 +:+ tail →
                  a = g1 ∧ b = g2 +:+ tail) as Hsplit.
  { intros tail Heq. apply (append_inj_l "T_") in Heq.
    rewrite !(append_cons "_" "P_") in Heq.
    apply plain_prefix_unique in Heq as [-> Heq]; [|done|by apply all_digits_plain].
    apply (append_inj_l "P_") in Heq. done. }
  destruct Hs as [Hs|Hs].
  - rewrite <- (append_empty_r g2) in Hs at 1.
    destruct (Hsplit "" Hs) as [-> ->]. by rewrite append_empty_r.
  - destruct (Hsplit Py.nl Hs) as [_ ->]. rewrite plain_app in Hb.
    apply andb_true_iff in Hb as [_ Hb]. done.
Qed.

End NumeralCharacters.

(** ** The text of a float *)

Section FloatText.
Import CreateFiles.

Lemma sign_str_plain s : plain (Float.sign_str s) = true.
Proof. by destruct s. Qed.

(** The four layouts of the digits of a finite number. *)
Lemma layout_plain digits (n : nat) decpt :
  all_digits digits = true →
  plain
    (if (decpt <=? -4)%Z || (16 <? decpt)%Z then
       take 1 digits +:+ (if (1 <? n)%nat then "." +:+ drop 1 digits else "")
       +:+ "e" +:+ (if (decpt - 1 <? 0)%Z then "-" else "+")
       +:+ Float.zfill 2 (Float.dec (Z.abs (decpt - 1)))
     else if (decpt <=? 0)%Z
          then "0." +:+ Float.zfill (Z.to_nat (- decpt)) "" +:+ digits
     else if (Z.of_nat n <=? decpt)%Z
          then digits +:+ Float.zfill (Z.to_nat decpt - n) "" +:+ ".0"
     else take (Z.to_nat decpt) digits +:+ "." +:+ drop (Z.to_nat decpt) digits)
  = true.
Proof.
  intros Hd.
  assert (∀ k, plain (take k digits) = true) as Htake
    by (intros k; by apply all_digits_plain, all_digits_take).
  assert (∀ k, plain (drop k digits) = true) as Hdrop
    by (intros k; by apply all_digits_plain, all_digits_drop).
  assert (∀ w s, all_digits s = true → plain (Float.zfill w s) = true) as Hfill
    by (intros w s Hs; by apply all_digits_plain, all_digits_zfill).
  destruct (_ || _); [|destruct (decpt <=? 0)%Z; [|destruct (_ <=? _)%Z]].
  - rewrite !plain_app, Htake, Hfill by apply all_digits_dec.
    destruct (1 <? n)%nat, (decpt - 1 <? 0)%Z; rewrite ?plain_app, ?Hdrop; done.
  - rewrite !plain_app, Hfill, (all_digits_plain _ Hd); done.
  - rewrite !plain_app, Hfill, (all_digits_plain _ Hd); done.
  - rewrite !plain_app, Htake, Hdrop. done.
Qed.

Lemma layout_not_digits digits (n : nat) decpt :
  all_digits
    (if (decpt <=? -4)%Z || (16 <? decpt)%Z then
       take 1 digits +:+ (if (1 <? n)%nat then "." +:+ drop 1 digits else "")
       +:+ "e" +:+ (if (decpt - 1 <? 0)%Z then "-" else "+")
       +:+ Float.zfill 2 (Float.dec (Z.abs (decpt - 1)))
     else if (decpt <=? 0)%Z
          then "0." +:+ Float.zfill (Z.to_nat (- decpt)) "" +:+ digits
     else if (Z.of_nat n <=? decpt)%Z
          then digits +:+ Float.zfill (Z.to_nat decpt - n) "" +:+ ".0"
     else take (Z.to_nat decpt) digits +:+ "." +:+ drop (Z.to_nat decpt) digits)
  = false.
Proof.
  destruct (_ || _); [|destruct (decpt <=? 0)%Z; [|destruct (_ <=? _)%Z]].
  - rewrite !all_digits_app. change (all_digits "e") with false.
    by rewrite ?andb_false_r.
  - rewrite !all_digits_app. change (all_digits "0.") with false. done.
  - rewrite !all_digits_app. change (all_digits ".0") with false.
    by rewrite ?andb_false_r.
  - rewrite !all_digits_app. change (all_digits ".") with false.
    by rewrite ?andb_false_r.
Qed.

(** The text of a float has no underscore and no line feed. *)
Lemma repr_plain x : plain (repr x) = true.
Proof.
  destruct x as [s|s| |s m e]; cbn [repr]; try (by destruct s); [done|].
  destruct (shortest m e) as [d p]. destruct (d =? 10)%Z;
    rewrite plain_app, sign_str_plain, layout_plain; done || apply all_digits_dec.
Qed.

(** The text of a float is never a string of digits only: it has a
    point, an exponent or letters. *)
Lemma repr_not_digits x : all_digits (repr x) = false.
Proof.
  destruct x as [s|s| |s m e]; cbn [repr]; try (by destruct s); [done|].
  destruct (shortest m e) as [d p]. destruct (d =? 10)%Z;
    by rewrite all_digits_app, layout_not_digits, andb_false_r.
Qed.

Lemma pretty_Z_of_N (n : N) : pretty (Z.of_N n) = pretty n.
Proof. by destruct n. Qed.

Lemma str_plain v : plain (str v) = true.
Proof.
  destruct v as [[|p|p]|x]; cbn [str]; [done| | |apply repr_plain].
  - apply all_digits_plain, (all_digits_pretty (Npos p)).
  - change (pretty (Z.neg p)) with ("-" +:+ pretty (Npos p)).
    rewrite plain_app. by rewrite (all_digits_plain _ (all_digits_pretty (Npos p))).
Qed.

Lemma str_all_digits v : all_digits (str v) = true ↔ natural v.
Proof.
  split.
  - destruct v as [[|p|p]|x]; cbn [str].
    + intros _. by exists 0%N.
    + intros _. by exists (Npos p).
    + change (pretty (Z.neg p)) with ("-" +:+ pretty (Npos p)).
      rewrite all_digits_app. done.
    + by rewrite repr_not_digits.
  - intros [n ->]. cbn [str]. rewrite pretty_Z_of_N. apply all_digits_pretty.
Qed.

End FloatText.

(** ** The directories of the conditions *)

Section Folders.
Import CreateFiles.

Lemma folder_name_match t p g1 g2 :
  TP_DIR_RE_match (folder_name t p) = Some (g1, g2) ↔
  natural t ∧ natural p ∧ g1 = str t ∧ g2 = str p.
Proof.
  unfold folder_name. split.
  - intros Hm. destruct (TP_DIR_RE_match_plain _ _ _ _ (str_plain t) (str_plain p) Hm)
      as [<- <-].
    apply TP_DIR_RE_match_Some in Hm as (_ & _ & Hd1 & Hd2 & _).
    by rewrite <- !str_all_digits.
  - intros (Ht & Hp & -> & ->). apply TP_DIR_RE_match_Some.
    pose proof Ht as [T ->]. pose proof Hp as [P ->]. cbn [str].
    rewrite !pretty_Z_of_N.
    split; [apply pretty_nonempty|]. split; [apply pretty_nonempty|].
    split; [apply all_digits_pretty|]. split; [apply all_digits_pretty|]. by left.
Qed.

Lemma folder_name_unmatched t p :
  ¬ (natural t ∧ natural p) → TP_DIR_RE_match (folder_name t p) = None.
Proof.
  intros Hn. destruct (TP_DIR_RE_match (folder_name t p)) as [[g1 g2]|] eqn:Hm; [|done].
  apply folder_name_match in Hm. destruct Hn. tauto.
Qed.

Lemma default_pressure : Float.of_decimal false 101325 (-5) = lit "1.01325".
Proof. vm_compute. reflexivity. Qed.

Lemma jobs_folders t ps atm :
  length ps = length atm →
  folder <$> ('(pressure_bar, pressure_atm) ← zip ps atm;
              [ {| folder := folder_name t pressure_bar; temp := t;
                   press := pressure_atm |} ])
  = folder_name t <$> ps.
Proof.
  revert atm. induction ps as [|p ps IH]; intros [|a atm]; try done.
  intros [= Hlen]. cbn [zip zip_with]. rewrite bind_cons. csimpl.
  f_equal. by apply IH.
Qed.

(** The names of the directories: one for each temperature and each
    pressure, the temperatures in the outer loop. *)
Lemma create_folders temp_range pressure_range constant_temp constant_pressure jobs :
  create_directories_with_files temp_range pressure_range constant_temp
    constant_pressure = Some jobs →
  folder <$> jobs
  = (t ← temps_of temp_range constant_temp;
     folder_name t <$> pressures_of pressure_range constant_pressure).
Proof.
  unfold create_directories_with_files.
  assert (match
            match constant_pressure with Some p => Some [p] | None => pressure_range end
          with
          | None => [Flt (Float.of_decimal false 101325 (-5))]
          | Some ps => ps
          end = pressures_of pressure_range constant_pressure) as ->.
  { unfold pressures_of. rewrite default_pressure.
    destruct constant_pressure; [done|]. by destruct pressure_range. }
  fold (temps_of temp_range constant_temp).
  destruct (mapM to_atm _) as [atm|] eqn:Hatm; [|discriminate].
  intros [= <-]. apply length_mapM in Hatm.
  induction (temps_of temp_range constant_temp) as [|t ts IH]; [done|].
  rewrite !bind_cons, fmap_app, IH. f_equal. by apply jobs_folders.
Qed.

Lemma folder_name_inj t p t' p' :
  is_int t = true → is_int p = true → is_int t' = true → is_int p' = true →
  folder_name t p = folder_name t' p' → t = t' ∧ p = p'.
Proof.
  destruct t as [t|], p as [p|], t' as [t'|], p' as [p'|]; try discriminate.
  intros _ _ _ _. unfold folder_name. intros Heq.
  apply (append_inj_l "T_") in Heq. rewrite !(append_cons "_" "P_") in Heq.
  apply plain_prefix_unique in Heq as [Ht Heq]; [|apply (str_plain (Int _))..].
  apply (append_inj_l "P_") in Heq. cbn [str] in *.
  apply (inj pretty) in Ht, Heq. by subst.
Qed.

End Folders.

(** * The properties of the specification *)






(** C3. For every density file, [avg_density] returns the arithmetic mean
    of the floats of the last whitespace-separated tokens of the lines that
    are neither blank nor comments, leaving out the lines whose last token is
    not a float, and raises the empty-data error exactly when there is no
    such sample. The file with lines [1 2 3 1000.0], [1 2 3 1002.0] and
    [# comment] gives 1001.0, and a file of comments and blank lines raises
    the error. *)
Theorem avg_density_is_mean :
  (∀ lines,
     avg_density lines =
     if bool_decide (samples lines = [])
     then Raise (ValueError "No density data lines found")
     else Ok (mean (samples lines)))
  ∧ avg_density (text_file ["1 2 3 1000.0"; "1 2 3 1002.0"; "# comment"])
    = Float.of_string "1001.0"
  ∧ avg_density (text_file ["# comment"; ""; "   "; "  # another"])
    = Raise (ValueError "No density data lines found").
Proof.
  split; [|split; vm_compute; reflexivity].
  intros lines. rewrite avg_density_samples.
  destruct (samples lines); done.
Qed.

(** C4. Only the final line that is neither blank nor a comment decides
    what [last_diff_visc] returns, whatever the earlier lines hold; for the
    two lines [time:0, D[H2O]:1e-9, viscosity:0.5] and
    [time:1, D[H2O]:2e-9, viscosity:0.6] it returns [(2e-9, 0.6)]; a file
    without such a line, or whose final such line lacks one of the two
    keys, raises an exception, which the loop of [main] catches: the record
    of the key is kept, without the two fields. *)
Theorem last_diff_visc_final_line_only :
  (∀ lines,
     last_diff_visc lines =
     match last (filter (fun l => retained l = true) lines) with
     | Some line => last_diff_visc [line]
     | None => Raise (ValueError "No data lines found")
     end)
  ∧ last_diff_visc (text_file ["time:0, D[H2O]:1e-9, viscosity:0.5";
                               "time:1, D[H2O]:2e-9, viscosity:0.6"])
    = (d ← Float.of_string "2e-9"; v ← Float.of_string "0.6"; Ok (d, v))
  ∧ (∀ lines line k,
       last (filter (fun l => retained l = true) lines) = Some line →
       k ∈ ["D[H2O]"; "viscosity"] →
       k ∉ field_keys (Py.strip line) →
       ∃ e, last_diff_visc lines = Raise e)
  ∧ (∀ dens_paths calc_paths k dfile cfile e,
       dens_paths !! k = Some dfile → calc_paths !! k = Some cfile →
       last_diff_visc (lines cfile) = Raise e →
       ∃ rec, aggregate dens_paths calc_paths !! k = Some rec
              ∧ rec !! "self_diffusion" = None ∧ rec !! "viscosity" = None).
Proof.
  split; [|split; [|split]].
  - intros lines. rewrite last_diff_visc_final. unfold final_line.
    destruct (last _) as [line|] eqn:Hlast; simpl; [|done].
    assert (retained line = true) as Hr.
    { apply last_Some_elem_of in Hlast. by apply list_elem_of_filter in Hlast as [? _]. }
    by rewrite last_diff_visc_final, final_line_singleton.
  - vm_compute. reflexivity.
  - intros lines line k Hlast Hk Hmiss. rewrite last_diff_visc_final.
    unfold final_line. rewrite Hlast. simpl. by apply parse_last_missing with k.
  - intros dens_paths calc_paths k dfile cfile e Hd Hc He.
    rewrite aggregate_lookup, decide_True
      by (apply elem_of_union; left; apply elem_of_dom; eauto).
    unfold expected_record. rewrite Hd, Hc, He.
    destruct (avg_density (lines dfile)); eexists; (split; [done|]);
      by rewrite ?lookup_singleton_ne, ?lookup_empty.
Qed.

Lemma last_diff_visc_final_line_only_witness :
  last (filter (fun l => retained l = true)
               (text_file ["# header"; "time:1, D[H2O]:2e-9"; ""]))
  = Some ("time:1, D[H2O]:2e-9" +:+ Py.nl)
  ∧ "viscosity" ∈ ["D[H2O]"; "viscosity"]
  ∧ ("viscosity" ∉ field_keys (Py.strip ("time:1, D[H2O]:2e-9" +:+ Py.nl)))
  ∧ (∃ e, last_diff_visc (text_file ["# header"; "time:1, D[H2O]:2e-9"; ""]) = Raise e).
Proof.
  assert (last (filter (fun l => retained l = true)
                       (text_file ["# header"; "time:1, D[H2O]:2e-9"; ""]))
          = Some ("time:1, D[H2O]:2e-9" +:+ Py.nl)) as H1
    by (vm_compute; reflexivity).
  assert ("viscosity" ∈ ["D[H2O]"; "viscosity"]) as H2
    by (by_evaluation).
  assert ("viscosity" ∉ field_keys (Py.strip ("time:1, D[H2O]:2e-9" +:+ Py.nl))) as H3
    by (by_evaluation).
  exact (conj H1 (conj H2 (conj H3
    (proj1 (proj2 (proj2 last_diff_visc_final_line_only)) _ _ _ H1 H2 H3)))).
Defined.




(** C6, as the code has it. Averaging a file that holds the same block
    twice gives what the block alone gives, provided no value of the three
    averaged columns overflows when it is doubled: none is a finite number
    of magnitude [2 ^ 1023] or more. *)
Theorem process_rdf_duplicate_block header rows b :
  is_header header = true →
  Forall (fun l => is_header l = false) rows →
  rdf_blocks (header :: rows) = Ok [b] →
  Forall (fun x => below_half_max x = true) (designated b) →
  process_rdf ((header :: rows) ++ header :: rows) = process_rdf (header :: rows).
Proof.
  intros Hh Hrows Hsingle Hsafe.
  assert (Forall halving_exact (designated b)) as Hexact.
  { pose proof (designated_well_formed b
                  (single_block_well_formed _ _ _ Hh Hrows Hsingle)) as Hwf.
    rewrite Forall_forall in Hsafe, Hwf. apply Forall_forall. intros x Hx.
    apply doubling_safe_halving_exact. unfold doubling_safe.
    by rewrite (Hwf x Hx), (Hsafe x Hx). }
  clear Hsafe. unfold process_rdf.
  rewrite (rdf_blocks_double header rows Hh Hrows), Hsingle.
  rewrite rdf_blocks_single in Hsingle by done.
  destruct (rows_of rows) as [rs|]; simpl in *; [|discriminate].
  destruct (Np.array rs) as [b'|]; simpl in *; [|discriminate].
  injection Hsingle as ->.
  rewrite !mean_of_column_single, !mean_of_column_double.
  unfold designated in Hexact.
  destruct (Np.column 1 b); simpl; [|done].
  destruct (Np.column 2 b) as [c2|]; simpl; [|done].
  destruct (Np.column 4 b) as [c4|]; simpl; [|done].
  destruct (Np.column 6 b) as [c6|]; simpl; [|done].
  apply Forall_app in Hexact as [H2 Hexact].
  apply Forall_app in Hexact as [H4 H6].
  by rewrite !halve_doubled.
Qed.

Lemma process_rdf_duplicate_block_witness :
  let header := "100 2" +:+ Py.nl in
  let rows := text_file ["1 0.5 1.0 9 2.0 9 3.0"; "2 1.5 1.5 9 2.5 9 3.5"] in
  let b := Np.Nd2 [map lit ["1"; "0.5"; "1.0"; "9"; "2.0"; "9"; "3.0"];
                   map lit ["2"; "1.5"; "1.5"; "9"; "2.5"; "9"; "3.5"]] in
  is_header header = true
  ∧ Forall (fun l => is_header l = false) rows
  ∧ rdf_blocks (header :: rows) = Ok [b]
  ∧ Forall (fun x => below_half_max x = true) (designated b)
  ∧ process_rdf ((header :: rows) ++ header :: rows) = process_rdf (header :: rows).
Proof.
  intros header rows b.
  assert (is_header header = true) as H1 by (vm_compute; reflexivity).
  assert (Forall (fun l => is_header l = false) rows) as H2
    by (repeat constructor).
  assert (rdf_blocks (header :: rows) = Ok [b]) as H3 by (vm_compute; reflexivity).
  assert (Forall (fun x => below_half_max x = true) (designated b)) as H4
    by (repeat constructor).
  exact (conj H1 (conj H2 (conj H3 (conj H4
    (process_rdf_duplicate_block header rows b H1 H2 H3 H4))))).
Defined.

(** C6 as stated fails: for the value [1e308], finite but more than half
    the largest float, the block alone gives the value back and the block
    twice gives infinity. *)
Lemma process_rdf_duplicate_block_overflow :
  let block := text_file ["100 1"; "1 0.5 1e308 9 2.0 9 3.0"] in
  process_rdf block = Ok ([lit "0.5"], [lit "1e308"], [lit "2.0"], [lit "3.0"])
  ∧ process_rdf (block ++ block)
    = Ok ([lit "0.5"], [S754_infinity false], [lit "2.0"], [lit "3.0"])
  ∧ process_rdf (block ++ block) ≠ process_rdf block.
Proof.
  split; [|split]; [vm_compute; reflexivity..|].
  vm_compute. discriminate.
Qed.

(** C7. The pattern takes [T_313_P_1] and [T_100_P_20], with the keys
    (313, 1) and (100, 20), and refuses [Temp_313_Press_1] and [T_313P_1];
    but it is not anchored at the end of the name: [$] also matches before a
    final line feed, so the name [T_313_P_1] followed by a line feed is
    taken as well, with the key (313, 1). *)
Theorem TP_DIR_RE_final_line_feed :
  TP_DIR_RE_match "T_313_P_1" = Some ("313", "1")
  ∧ TP_DIR_RE_match "T_100_P_20" = Some ("100", "20")
  ∧ (Py.int "313", Py.int "1", Py.int "100", Py.int "20") = (313, 1, 100, 20)%N
  ∧ TP_DIR_RE_match "Temp_313_Press_1" = None
  ∧ TP_DIR_RE_match "T_313P_1" = None
  ∧ TP_DIR_RE_match ("T_313_P_1" +:+ Py.nl) = Some ("313", "1")
  ∧ key_of {| parent := condition_dir ("T_313_P_1" +:+ Py.nl); lines := [] |}
    = Some (313, 1)%N.
Proof. repeat split; vm_compute; reflexivity. Qed.


(** C8. What has been set is not overwritten later: a path that the scan
    has stored for a key stays as further files are found, so that of the
    files of one key the first found is kept; and a field that a record has
    after some keys have been processed is the same at the end of the
    loop. *)
Theorem records_accumulate_monotonically :
  (∀ pre post k f,
     scan pre !! k = Some f → scan (pre ++ post) !! k = Some f)
  ∧ (∀ found k,
       scan found !! k = head (filter (fun f => key_of f = Some k) found))
  ∧ (∀ dens_paths calc_paths pre post k field x,
       all_keys dens_paths calc_paths = pre ++ post →
       (fold_left (aggregate_step dens_paths calc_paths) pre ∅ !! k
          ≫= (.!! field)) = Some x →
       (aggregate dens_paths calc_paths !! k ≫= (.!! field)) = Some x).
Proof.
  split; [|split].
  - intros pre post k f Hk. unfold scan. rewrite fold_left_app.
    by apply scan_loop_keeps.
  - intros found k. unfold scan. by rewrite scan_loop_first, lookup_empty.
  - intros dens_paths calc_paths pre post k field x Hkeys Hset.
    unfold aggregate. rewrite Hkeys. apply aggregate_loop_monotone; [|done].
    rewrite <- Hkeys. apply all_keys_NoDup.
Qed.

Lemma records_accumulate_monotonically_witness :
  let dens_paths := scan [density_313; density_350] in
  let calc_paths := scan [calc_313; calc_400] in
  (scan [density_313] !! (313, 1)%N = Some density_313
   ∧ scan ([density_313] ++ [density_350; calc_313]) !! (313, 1)%N
     = Some density_313)
  ∧ (all_keys dens_paths calc_paths = [(313, 1)%N] ++ [(350, 1)%N; (400, 1)%N]
     ∧ (fold_left (aggregate_step dens_paths calc_paths) [(313, 1)%N] ∅
          !! (313, 1)%N ≫= (.!! "density")) = Some (lit "1001.0")
     ∧ (aggregate dens_paths calc_paths !! (313, 1)%N ≫= (.!! "density"))
       = Some (lit "1001.0")).
Proof.
  intros dens_paths calc_paths.
  destruct records_accumulate_monotonically as (Hscan & _ & Hfield).
  split.
  - assert (scan [density_313] !! (313, 1)%N = Some density_313) as H
      by (vm_compute; reflexivity).
    exact (conj H (Hscan _ [density_350; calc_313] _ _ H)).
  - assert (all_keys dens_paths calc_paths
            = [(313, 1)%N] ++ [(350, 1)%N; (400, 1)%N]) as H1
      by (vm_compute; reflexivity).
    assert ((fold_left (aggregate_step dens_paths calc_paths) [(313, 1)%N] ∅
               !! (313, 1)%N ≫= (.!! "density")) = Some (lit "1001.0")) as H2
      by (vm_compute; reflexivity).
    exact (conj H1 (conj H2 (Hfield _ _ _ _ _ _ _ H1 H2))).
Defined.

(** C9. In the final line, a segment without a colon is passed over, but a
    segment whose text after its first colon is not a float makes the whole
    parse raise; the density parser, in contrast, passes over a line whose
    last token is not a float. *)
Theorem last_line_segment_errors :
  (∀ items1 item items2 fields,
     Py.contains ":" (Py.strip item) = false →
     foldM field_step fields (items1 ++ item :: items2) =
     foldM field_step fields (items1 ++ items2))
  ∧ (∀ lines line item,
       last (filter (fun l => retained l = true) lines) = Some line →
       item ∈ Py.split_on "," (Py.strip line) →
       malformed_value item = true →
       ∃ msg, last_diff_visc lines = Raise (ValueError msg))
  ∧ (∀ lines1 line lines2,
       sample line = None →
       avg_density (lines1 ++ line :: lines2) = avg_density (lines1 ++ lines2)).
Proof.
  split; [|split].
  - intros. by apply fields_loop_skip.
  - intros lines line item Hlast Hin Hbad. rewrite last_diff_visc_final.
    unfold final_line. rewrite Hlast. simpl. unfold parse_last, parse_fields.
    destruct (fields_loop_malformed _ _ ∅ Hin Hbad) as [msg ->]. simpl. eauto.
  - intros lines1 line lines2 Hs. rewrite !avg_density_samples.
    unfold samples. rewrite !omap_app. simpl. by rewrite Hs.
Qed.

Lemma last_line_segment_errors_witness :
  (Py.contains ":" (Py.strip " note ") = false
   ∧ foldM field_step ∅ (["D[H2O]:2e-9"] ++ " note " :: [" viscosity:0.6"]) =
     foldM field_step ∅ (["D[H2O]:2e-9"] ++ [" viscosity:0.6"]))
  ∧ (malformed_value " viscosity:n/a" = true
     ∧ (∃ msg, last_diff_visc (text_file ["D[H2O]:2e-9, viscosity:n/a"])
               = Raise (ValueError msg)))
  ∧ (sample ("1 2 3 n/a" +:+ Py.nl) = None
     ∧ avg_density (text_file ["1 2 3 1000.0"] ++ ("1 2 3 n/a" +:+ Py.nl) :: [])
       = avg_density (text_file ["1 2 3 1000.0"] ++ [])).
Proof.
  destruct last_line_segment_errors as (Hskip & Hbad & Hdens).
  split; [|split].
  - assert (Py.contains ":" (Py.strip " note ") = false) as H by (vm_compute; reflexivity).
    exact (conj H (Hskip _ _ _ _ H)).
  - assert (malformed_value " viscosity:n/a" = true) as H by (vm_compute; reflexivity).
    refine (conj H (Hbad _ ("D[H2O]:2e-9, viscosity:n/a" +:+ Py.nl) _ _ _ H)).
    + vm_compute. reflexivity.
    + by_evaluation.
  - assert (sample ("1 2 3 n/a" +:+ Py.nl) = None) as H by (vm_compute; reflexivity).
    exact (conj H (Hdens _ _ _ H)).
Defined.

(** C10. The first line of an RDF file that is neither a comment nor blank
    has to be a two-token header: when a data row comes before every header,
    [process_rdf] raises the exception of appending to the block that was
    never started, which is not the [No RDF blocks found] error. *)
Theorem process_rdf_data_before_header pre line post :
  Forall (fun l => rdf_skipped l = true) pre →
  is_data line = true →
  process_rdf (pre ++ line :: post)
  = Raise (AttributeError "'NoneType' object has no attribute 'append'")
  ∧ process_rdf (pre ++ line :: post) ≠ Raise (ValueError "No RDF blocks found").
Proof.
  intros Hpre Hdata. unfold process_rdf.
  rewrite rdf_blocks_no_header by done. simpl. split; [done|discriminate].
Qed.

Lemma process_rdf_data_before_header_witness :
  Forall (fun l => rdf_skipped l = true) (text_file ["# g(r)"; ""])
  ∧ is_data ("1 0.05 0.0 0.0 0.0 0.0 0.0 0.0" +:+ Py.nl) = true
  ∧ process_rdf (text_file ["# g(r)"; ""]
                 ++ ("1 0.05 0.0 0.0 0.0 0.0 0.0 0.0" +:+ Py.nl) :: text_file ["100 2"])
    = Raise (AttributeError "'NoneType' object has no attribute 'append'")
  ∧ process_rdf (text_file ["# g(r)"; ""]
                 ++ ("1 0.05 0.0 0.0 0.0 0.0 0.0 0.0" +:+ Py.nl) :: text_file ["100 2"])
    ≠ Raise (ValueError "No RDF blocks found").
Proof.
  assert (Forall (fun l => rdf_skipped l = true) (text_file ["# g(r)"; ""])) as H1
    by (repeat constructor).
  assert (is_data ("1 0.05 0.0 0.0 0.0 0.0 0.0 0.0" +:+ Py.nl) = true) as H2
    by (vm_compute; reflexivity).
  exact (conj H1 (conj H2
    (process_rdf_data_before_header _ _ (text_file ["100 2"]) H1 H2))).
Defined.

(** * Further properties of the code *)

(** X1. [find_tp_ancestor] stops at the nearest entry of the chain that is a
    directory with a name the pattern takes, and gives its key and its path;
    it gives nothing when the chain has no such entry. *)
Theorem find_tp_ancestor_nearest :
  (∀ pre d rest g1 g2,
     Forall (fun x => accepted x = false) pre →
     is_dir d = true → TP_DIR_RE_match (name d) = Some (g1, g2) →
     find_tp_ancestor (pre ++ d :: rest) = Some (Py.int g1, Py.int g2, d :: rest))
  ∧ (∀ p, Forall (fun d => accepted d = false) p → find_tp_ancestor p = None)
  ∧ (∀ p T P q,
       find_tp_ancestor p = Some (T, P, q) →
       ∃ pre d rest g1 g2,
         p = pre ++ q ∧ q = d :: rest
         ∧ Forall (fun x => accepted x = false) pre
         ∧ is_dir d = true ∧ TP_DIR_RE_match (name d) = Some (g1, g2)
         ∧ T = Py.int g1 ∧ P = Py.int g2).
Proof.
  split; [|split].
  - apply find_tp_ancestor_first.
  - apply find_tp_ancestor_none.
  - apply find_tp_ancestor_Some.
Qed.

Lemma find_tp_ancestor_nearest_witness :
  let run := {| name := "run_2"; is_dir := true |} in
  let inner := {| name := "T_313_P_1"; is_dir := true |} in
  let outer := {| name := "T_999_P_9"; is_dir := true |} in
  Forall (fun x => accepted x = false) [run]
  ∧ is_dir inner = true
  ∧ TP_DIR_RE_match (name inner) = Some ("313", "1")
  ∧ find_tp_ancestor ([run] ++ inner :: [outer])
    = Some (Py.int "313", Py.int "1", inner :: [outer]).
Proof.
  intros run inner outer.
  assert (Forall (fun x => accepted x = false) [run]) as H1 by (repeat constructor).
  assert (is_dir inner = true) as H2 by reflexivity.
  assert (TP_DIR_RE_match (name inner) = Some ("313", "1")) as H3
    by (vm_compute; reflexivity).
  exact (conj H1 (conj H2 (conj H3
    (proj1 find_tp_ancestor_nearest [run] inner [outer] _ _ H1 H2 H3)))).
Defined.

(** X2. A sample that is not-a-number makes the average not-a-number:
    [float] takes the token [nan], and the sum never recovers from it. *)
Theorem avg_density_nan lines :
  S754_nan ∈ samples lines → avg_density lines = Ok S754_nan.
Proof.
  intros Hnan. rewrite avg_density_samples.
  destruct (samples lines) as [|x xs] eqn:Hs; [by apply elem_of_nil in Hnan|].
  unfold mean. by rewrite (sum_nan _ _ Hnan), div_nan_l.
Qed.

Lemma avg_density_nan_witness :
  S754_nan ∈ samples (text_file ["1 2 3 1000.0"; "1 2 3 nan"; "1 2 3 1002.0"])
  ∧ avg_density (text_file ["1 2 3 1000.0"; "1 2 3 nan"; "1 2 3 1002.0"])
    = Ok S754_nan.
Proof.
  assert (S754_nan ∈ samples (text_file ["1 2 3 1000.0"; "1 2 3 nan"; "1 2 3 1002.0"]))
    as H by by_evaluation.
  exact (conj H (avg_density_nan _ H)).
Defined.

(** X3. When a key occurs in several segments of the final line, the last
    of them gives the value: what [last_diff_visc] returns for [D[H2O]] and
    for [viscosity] is the float of the last segment with that key. *)
Theorem last_diff_visc_last_segment lines line d v :
  final_line lines = Some line →
  last_diff_visc lines = Ok (d, v) →
  last_value "D[H2O]" line = Some d ∧ last_value "viscosity" line = Some v.
Proof.
  intros Hline. rewrite last_diff_visc_final, Hline. unfold parse_last, parse_fields.
  destruct (foldM field_step ∅ (Py.split_on "," line)) as [fields|] eqn:Hloop;
    simpl; [|discriminate].
  pose proof (fields_loop_lookup _ _ _ "D[H2O]" Hloop) as Hd.
  pose proof (fields_loop_lookup _ _ _ "viscosity" Hloop) as Hv.
  unfold getitem, last_value.
  destruct (fields !! "D[H2O]") as [d'|] eqn:Ed; simpl; [|discriminate].
  destruct (fields !! "viscosity") as [v'|] eqn:Ev; simpl; [|discriminate].
  intros [= <- <-]. rewrite lookup_empty in Hd, Hv.
  destruct (last (filter _ _)); [|discriminate].
  destruct (last (filter (fun item => field_key item = Some "viscosity") _));
    [|discriminate]. simpl. by rewrite <- Hd, <- Hv.
Qed.

Lemma last_diff_visc_last_segment_witness :
  let f := text_file ["D[H2O]:1e-9, viscosity:0.5, D[H2O] : 2e-9"] in
  final_line f = Some "D[H2O]:1e-9, viscosity:0.5, D[H2O] : 2e-9"
  ∧ last_diff_visc f = Ok (lit "2e-9", lit "0.5")
  ∧ last_value "D[H2O]" "D[H2O]:1e-9, viscosity:0.5, D[H2O] : 2e-9" = Some (lit "2e-9")
  ∧ last_value "viscosity" "D[H2O]:1e-9, viscosity:0.5, D[H2O] : 2e-9" = Some (lit "0.5").
Proof.
  intros f.
  assert (final_line f = Some "D[H2O]:1e-9, viscosity:0.5, D[H2O] : 2e-9") as H1
    by (vm_compute; reflexivity).
  assert (last_diff_visc f = Ok (lit "2e-9", lit "0.5")) as H2
    by (vm_compute; reflexivity).
  exact (conj H1 (conj H2 (last_diff_visc_last_segment f _ _ _ H1 H2))).
Defined.

(** X4. [process_rdf] collects one block for each header line (a kept line
    of exactly two tokens): when the loop and the conversions go through,
    the number of blocks is the number of header lines of the file. *)
Theorem rdf_blocks_one_per_header lines blocks :
  rdf_blocks lines = Ok blocks →
  length blocks = length (filter (fun l => is_header l = true) lines).
Proof.
  unfold rdf_blocks.
  destruct (foldM rdf_step ([], None) lines) as [st|] eqn:Hloop; simpl; [|discriminate].
  intros Hc. rewrite (close_block_length _ _ Hc), (rdf_loop_begun _ _ _ Hloop).
  done.
Qed.

Lemma rdf_blocks_one_per_header_witness :
  let f := text_file ["# g(r)"; "100 2"; "1 0.5 1 2 3 4 5"; "2 1.5 1 2 3 4 5";
                      "200 2"; "1 0.5 2 3 4 5 6"; "2 1.5 2 3 4 5 6"] in
  ∃ b1 b2, rdf_blocks f = Ok [b1; b2]
    ∧ length [b1; b2] = length (filter (fun l => is_header l = true) f).
Proof.
  intros f.
  destruct (rdf_blocks f) as [[|b1 [|b2 [|? ?]]]|] eqn:H;
    try (exfalso; vm_compute in H; discriminate).
  exists b1, b2. exact (conj eq_refl (rdf_blocks_one_per_header f _ H)).
Defined.

(** X5. Whenever [process_rdf] returns, its four arrays have the same
    length, and it is at least one: [np.column_stack] in [main] and in
    [rdf.py] gets columns that fit. *)
Theorem process_rdf_equal_lengths lines r g77 g88 g78 :
  process_rdf lines = Ok (r, g77, g88, g78) →
  0 < length r
  ∧ length g77 = length r ∧ length g88 = length r ∧ length g78 = length r.
Proof.
  unfold process_rdf.
  destruct (rdf_blocks lines) as [[|b0 bs]|] eqn:Hblocks; simpl; try discriminate.
  destruct (Np.column 1 b0) as [r'|] eqn:Hr; simpl; [|discriminate].
  destruct (mean_of_column 2 b0 bs) as [g1|] eqn:H1; simpl; [|discriminate].
  destruct (mean_of_column 4 b0 bs) as [g2|] eqn:H2; simpl; [|discriminate].
  destruct (mean_of_column 6 b0 bs) as [g3|] eqn:H3; simpl; [|discriminate].
  intros [= <- <- <- <-].
  apply (rdf_blocks_Forall from_rows) in Hblocks; [|apply array_from_rows].
  apply Forall_cons in Hblocks as [Hb0 _].
  split; [by eapply column_from_rows|].
  rewrite (mean_of_column_length _ _ _ _ H1), (mean_of_column_length _ _ _ _ H2),
    (mean_of_column_length _ _ _ _ H3), (column_length _ _ _ Hr). done.
Qed.

Lemma process_rdf_equal_lengths_witness :
  let f := text_file ["100 2"; "1 0.5 1 2 3 4 5"; "2 1.5 1 2 3 4 5";
                      "200 2"; "1 0.5 2 3 4 5 6"; "2 1.5 2 3 4 5 6"] in
  ∃ r g77 g88 g78, process_rdf f = Ok (r, g77, g88, g78)
    ∧ 0 < length r
    ∧ length g77 = length r ∧ length g88 = length r ∧ length g78 = length r.
Proof.
  intros f.
  destruct (process_rdf f) as [[[[r g77] g88] g78]|] eqn:H;
    [|exfalso; vm_compute in H; discriminate].
  exists r, g77, g88, g78.
  exact (conj eq_refl (process_rdf_equal_lengths f r g77 g88 g78 H)).
Defined.

(** X6. A header line that no data row follows before the next header line
    or the end of the file makes [process_rdf] fail: the block is the empty
    one-dimensional array, and taking a column of it raises [IndexError]
    when the loop itself went through. *)
Theorem process_rdf_header_without_rows pre header mid rest :
  is_header header = true →
  Forall (fun l => rdf_skipped l = true) mid →
  (rest = [] ∨ ∃ next post, rest = next :: post ∧ is_header next = true) →
  is_ok (process_rdf (pre ++ header :: mid ++ rest)) = false
  ∧ (is_ok (rdf_blocks (pre ++ header :: mid ++ rest)) = true →
     ∃ msg, process_rdf (pre ++ header :: mid ++ rest) = Raise (IndexError msg)).
Proof.
  intros Hh Hmid Hrest.
  assert (∀ blocks, rdf_blocks (pre ++ header :: mid ++ rest) = Ok blocks →
                    Nd1 [] ∈ blocks) as Hempty.
  { intros blocks. unfold rdf_blocks. rewrite foldM_app. simpl.
    destruct (foldM rdf_step ([], None) pre) as [st0|]; simpl; [|discriminate].
    destruct (rdf_step st0 header) as [st1|] eqn:H1; simpl; [|discriminate].
    apply rdf_step_opens in H1; [|done]. rewrite foldM_app.
    rewrite rdf_loop_skipped by done. simpl.
    destruct st1 as [bs1 current]. simpl in H1. subst current.
    destruct Hrest as [->|(next & post & -> & Hnext)]; simpl.
    - intros [= <-]. apply elem_of_app. right. by apply list_elem_of_singleton.
    - rewrite rdf_step_header by done. simpl.
      destruct (foldM rdf_step _ post) as [st2|] eqn:H2; simpl; [|discriminate].
      apply close_block_keeps. eapply rdf_loop_keeps; [|exact H2].
      simpl. apply elem_of_app. right. by apply list_elem_of_singleton. }
  destruct (rdf_blocks (pre ++ header :: mid ++ rest)) as [blocks|e] eqn:Hblocks.
  - destruct (process_rdf_empty_block_raises _ _ Hblocks (Hempty _ eq_refl)) as [msg Hp].
    rewrite Hp. split; [done|]. eauto.
  - split; [|discriminate]. unfold process_rdf. by rewrite Hblocks.
Qed.

Lemma process_rdf_header_without_rows_witness :
  let pre := text_file ["100 2"; "1 0.5 1 2 3 4 5"] in
  let mid := text_file ["# no rows"; ""] in
  let rest := text_file ["300 2"; "1 0.5 1 2 3 4 5"] in
  is_header "200 2" = true
  ∧ Forall (fun l => rdf_skipped l = true) mid
  ∧ is_ok (rdf_blocks (pre ++ "200 2" :: mid ++ rest)) = true
  ∧ is_ok (process_rdf (pre ++ "200 2" :: mid ++ rest)) = false
  ∧ ∃ msg, process_rdf (pre ++ "200 2" :: mid ++ rest) = Raise (IndexError msg).
Proof.
  intros pre mid rest.
  assert (is_header "200 2" = true) as H1 by (vm_compute; reflexivity).
  assert (Forall (fun l => rdf_skipped l = true) mid) as H2
    by (repeat constructor).
  assert (rest = [] ∨ ∃ next post, rest = next :: post ∧ is_header next = true) as H3.
  { right. eexists _, _. split; [reflexivity|]. vm_compute. reflexivity. }
  assert (is_ok (rdf_blocks (pre ++ "200 2" :: mid ++ rest)) = true) as H4
    by (vm_compute; reflexivity).
  pose proof (process_rdf_header_without_rows pre "200 2" mid rest H1 H2 H3) as H.
  exact (conj H1 (conj H2 (conj H4 (conj (proj1 H) (proj2 H H4))))).
Defined.

(** X7. The report has the header line and then exactly one row for each
    record, in strictly increasing order of the key: by temperature, and
    by pressure for equal temperatures. *)
Theorem report_rows_in_key_order records :
  ∃ ks, results_lines records = header :: map (fun k => row k (records !!! k)) ks
        ∧ StronglySorted key_lt ks
        ∧ (∀ k, k ∈ ks ↔ is_Some (records !! k))
        ∧ length (results_lines records) = S (size records).
Proof.
  exists (sorted_keys (dom records)). split; [done|]. split; [|split].
  - apply sorted_keys_strict.
  - intros k. rewrite elem_of_sorted_keys. apply elem_of_dom.
  - unfold results_lines. simpl. rewrite length_map, length_sorted_keys.
    by rewrite size_dom.
Qed.

(** X8. The record of a condition depends on the files of that condition
    only: two runs that find the same density files and the same key/value
    files for the key [k], in the same order, build the same record for
    [k], whatever else they find and whether or not it can be parsed. *)
Theorem main_record_depends_on_own_files dens_found calc_found dens_found' calc_found' k :
  filter (fun f => key_of f = Some k) dens_found
  = filter (fun f => key_of f = Some k) dens_found' →
  filter (fun f => key_of f = Some k) calc_found
  = filter (fun f => key_of f = Some k) calc_found' →
  (main dens_found calc_found).1 !! k = (main dens_found' calc_found').1 !! k.
Proof.
  intros Hd Hc. unfold main. simpl.
  apply aggregate_local; rewrite !scan_lookup; by f_equal.
Qed.

Lemma main_record_depends_on_own_files_witness :
  let k := (313, 1)%N in
  filter (fun f => key_of f = Some k) [density_313; density_400_empty]
  = filter (fun f => key_of f = Some k) [density_350; density_313]
  ∧ filter (fun f => key_of f = Some k) [calc_400; calc_313]
    = filter (fun f => key_of f = Some k) [calc_313]
  ∧ (main [density_313; density_400_empty] [calc_400; calc_313]).1 !! k
    = (main [density_350; density_313] [calc_313]).1 !! k.
Proof.
  intros k.
  assert (filter (fun f => key_of f = Some k) [density_313; density_400_empty]
          = filter (fun f => key_of f = Some k) [density_350; density_313]) as H1
    by (vm_compute; reflexivity).
  assert (filter (fun f => key_of f = Some k) [calc_400; calc_313]
          = filter (fun f => key_of f = Some k) [calc_313]) as H2
    by (vm_compute; reflexivity).
  exact (conj H1 (conj H2 (main_record_depends_on_own_files _ _ _ _ k H1 H2))).
Defined.

(** X9. Every record that [main] builds has no fields but [density],
    [self_diffusion] and [viscosity]; it has [self_diffusion] exactly when
    it has [viscosity], and then it has [density] as well. *)
Theorem main_record_fields dens_found calc_found k rec :
  (main dens_found calc_found).1 !! k = Some rec →
  (∀ field, is_Some (rec !! field) →
            field ∈ ["density"; "self_diffusion"; "viscosity"])
  ∧ (is_Some (rec !! "self_diffusion") ↔ is_Some (rec !! "viscosity"))
  ∧ (is_Some (rec !! "self_diffusion") → is_Some (rec !! "density")).
Proof.
  unfold main. simpl. rewrite aggregate_lookup.
  destruct (decide _); [|discriminate]. intros [= <-].
  apply expected_record_fields.
Qed.

Lemma main_record_fields_witness :
  ∃ rec, (main [density_313; density_350] [calc_313]).1 !! (313, 1)%N = Some rec
    ∧ (∀ field, is_Some (rec !! field) →
                field ∈ ["density"; "self_diffusion"; "viscosity"])
    ∧ (is_Some (rec !! "self_diffusion") ↔ is_Some (rec !! "viscosity"))
    ∧ (is_Some (rec !! "self_diffusion") → is_Some (rec !! "density")).
Proof.
  destruct ((main [density_313; density_350] [calc_313]).1 !! (313, 1)%N)
    as [rec|] eqn:H; [|exfalso; vm_compute in H; discriminate].
  exists rec. exact (conj eq_refl (main_record_fields _ _ _ _ H)).
Defined.

(** X10. Among the names that a string of this development holds, those
    of code points below U+0100, the names that [TP_DIR_RE] takes are
    exactly: [T_], one or more of the digits [0] to [9], [_P_], one or more
    of these digits, and then the end of the name or one final line feed;
    the groups are the two digit strings. (The decimal digits of other
    scripts, which [\d] and [int] take as well, lie above U+00FF.) *)
Theorem TP_DIR_RE_accepted_names s g1 g2 :
  TP_DIR_RE_match s = Some (g1, g2) ↔
  g1 ≠ "" ∧ g2 ≠ "" ∧ all_digits g1 = true ∧ all_digits g2 = true
  ∧ (s = "T_" +:+ g1 +:+ "_P_" +:+ g2 ∨ s = "T_" +:+ g1 +:+ "_P_" +:+ g2 +:+ Py.nl).
Proof. apply TP_DIR_RE_match_Some. Qed.

(** X11. The key is made of integers, so leading zeros in a directory name
    are lost: a directory [T_0313_P_01] has the key of [T_313_P_1], and of
    two files found in two such directories the scan keeps the first and
    drops the second. *)
Theorem zero_padded_names_share_key g1 g2 n m rest rest' :
  g1 ≠ "" → g2 ≠ "" → all_digits g1 = true → all_digits g2 = true →
  let plain := directory ("T_" +:+ g1 +:+ "_P_" +:+ g2) in
  let padded := directory ("T_" +:+ (zeros n +:+ g1) +:+ "_P_" +:+ (zeros m +:+ g2)) in
  let k := (Py.int g1, Py.int g2) in
  (∀ ls, key_of {| parent := plain :: rest; lines := ls |} = Some k)
  ∧ (∀ ls, key_of {| parent := padded :: rest'; lines := ls |} = Some k)
  ∧ (∀ ls ls' found,
       scan ({| parent := padded :: rest'; lines := ls' |}
             :: {| parent := plain :: rest; lines := ls |} :: found) !! k
       = Some {| parent := padded :: rest'; lines := ls' |}).
Proof.
  intros Hg1 Hg2 Hd1 Hd2 plain padded k.
  assert (∀ ls, key_of {| parent := plain :: rest; lines := ls |} = Some k) as Hplain.
  { intros ls. apply key_of_directory, TP_DIR_RE_match_Some. by eauto 10. }
  assert (∀ ls, key_of {| parent := padded :: rest'; lines := ls |} = Some k) as Hpadded.
  { intros ls. unfold k. rewrite <- (int_zeros n g1), <- (int_zeros m g2).
    apply key_of_directory, TP_DIR_RE_match_Some.
    split; [by apply zeros_nonempty|]. split; [by apply zeros_nonempty|].
    split; [by apply all_digits_zeros|]. split; [by apply all_digits_zeros|].
    by left. }
  split; [done|]. split; [done|]. intros ls ls' found.
  rewrite scan_lookup, filter_cons, decide_True by apply Hpadded. done.
Qed.

Lemma zero_padded_names_share_key_witness :
  let rest := [directory "sims"] in
  let plain := directory ("T_" +:+ "313" +:+ "_P_" +:+ "1") in
  let padded := directory ("T_" +:+ (zeros 1 +:+ "313") +:+ "_P_" +:+ (zeros 2 +:+ "1")) in
  name padded = "T_0313_P_001"
  ∧ key_of {| parent := plain :: rest; lines := [] |} = Some (313, 1)%N
  ∧ key_of {| parent := padded :: rest; lines := [] |} = Some (313, 1)%N.
Proof.
  intros rest plain padded.
  assert ("313" ≠ "") as H1 by discriminate.
  assert ("1" ≠ "") as H2 by discriminate.
  assert (all_digits "313" = true) as H3 by reflexivity.
  assert (all_digits "1" = true) as H4 by reflexivity.
  pose proof (zero_padded_names_share_key "313" "1" 1 2 rest rest H1 H2 H3 H4) as H.
  exact (conj eq_refl (conj (proj1 H []) (proj1 (proj2 H) []))).
Defined.

(** X12. On the same lines of text the script [rdf.py] and [process_rdf]
    go alike: when one returns so does the other, and the table that the
    script saves has the arrays of [process_rdf] as its columns. They
    differ on lines without any block: the script raises [IndexError] at
    [blocks[0]], where [process_rdf] raises its [ValueError]. (The two
    programs decode a file in different ways, see [RdfScript]; an ASCII
    file gives both the same lines.) *)
Theorem rdf_script_agrees_with_process_rdf lines :
  is_ok (RdfScript.script lines) = is_ok (process_rdf lines)
  ∧ (∀ r g77 g88 g78,
       process_rdf lines = Ok (r, g77, g88, g78) →
       ∃ out,
         RdfScript.script lines
         = Ok {| RdfScript.file := "rdf_average.dat";
                 RdfScript.header := "r g77 g88 g78";
                 RdfScript.out := out |}
         ∧ length out = length r
         ∧ ∀ i, out !! i = table_row r g77 g88 g78 i)
  ∧ (rdf_blocks lines = Ok [] →
     RdfScript.script lines = Raise (IndexError "list index out of range")
     ∧ process_rdf lines = Raise (ValueError "No RDF blocks found")).
Proof.
  assert (∀ r g77 g88 g78,
            process_rdf lines = Ok (r, g77, g88, g78) →
            ∃ out,
              RdfScript.script lines
              = Ok {| RdfScript.file := "rdf_average.dat";
                      RdfScript.header := "r g77 g88 g78";
                      RdfScript.out := out |}
              ∧ length out = length r
              ∧ ∀ i, out !! i = table_row r g77 g88 g78 i) as Hok.
  { intros r g77 g88 g78 Hp.
    destruct (process_rdf_table _ _ _ _ _ Hp) as (out & Hout & Hlen & Hrows).
    exists out. split; [|done]. unfold process_rdf in Hp. unfold RdfScript.script.
    destruct (rdf_blocks lines) as [[|b0 bs]|]; simpl in *; try discriminate.
    destruct (Np.column 1 b0) as [r'|]; simpl in *; [|discriminate].
    destruct (mean_of_column 2 b0 bs) as [g1|]; simpl in *; [|discriminate].
    destruct (mean_of_column 4 b0 bs) as [g2|]; simpl in *; [|discriminate].
    destruct (mean_of_column 6 b0 bs) as [g3|]; simpl in *; [|discriminate].
    injection Hp as <- <- <- <-. by rewrite Hout. }
  split; [|split; [exact Hok|]].
  - destruct (process_rdf lines) as [[[[r g77] g88] g78]|e] eqn:Hp.
    + destruct (Hok _ _ _ _ eq_refl) as (out & -> & _). done.
    + unfold process_rdf in Hp. unfold RdfScript.script.
      destruct (rdf_blocks lines) as [[|b0 bs]|]; simpl in *; try done.
      destruct (mean_of_column 2 b0 bs) as [g1|]; simpl in *; [|done].
      destruct (mean_of_column 4 b0 bs) as [g2|]; simpl in *; [|done].
      destruct (mean_of_column 6 b0 bs) as [g3|]; simpl in *; [|done].
      destruct (Np.column 1 b0) as [r'|]; simpl in *; [discriminate|done].
  - intros Hblocks. unfold RdfScript.script, process_rdf. by rewrite Hblocks.
Qed.

Lemma rdf_script_agrees_with_process_rdf_witness :
  let f := text_file ["100 2"; "1 0.5 1 2 3 4 5"; "2 1.5 1 2 3 4 5"] in
  let g := text_file ["# only a comment"] in
  (∃ r g77 g88 g78 out,
     process_rdf f = Ok (r, g77, g88, g78)
     ∧ RdfScript.script f
       = Ok {| RdfScript.file := "rdf_average.dat";
               RdfScript.header := "r g77 g88 g78";
               RdfScript.out := out |}
     ∧ length out = length r
     ∧ ∀ i, out !! i = table_row r g77 g88 g78 i)
  ∧ rdf_blocks g = Ok []
  ∧ RdfScript.script g = Raise (IndexError "list index out of range")
  ∧ process_rdf g = Raise (ValueError "No RDF blocks found").
Proof.
  intros f g. split.
  - destruct (process_rdf f) as [[[[r g77] g88] g78]|] eqn:H;
      [|exfalso; vm_compute in H; discriminate].
    destruct (proj1 (proj2 (rdf_script_agrees_with_process_rdf f)) r g77 g88 g78 H)
      as (out & Hs & Hlen & Hrows).
    exists r, g77, g88, g78, out. exact (conj eq_refl (conj Hs (conj Hlen Hrows))).
  - assert (rdf_blocks g = Ok []) as H by (vm_compute; reflexivity).
    exact (conj H (proj2 (proj2 (rdf_script_agrees_with_process_rdf g)) H)).
Defined.

(** X13. An RDF file under a condition directory that [process_rdf] reads
    gets one figure and one table, written one after the other, with the
    next index of its key: one more than the number of files of that key
    that got output before it. The table has the four arrays as columns. *)
Theorem rdf_files_numbered_per_key pre f post T P r g77 g88 g78 :
  key_of f = Some (T, P) →
  process_rdf (lines f) = Ok (r, g77, g88, g78) →
  ∃ out later,
    (Outputs.rdf_files (pre ++ f :: post)).2
    = (Outputs.rdf_files pre).2
      ++ [Outputs.Figure (Outputs.png_name T P (rank (T, P) pre + 1)) r g77 g88 g78;
          Outputs.Data (Outputs.dat_name T P (rank (T, P) pre + 1)) "r g77 g88 g78" out]
      ++ later
    ∧ length out = length r
    ∧ ∀ i, out !! i = table_row r g77 g88 g78 i.
Proof.
  intros Hk Hp. unfold Outputs.rdf_files. rewrite fold_left_app. simpl.
  pose proof (rdf_counter_rank pre (T, P)) as Hc. unfold Outputs.rdf_files in Hc.
  destruct (fold_left Outputs.rdf_file_step pre (∅, [])) as [c files].
  cbn [fst snd] in *.
  destruct (rdf_file_step_good c files f _ _ _ _ _ _ Hk Hp) as (out & -> & Hlen & Hrows).
  assert (default 0%N (c !! (T, P)) = rank (T, P) pre) as ->.
  { unfold key in *. rewrite Hc. by destruct (decide _) as [->|?]. }
  destruct (rdf_loop_extends post (<[(T, P) := (rank (T, P) pre + 1)%N]> c)
              ((files ++ [Outputs.Figure (Outputs.png_name T P (rank (T, P) pre + 1)) r g77 g88 g78])
               ++ [Outputs.Data (Outputs.dat_name T P (rank (T, P) pre + 1)) "r g77 g88 g78" out]))
    as [later ->].
  exists out, later. split; [|done]. by rewrite <- !app_assoc.
Qed.

Lemma rdf_files_numbered_per_key_witness :
  let pre := [rdf_313; rdf_313_broken] in
  key_of rdf_313_rerun = Some (313, 1)%N
  ∧ rank (313, 1)%N pre = 1%N
  ∧ ∃ r g77 g88 g78 out later,
      process_rdf (lines rdf_313_rerun) = Ok (r, g77, g88, g78)
      ∧ (Outputs.rdf_files (pre ++ rdf_313_rerun :: [rdf_313])).2
        = (Outputs.rdf_files pre).2
          ++ [Outputs.Figure (Outputs.png_name 313 1 (rank (313, 1)%N pre + 1))
                r g77 g88 g78;
              Outputs.Data (Outputs.dat_name 313 1 (rank (313, 1)%N pre + 1))
                "r g77 g88 g78" out]
          ++ later
      ∧ length out = length r
      ∧ ∀ i, out !! i = table_row r g77 g88 g78 i.
Proof.
  intros pre.
  assert (key_of rdf_313_rerun = Some (313, 1)%N) as H1 by (vm_compute; reflexivity).
  assert (rank (313, 1)%N pre = 1%N) as H2 by (vm_compute; reflexivity).
  destruct (process_rdf (lines rdf_313_rerun)) as [[[[r g77] g88] g78]|] eqn:H3;
    [|exfalso; vm_compute in H3; discriminate].
  destruct (rdf_files_numbered_per_key pre rdf_313_rerun [rdf_313] _ _ _ _ _ _ H1 H3)
    as (out & later & H).
  exact (conj H1 (conj H2
    (ex_intro _ r (ex_intro _ g77 (ex_intro _ g88 (ex_intro _ g78
      (ex_intro _ out (ex_intro _ later (conj eq_refl H))))))))).
Defined.

(** X14. An RDF file without a condition directory above it, or one that
    [process_rdf] cannot read, leaves no trace: nothing is written for it
    and no index is used up, so the run is the same without the file. *)
Theorem rdf_files_skip_unreadable pre f post :
  rdf_good f = false →
  Outputs.rdf_files (pre ++ f :: post) = Outputs.rdf_files (pre ++ post).
Proof.
  intros Hbad. unfold Outputs.rdf_files. rewrite !fold_left_app. simpl.
  by rewrite rdf_file_step_bad.
Qed.

Lemma rdf_files_skip_unreadable_witness :
  rdf_good rdf_313_broken = false
  ∧ Outputs.rdf_files ([rdf_313] ++ rdf_313_broken :: [rdf_313_rerun])
    = Outputs.rdf_files ([rdf_313] ++ [rdf_313_rerun]).
Proof.
  assert (rdf_good rdf_313_broken = false) as H by (vm_compute; reflexivity).
  exact (conj H (rdf_files_skip_unreadable [rdf_313] rdf_313_broken [rdf_313_rerun] H)).
Defined.

(** X15. No two files that the RDF loop writes have the same name: a run
    never overwrites one of its own figures or tables, also when several
    RDF files belong to one condition. The counter of a key ends as the
    number of its files that got output. *)
Theorem rdf_files_distinct_names found :
  NoDup (map written_name (Outputs.rdf_files found).2)
  ∧ ∀ k, (Outputs.rdf_files found).1 !! k
         = if decide (rank k found = 0%N) then None else Some (rank k found).
Proof.
  split; [|apply rdf_counter_rank].
  apply rdf_loop_names; [constructor|constructor].
Qed.

(** X16. Each of the three figures of [plot_vs_temperature] has one curve
    for each pressure that has a record with all three values, by
    increasing pressure, labelled with the pressure; a curve holds the
    complete records of its pressure by strictly increasing temperature.
    A pressure whose records are all incomplete gets no curve. *)
Theorem plot_vs_temperature_curves items :
  NoDup (map fst items) →
  ∃ ps f1 f2 f3,
    Outputs.plot_vs_temperature items = [f1; f2; f3]
    ∧ Outputs.fig_name <$> [f1; f2; f3]
      = ["T_vs_density.png"; "T_vs_selfdiff.png"; "T_vs_viscosity.png"]
    ∧ StronglySorted N.lt ps
    ∧ (∀ P, P ∈ ps ↔ points_at P items ≠ [])
    ∧ Forall2 (is_curve items Outputs.dens_of) ps (Outputs.curves f1)
    ∧ Forall2 (is_curve items Outputs.diff_of) ps (Outputs.curves f2)
    ∧ Forall2 (is_curve items Outputs.visc_of) ps (Outputs.curves f3).
Proof.
  intros Hnd.
  exists (merge_sort N.le (elements (dom (fold_left Outputs.by_p_step items ∅)))).
  eexists _, _, _. split; [reflexivity|]. split; [reflexivity|].
  destruct (save_plot_curves items Outputs.dens_of "Density" "T_vs_density.png" Hnd)
    as (Hsorted & Hps & H1).
  destruct (save_plot_curves items Outputs.diff_of "Self-diffusion (D[H2O])"
              "T_vs_selfdiff.png" Hnd) as (_ & _ & H2).
  destruct (save_plot_curves items Outputs.visc_of "Viscosity" "T_vs_viscosity.png" Hnd)
    as (_ & _ & H3).
  done.
Qed.

Lemma plot_vs_temperature_curves_witness :
  let items := [((350, 1)%N, record_complete); ((313, 1)%N, record_complete);
                ((313, 10)%N, record_density_only); ((300, 20)%N, record_complete)] in
  NoDup (map fst items)
  ∧ ∃ ps f1 f2 f3,
      Outputs.plot_vs_temperature items = [f1; f2; f3]
      ∧ Outputs.fig_name <$> [f1; f2; f3]
        = ["T_vs_density.png"; "T_vs_selfdiff.png"; "T_vs_viscosity.png"]
      ∧ StronglySorted N.lt ps
      ∧ (∀ P, P ∈ ps ↔ points_at P items ≠ [])
      ∧ Forall2 (is_curve items Outputs.dens_of) ps (Outputs.curves f1)
      ∧ Forall2 (is_curve items Outputs.diff_of) ps (Outputs.curves f2)
      ∧ Forall2 (is_curve items Outputs.visc_of) ps (Outputs.curves f3).
Proof.
  intros items.
  assert (NoDup (map fst items)) as H by by_evaluation.
  exact (conj H (plot_vs_temperature_curves items H)).
Defined.

(** X17. In the figures that [main] draws, a condition (T, P) is a point
    of the curve of P exactly when its record has a viscosity, that is
    when both of its files were found and both were parsed; every other
    condition of the report is missing from all three figures. *)
Theorem main_plots_complete_records dens_found calc_found fig T P :
  fig ∈ Outputs.plot_vs_temperature (Outputs.items (main dens_found calc_found).1) →
  (∃ c, c ∈ Outputs.curves fig
        ∧ Outputs.label c = "P=" +:+ pretty P +:+ " bar" ∧ T ∈ Outputs.Ts c)
  ↔ ∃ rec, (main dens_found calc_found).1 !! (T, P) = Some rec
           ∧ is_Some (rec !! "viscosity").
Proof.
  set (records := (main dens_found calc_found).1). intros Hfig.
  pose proof (items_NoDup records) as Hnd.
  assert (∃ y ps, Forall2 (is_curve (Outputs.items records) y) ps (Outputs.curves fig)
                  ∧ ∀ P, P ∈ ps ↔ points_at P (Outputs.items records) ≠ [])
    as (y & ps & Hcs & Hps).
  { unfold Outputs.plot_vs_temperature in Hfig.
    apply elem_of_cons in Hfig as [->|Hfig]; [|apply elem_of_cons in Hfig as [->|Hfig]];
      [| |apply list_elem_of_singleton in Hfig as ->].
    - destruct (save_plot_curves _ Outputs.dens_of "Density" "T_vs_density.png" Hnd)
        as (_ & Hps & Hcs). eauto.
    - destruct (save_plot_curves _ Outputs.diff_of "Self-diffusion (D[H2O])"
                  "T_vs_selfdiff.png" Hnd) as (_ & Hps & Hcs). eauto.
    - destruct (save_plot_curves _ Outputs.visc_of "Viscosity" "T_vs_viscosity.png" Hnd)
        as (_ & Hps & Hcs). eauto. }
  rewrite (figure_curves _ _ _ _ T P Hcs Hps). split.
  - intros (rec & Hin & Hx). exists rec. apply elem_of_items in Hin.
    split; [done|]. by apply complete_point_Some in Hx as (_ & _ & ?).
  - intros (rec & Hrec & Hv). exists rec. split; [by apply elem_of_items|].
    apply complete_point_Some. unfold records, main in Hrec. simpl in Hrec.
    rewrite aggregate_lookup in Hrec. destruct (decide _); [|discriminate].
    injection Hrec as <-.
    destruct (expected_record_fields (scan dens_found) (scan calc_found) (T, P))
      as (_ & Hdv & Hd).
    split; [apply Hd, Hdv, Hv|]. split; [apply Hdv, Hv|done].
Qed.

Lemma main_plots_complete_records_witness :
  let records := (main [density_313; density_350] [calc_313]).1 in
  let fig := Outputs.save_plot (fold_left Outputs.by_p_step (Outputs.items records) ∅)
               Outputs.dens_of "Density" "T_vs_density.png" in
  fig ∈ Outputs.plot_vs_temperature (Outputs.items records)
  ∧ ((∃ c, c ∈ Outputs.curves fig
           ∧ Outputs.label c = "P=" +:+ pretty 1%N +:+ " bar" ∧ 313%N ∈ Outputs.Ts c)
     ↔ ∃ rec, records !! (313, 1)%N = Some rec ∧ is_Some (rec !! "viscosity")).
Proof.
  intros records fig.
  assert (fig ∈ Outputs.plot_vs_temperature (Outputs.items records)) as H
    by apply list_elem_of_here.
  exact (conj H (main_plots_complete_records _ _ fig 313%N 1%N H)).
Defined.

(** X18. [post_proc.py] takes the name of a directory made by
    [create_files.py] exactly when the temperature and the pressure are
    both [int]s that are not negative, and then [find_tp_ancestor] reads
    back the same temperature and pressure as the key. *)
Theorem folder_name_read_back :
  (∀ t p g1 g2,
     TP_DIR_RE_match (CreateFiles.folder_name t p) = Some (g1, g2) ↔
     natural t ∧ natural p ∧ g1 = CreateFiles.str t ∧ g2 = CreateFiles.str p)
  ∧ (∀ (T P : N) rest,
       let d := directory (CreateFiles.folder_name (CreateFiles.Int (Z.of_N T))
                                                   (CreateFiles.Int (Z.of_N P))) in
       find_tp_ancestor (d :: rest) = Some (T, P, d :: rest)).
Proof.
  split; [apply folder_name_match|]. intros T P rest d.
  assert (TP_DIR_RE_match (name d) = Some (pretty T, pretty P)) as Hm.
  { apply folder_name_match. cbn [CreateFiles.str]. rewrite !pretty_Z_of_N.
    split; [by exists T|]. split; [by exists P|]. done. }
  cbn [find_tp_ancestor]. replace (is_dir d) with true by done.
  by rewrite Hm, !int_pretty.
Qed.

(** X19. With the default pressure, and no constant pressure, the
    function makes one directory for each temperature, and [post_proc.py]
    takes none of their names: the pressure in the name is [1.01325],
    which the pattern refuses. So [find_tp_ancestor] passes over such a
    directory and goes on to its parents: a file below it has no key and
    is left out of the scan when no directory further up has a name that
    the pattern takes, and otherwise it gets the key of that directory. *)
Theorem default_pressure_folders_unrecognised temp_range constant_temp :
  ∃ jobs,
    CreateFiles.create_directories_with_files temp_range None constant_temp None
    = Some jobs
    ∧ CreateFiles.folder <$> jobs
      = (fun t => CreateFiles.folder_name t (CreateFiles.Flt (lit "1.01325")))
        <$> temps_of temp_range constant_temp
    ∧ Forall (fun j =>
                TP_DIR_RE_match (CreateFiles.folder j) = None
                ∧ (∀ rest,
                     find_tp_ancestor (directory (CreateFiles.folder j) :: rest)
                     = find_tp_ancestor rest)
                ∧ (∀ rest ls,
                     Forall (fun d => accepted d = false) rest →
                     key_of {| parent := directory (CreateFiles.folder j) :: rest;
                               lines := ls |} = None))
             jobs.
Proof.
  assert (∃ jobs, CreateFiles.create_directories_with_files temp_range None
                    constant_temp None = Some jobs) as [jobs Hjobs].
  { unfold CreateFiles.create_directories_with_files.
    assert (∀ x, mapM CreateFiles.to_atm [CreateFiles.Flt x]
                 = Some [SFmul Float.prec Float.emax x
                           (Float.of_decimal false 986923 (-6))]) as ->
      by reflexivity.
    eexists. reflexivity. }
  exists jobs. split; [done|].
  pose proof (create_folders _ _ _ _ _ Hjobs) as Hnames. cbn [pressures_of default] in Hnames.
  assert (CreateFiles.folder <$> jobs
          = (fun t => CreateFiles.folder_name t (CreateFiles.Flt (lit "1.01325")))
            <$> temps_of temp_range constant_temp) as Heq.
  { rewrite Hnames. clear. induction (temps_of temp_range constant_temp) as [|t ts IH];
      [done|]. rewrite bind_cons, IH. done. }
  split; [done|].
  assert (Forall (fun s => TP_DIR_RE_match s = None) (CreateFiles.folder <$> jobs)) as Hall.
  { rewrite Heq. apply Forall_fmap, Forall_forall. intros t _. simpl.
    apply folder_name_unmatched. intros [_ [n [=]]]. }
  rewrite Forall_fmap in Hall. eapply Forall_impl; [exact Hall|].
  simpl. intros j Hj.
  assert (∀ rest, find_tp_ancestor (directory (CreateFiles.folder j) :: rest)
                  = find_tp_ancestor rest) as Hup.
  { intros rest. cbn [find_tp_ancestor directory is_dir name]. by rewrite Hj. }
  split; [done|]. split; [done|]. intros rest ls Hrest.
  unfold key_of. cbn [parent]. by rewrite Hup, find_tp_ancestor_none.
Qed.

(** A directory made with the default pressure below a directory named
    after a condition: its files get the key of the directory above. *)
Lemma default_pressure_folder_below_condition :
  CreateFiles.folder_name (CreateFiles.Int 313) (CreateFiles.Flt (lit "1.01325"))
  = "T_313_P_1.01325"
  ∧ key_of {| parent := directory "T_313_P_1.01325" :: condition_dir "T_1_P_1";
              lines := [] |} = Some (1, 1)%N
  ∧ key_of {| parent := [directory "T_313_P_1.01325"; directory "simulations"];
              lines := [] |} = None.
Proof. repeat split; vm_compute; reflexivity. Qed.

(** X20. For ranges of [int]s without repetitions no two directories
    have the same name, so that no [run.lmp] is written over by a later
    turn of the loop. *)
Theorem created_folders_distinct temp_range pressure_range constant_temp
    constant_pressure jobs :
  CreateFiles.create_directories_with_files temp_range pressure_range constant_temp
    constant_pressure = Some jobs →
  Forall (fun v => is_int v = true) (temps_of temp_range constant_temp) →
  Forall (fun v => is_int v = true) (pressures_of pressure_range constant_pressure) →
  NoDup (temps_of temp_range constant_temp) →
  NoDup (pressures_of pressure_range constant_pressure) →
  NoDup (CreateFiles.folder <$> jobs).
Proof.
  intros Hjobs Ht Hp Hnt Hnp. rewrite (create_folders _ _ _ _ _ Hjobs).
  rewrite Forall_forall in Ht, Hp. apply NoDup_bind; [| |done].
  - intros t t' s Hin Hin' (p & -> & Hpin)%list_elem_of_fmap
      (p' & Heq & Hpin')%list_elem_of_fmap.
    apply folder_name_inj in Heq as [-> _]; auto.
  - intros t Hin. apply NoDup_fmap_2_strong; [|done].
    intros p p' Hpin Hpin' Heq. apply folder_name_inj in Heq as [_ ->]; auto.
Qed.

Lemma created_folders_distinct_witness :
  let temps := CreateFiles.Int <$> [313; 323; 333; 343; 353; 363; 373]%Z in
  let pressures := CreateFiles.Int <$> [1; 10; 20]%Z in
  ∃ jobs,
    CreateFiles.create_directories_with_files temps (Some pressures) None None
    = Some jobs
    ∧ length jobs = 21
    ∧ NoDup (CreateFiles.folder <$> jobs).
Proof.
  intros temps pressures.
  destruct (CreateFiles.create_directories_with_files temps (Some pressures) None None)
    as [jobs|] eqn:H; [|exfalso; vm_compute in H; discriminate].
  assert (Forall (fun v => is_int v = true) (temps_of temps None)) as H1
    by (repeat constructor).
  assert (Forall (fun v => is_int v = true) (pressures_of (Some pressures) None)) as H2
    by (repeat constructor).
  assert (NoDup (temps_of temps None)) as H3 by by_evaluation.
  assert (NoDup (pressures_of (Some pressures) None)) as H4 by by_evaluation.
  assert (length jobs = 21) as H5.
  { assert (length <$> CreateFiles.create_directories_with_files temps (Some pressures)
                         None None = Some 21) as Hl by (vm_compute; reflexivity).
    rewrite H in Hl. by injection Hl. }
  exists jobs.
  exact (conj eq_refl (conj H5
    (created_folders_distinct temps (Some pressures) None None jobs H H1 H2 H3 H4))).
Defined.
